(** * BotEn: session store, booking state machine and answer service

  A shallow embedding of the core of the BotEn assistant:
  - [utils/formatters.py]            ([split_long_message],
                                      [format_booking_confirmation]),
  - [utils/validators.py]            ([validate_name], [validate_email],
                                      [validate_phone], [sanitize_input]),
  - [services/conversation_manager.py] (the per-user session store),
  - [services/booking_manager.py]    (the booking state machine),
  - [services/ai_service.py]         (cache, retries and fallback),
  - [utils/keyboards.py]             (the two keyboards the text handlers
                                      attach),
  - [handlers/booking.py], [handlers/conversation.py], [bot.py]
                                     (the handlers of typed text and their
                                      router).

  Python [str] values are sequences of Unicode code points, [int]s are
  [Z], the per-user [context.user_data] dictionary is a [gmap] from key
  names to dynamically typed values, and the response cache, whose
  insertion order is observable through [sorted], is an association
  list kept in insertion order. *)

From stdpp Require Import gmap strings list sorting.
From Stdlib Require Import ZArith Ascii.

#[local] Open Scope Z_scope.

(** ** Python strings *)

Module PyStr.

(** A code point. *)
Definition char := Z.

(** [str]: an immutable sequence of code points. *)
Definition str := list Z.

(** [len(s)] *)
Definition len {A} (s : list A) : Z := Z.of_nat (length s).

(** Truth value of a string: [bool(s)], false only for the empty one. *)
Definition truthy (s : str) : bool :=
  match s with [] => false | _ :: _ => true end.

(** String literals of the sources are written as UTF-8 byte strings
    and decoded to code points (sequences of one to four bytes). *)
Fixpoint utf8_decode (bs : list Z) : str :=
  match bs with
  | [] => []
  | b0 :: r0 =>
    if b0 <? 128 then b0 :: utf8_decode r0
    else
      match r0 with
      | [] => [b0]
      | b1 :: r1 =>
        if b0 <? 224 then ((b0 - 192) * 64 + (b1 - 128)) :: utf8_decode r1
        else
          match r1 with
          | [] => [b0; b1]
          | b2 :: r2 =>
            if b0 <? 240
            then ((b0 - 224) * 4096 + (b1 - 128) * 64 + (b2 - 128))
                   :: utf8_decode r2
            else
              match r2 with
              | [] => [b0; b1; b2]
              | b3 :: r3 =>
                ((b0 - 240) * 262144 + (b1 - 128) * 4096
                 + (b2 - 128) * 64 + (b3 - 128)) :: utf8_decode r3
              end
          end
      end
  end.

Definition bytes_of (s : string) : list Z :=
  map (fun a => Z.of_N (N_of_ascii a)) (String.list_ascii_of_string s).

(** The literal [s] as a Python string. *)
Definition lit (s : string) : str := utf8_decode (bytes_of s).

(** [c.isspace()]: the code points Python treats as whitespace, which
    are also the ones the regular expression class [\s] matches. *)
Definition isspace (c : char) : bool :=
  ((9 <=? c) && (c <=? 13)) || ((28 <=? c) && (c <=? 32))
  || (c =? 133) || (c =? 160) || (c =? 5760)
  || ((8192 <=? c) && (c <=? 8202))
  || (c =? 8232) || (c =? 8233) || (c =? 8239) || (c =? 8287)
  || (c =? 12288).

(** [s.lstrip()], [s.rstrip()], [s.strip()] *)
Fixpoint lstrip (s : str) : str :=
  match s with
  | [] => []
  | c :: r => if isspace c then lstrip r else s
  end.

Definition rstrip (s : str) : str := rev (lstrip (rev s)).

Definition strip (s : str) : str := rstrip (lstrip s).

(** A string with no whitespace at its left end. *)
Definition left_clean (s : str) : bool :=
  match s with [] => true | c :: _ => negb (isspace c) end.

(** The characters of [s] that are not whitespace, in order. *)
Definition visible (s : str) : str :=
  List.filter (fun c => negb (isspace c)) s.

(** [s.startswith(p)] *)
Fixpoint startswith (s p : str) : bool :=
  match p, s with
  | [], _ => true
  | _ :: _, [] => false
  | x :: p', c :: s' => (c =? x) && startswith s' p'
  end.

(** [s[:n]] for [n >= 0] *)
Definition prefix (n : nat) (s : str) : str := take n s.

(** [text.split("\n\n")]: the pieces between successive, non-overlapping
    occurrences of two line feeds, scanned from the left. *)
Fixpoint split_nn (s : str) : list str :=
  match s with
  | [] => [[]]
  | c :: r =>
    match r with
    | [] => [[c]]
    | d :: r' =>
      if (c =? 10) && (d =? 10) then [] :: split_nn r'
      else
        match split_nn r with
        | [] => [[c]]
        | p :: ps => (c :: p) :: ps
        end
    end
  end.

(** Case mapping and digits of the Latin and Russian alphabets. *)
Definition lower_basic (c : char) : char :=
  if (65 <=? c) && (c <=? 90) then c + 32
  else if (1040 <=? c) && (c <=? 1071) then c + 32
  else if (1024 <=? c) && (c <=? 1039) then c + 80
  else c.

Definition upper_basic (c : char) : char :=
  if (97 <=? c) && (c <=? 122) then c - 32
  else if (1072 <=? c) && (c <=? 1103) then c - 32
  else if (1104 <=? c) && (c <=? 1119) then c - 80
  else c.

Definition is_ascii_digit (c : char) : bool := (48 <=? c) && (c <=? 57).

(** The code points on which [lower_basic] is Python's case mapping:
    ASCII, the Cyrillic block up to U+045F, and whitespace. *)
Definition basic (c : char) : bool :=
  ((0 <=? c) && (c <? 128)) || ((1024 <=? c) && (c <=? 1119)) || isspace c.

(** Python's Unicode database, of which the code uses [str.lower] and
    the regular expression class [\d].  Their values outside the Latin
    and Russian alphabets are left open; inside, they are fixed. *)
Class UnicodeData := {
  str_lower : str -> str;
  is_decimal : char -> bool;
  str_lower_basic :
    forall s, forallb basic s = true -> str_lower s = map lower_basic s;
  is_decimal_ascii :
    forall c, 0 <= c < 128 -> is_decimal c = is_ascii_digit c
}.

(** The tables restricted to the two alphabets. *)
#[export] Instance basic_unicode : UnicodeData | 100 := {|
  str_lower := map lower_basic;
  is_decimal := is_ascii_digit;
  str_lower_basic := fun s _ => eq_refl;
  is_decimal_ascii := fun c _ => eq_refl
|}.

End PyStr.

Import PyStr.

(** ** [utils/formatters.py] *)

Module Formatters.

Definition nn : str := [10; 10].

(** State of the paragraph loop: the parts closed so far and the part
    being filled. *)
Definition split_step (max_length : Z) (acc : list str * str)
    (paragraph : str) : list str * str :=
  let '(parts, current_part) := acc in
  if len current_part + len paragraph + 2 <=? max_length
  then (parts, current_part ++ paragraph ++ nn)
  else
    ((if truthy current_part then parts ++ [strip current_part] else parts),
     paragraph ++ nn).

Definition split_long_message (text : str) (max_length : Z) : list str :=
  if len text <=? max_length then [text]
  else
    let paragraphs := split_nn text in
    let '(parts, current_part) :=
      fold_left (split_step max_length) paragraphs ([], []) in
    if truthy current_part then parts ++ [strip current_part] else parts.

(** The characters that the HTML parse mode, in which the confirmation
    is sent, reads as markup: [<], [>] and [&]. *)
Definition html_special (c : char) : bool :=
  (c =? 60) || (c =? 62) || (c =? 38).

(** [phone] is [None] or a string; the other arguments are strings. *)
Definition format_booking_confirmation (name course time email : str)
    (phone : option str) : str :=
  let message :=
    lit "✅ <b>Запись на пробное занятие подтверждена!</b>" ++ nn
    ++ lit "👤 Имя: " ++ name ++ [10]
    ++ lit "📚 Курс: " ++ course ++ [10]
    ++ lit "⏰ Время: " ++ time ++ [10]
    ++ lit "📧 Email: " ++ email ++ [10] in
  let message :=
    match phone with
    | Some phone =>
      if truthy phone then message ++ lit "📱 Телефон: " ++ phone ++ [10]
      else message
    | None => message
    end in
  message
  ++ [10]
  ++ lit "📩 На ваш email отправлено письмо с подтверждением и ссылкой на Zoom."
  ++ nn ++ lit "До встречи на занятии! 🎉".

End Formatters.

(** ** [utils/validators.py] *)

Module Validators.

Section tables.
Context `{UnicodeData}.

Definition is_ascii_letter (c : char) : bool :=
  ((97 <=? c) && (c <=? 122)) || ((65 <=? c) && (c <=? 90)).

(** The class [[a-zA-Z0-9._%+-]] *)
Definition email_local_char (c : char) : bool :=
  is_ascii_letter c || is_ascii_digit c
  || (c =? 46) || (c =? 95) || (c =? 37) || (c =? 43) || (c =? 45).

(** The class [[a-zA-Z0-9.-]] *)
Definition email_domain_char (c : char) : bool :=
  is_ascii_letter c || is_ascii_digit c || (c =? 46) || (c =? 45).

(** The longest prefix of [s] in a class, and what follows it. *)
Fixpoint span (p : char -> bool) (s : str) : str * str :=
  match s with
  | [] => ([], [])
  | c :: r =>
    if p c then let '(a, b) := span p r in (c :: a, b) else ([], s)
  end.

(** [re.match(r"^[a-zA-Z0-9._%+-]+@[a-zA-Z0-9.-]+\.[a-zA-Z]{2,}$", email)]
    on a stripped string.  No character of the first class is an at sign,
    so the local part is the longest such prefix; the last group holds no
    dot, so it starts after the last dot. *)
Definition email_pattern (email : str) : bool :=
  let '(local_part, rest) := span email_local_char email in
  match local_part, rest with
  | _ :: _, 64 :: host =>
    let '(rev_tld, rev_domain) := span (fun c => negb (c =? 46)) (rev host) in
    match rev_domain with
    | 46 :: domain =>
      truthy domain
      && forallb email_domain_char domain
      && forallb is_ascii_letter rev_tld
      && (2 <=? len rev_tld)
    | _ => false
    end
  | _, _ => false
  end.

Definition validate_email (email : str) : bool * str :=
  let email := strip email in
  if negb (truthy email) then (false, lit "Email не может быть пустым")
  else if len email >? 254 then (false, lit "Email слишком длинный")
  else if negb (email_pattern email)
  then (false, lit "Некорректный формат email. Пример: example@mail.com")
  else (true, []).

(** [re.sub(r"[\s\-\(\)]", "", phone)] *)
Definition phone_separator (c : char) : bool :=
  isspace c || (c =? 45) || (c =? 40) || (c =? 41).

Definition remove_separators (phone : str) : str :=
  List.filter (fun c => negb (phone_separator c)) phone.

(** [re.match(r"^\+?[\d]+$", cleaned)] on a string without whitespace *)
Definition phone_pattern (cleaned : str) : bool :=
  let digits := match cleaned with 43 :: r => r | _ => cleaned end in
  truthy digits && forallb is_decimal digits.

Definition validate_phone (phone : str) : bool * str :=
  let phone := strip phone in
  if negb (truthy phone) then (true, [])
  else
    let cleaned := remove_separators phone in
    if negb (phone_pattern cleaned)
    then (false, lit "Телефон может содержать только цифры, +, -, ( )")
    else if len cleaned <? 10
    then (false, lit "Телефон слишком короткий (минимум 10 цифр)")
    else if len cleaned >? 15
    then (false, lit "Телефон слишком длинный (максимум 15 цифр)")
    else if (startswith cleaned (lit "+7") || startswith cleaned (lit "8"))
            && (len cleaned <? 11)
    then (false,
          lit "Неверный формат российского номера. Пример: +7 900 123 45 67")
    else (true, []).

(** The class [[a-zA-Zа-яА-ЯёЁ\s\-]] *)
Definition name_char (c : char) : bool :=
  is_ascii_letter c
  || ((1072 <=? c) && (c <=? 1103)) || ((1040 <=? c) && (c <=? 1071))
  || (c =? 1105) || (c =? 1025) || isspace c || (c =? 45).

Definition validate_name (name : str) : bool * str :=
  let name := strip name in
  if negb (truthy name) then (false, lit "Имя не может быть пустым")
  else if len name <? 2
  then (false, lit "Имя слишком короткое (минимум 2 символа)")
  else if len name >? 100
  then (false, lit "Имя слишком длинное (максимум 100 символов)")
  else if negb (forallb name_char name)
  then (false, lit "Имя может содержать только буквы, пробелы и дефисы")
  else (true, []).

End tables.




End Validators.

(** ** [config.py]: the values the core reads *)

Record Config := {
  MAX_HISTORY_MESSAGES : Z;
  AI_RETRY_ATTEMPTS : Z;
  AI_CACHE_TTL : Z
}.

(** The defaults of [config.py]. *)
Definition default_config : Config :=
  {| MAX_HISTORY_MESSAGES := 20; AI_RETRY_ATTEMPTS := 3; AI_CACHE_TTL := 900 |}.

(** ** [services/conversation_manager.py] *)

Module ConversationManager.

Inductive ConversationState :=
| IDLE | BOOKING_COURSE | BOOKING_TIME | BOOKING_NAME
| BOOKING_EMAIL | BOOKING_PHONE | BOOKING_CONFIRM | AI_CHAT.

#[export] Instance ConversationState_eq_dec : EqDecision ConversationState.
Proof. solve_decision. Defined.

Definition all_states : list ConversationState :=
  [IDLE; BOOKING_COURSE; BOOKING_TIME; BOOKING_NAME;
   BOOKING_EMAIL; BOOKING_PHONE; BOOKING_CONFIRM; AI_CHAT].

(** The [.value] of a member. *)
Definition state_value (s : ConversationState) : str :=
  match s with
  | IDLE => lit "idle"
  | BOOKING_COURSE => lit "booking_course"
  | BOOKING_TIME => lit "booking_time"
  | BOOKING_NAME => lit "booking_name"
  | BOOKING_EMAIL => lit "booking_email"
  | BOOKING_PHONE => lit "booking_phone"
  | BOOKING_CONFIRM => lit "booking_confirm"
  | AI_CHAT => lit "ai_chat"
  end.

(** A history entry, the dictionary [{"role": ..., "content": ...}]. *)
Record message := { role : str; content : str }.

#[export] Instance message_eq_dec : EqDecision message.
Proof. solve_decision. Defined.

(** What [context.user_data] holds under a key: [None], a string, or the
    history list. *)
Inductive value :=
| VNone
| VStr (s : str)
| VList (h : list message).

#[export] Instance value_eq_dec : EqDecision value.
Proof. solve_decision. Defined.

(** Truth value of a stored value. *)
Definition value_truthy (v : value) : bool :=
  match v with
  | VNone => false
  | VStr s => truthy s
  | VList h => match h with [] => false | _ => true end
  end.

Abbreviation user_data := (gmap string value).

(** [ConversationState(state)]: the member with that value, if any
    (otherwise Python raises [ValueError]). *)
Definition state_of_value (v : value) : option ConversationState :=
  match v with
  | VStr s => List.find (fun m => bool_decide (state_value m = s)) all_states
  | _ => None
  end.

(** [history[start:]] with Python's treatment of negative and
    out-of-range bounds. *)
Definition slice_from {A} (start : Z) (l : list A) : list A :=
  let n := len l in
  let start := if start <? 0 then Z.max 0 (start + n) else Z.min start n in
  drop (Z.to_nat start) l.

Section store.
Variable cfg : Config.

(** Returns the list stored under ["history"], creating an empty one on
    first use. *)
Definition get_history (ud : user_data) : value * user_data :=
  match ud !! "history"%string with
  | None => (VList [], <["history"%string := VList []]> ud)
  | Some v => (v, ud)
  end.

(** [history.append] updates the stored list in place; only a list has
    that method, so on any other value the call raises ([None]). *)
Definition add_message (ud : user_data) (role content : str)
  : option user_data :=
  let '(history, ud) := get_history ud in
  match history with
  | VList h =>
    let h := h ++ [{| role := role; content := content |}] in
    let ud := <["history"%string := VList h]> ud in
    let max_messages := MAX_HISTORY_MESSAGES cfg * 2 in
    Some (if len h >? max_messages
          then <["history"%string := VList (slice_from (- max_messages) h)]> ud
          else ud)
  | _ => None
  end.

(** A sequence of [add_message] calls, one per message. *)
Fixpoint add_messages (ud : user_data) (msgs : list message)
  : option user_data :=
  match msgs with
  | [] => Some ud
  | m :: msgs =>
    match add_message ud (role m) (content m) with
    | Some ud => add_messages ud msgs
    | None => None
    end
  end.

End store.

(** The history a session holds, empty before the first use. *)
Definition history_of (ud : user_data) : list message :=
  match ud !! "history"%string with
  | Some (VList h) => h
  | _ => []
  end.

(** A session whose ["history"] key is absent or holds a list. *)
Definition history_typed (ud : user_data) : Prop :=
  ud !! "history"%string = None
  \/ exists h, ud !! "history"%string = Some (VList h).

(** The [n] most recent entries of [l], in their order. *)
Definition most_recent {A} (n : nat) (l : list A) : list A :=
  drop (length l - n) l.

Definition clear_history (ud : user_data) : user_data :=
  <["history"%string := VList []]> ud.

Definition get_state (ud : user_data) : ConversationState :=
  let state :=
    default (VStr (state_value IDLE)) (ud !! "conversation_state"%string) in
  match state_of_value state with
  | Some s => s
  | None => IDLE
  end.

Definition set_state (ud : user_data) (state : ConversationState)
  : user_data :=
  <["conversation_state"%string := VStr (state_value state)]> ud.

Definition reset_state (ud : user_data) : user_data := set_state ud IDLE.

Definition is_in_booking_flow (ud : user_data) : bool :=
  bool_decide (get_state ud ∈
    [BOOKING_COURSE; BOOKING_TIME; BOOKING_NAME;
     BOOKING_EMAIL; BOOKING_PHONE; BOOKING_CONFIRM]).

(** [context.user_data.get(key)] *)
Definition get_user_data (ud : user_data) (key : string) : value :=
  default VNone (ud !! key).

Definition set_user_data (ud : user_data) (key : string) (v : value)
  : user_data :=
  <[key := v]> ud.

Definition booking_keys : list string :=
  ["booking_course"; "booking_time"; "booking_name";
   "booking_email"; "booking_phone"]%string.

Definition clear_booking_data (ud : user_data) : user_data :=
  fold_left
    (fun ud key => if bool_decide (is_Some (ud !! key)) then delete key ud else ud)
    booking_keys ud.

End ConversationManager.

(** ** [services/booking_manager.py] *)

Module BookingManager.
Import ConversationManager Validators.

(** A dictionary literal with string keys, in source order. *)
Fixpoint lookup_id (table : list (str * str)) (id : str) : option str :=
  match table with
  | [] => None
  | (k, v) :: rest => if bool_decide (k = id) then Some v else lookup_id rest id
  end.

Definition COURSE_NAMES : list (str * str) :=
  [ (lit "book_a1a2", lit "General English A1-A2 (Beginner)");
    (lit "book_b1b2", lit "General English B1-B2 (Intermediate)");
    (lit "book_speaking", lit "Speaking Booster");
    (lit "book_business", lit "Business English");
    (lit "book_exam", lit "IELTS/TOEFL Preparation");
    (lit "book_it", lit "IT English");
    (lit "book_relocation", lit "English for Relocation") ].

Definition TIME_SLOTS : list (str * str) :=
  [ (lit "time_morning", lit "Утро (08:00-09:00 МСК)");
    (lit "time_afternoon", lit "День (13:00-14:00 МСК)");
    (lit "time_evening", lit "Вечер (19:00-20:00 МСК)");
    (lit "time_late", lit "Поздний вечер (20:30-21:30 МСК)") ].

Definition start_booking (ud : user_data) : user_data :=
  let ud := set_state ud BOOKING_COURSE in
  clear_booking_data ud.

Definition cancel_booking (ud : user_data) : user_data :=
  let ud := clear_booking_data ud in
  reset_state ud.

Definition set_course (ud : user_data) (course_id : str)
  : bool * user_data :=
  match lookup_id COURSE_NAMES course_id with
  | Some course_name =>
    let ud := set_user_data ud "booking_course" (VStr course_name) in
    let ud := set_state ud BOOKING_TIME in
    (true, ud)
  | None => (false, ud)
  end.

Definition set_time (ud : user_data) (time_id : str) : bool * user_data :=
  match lookup_id TIME_SLOTS time_id with
  | Some time_slot =>
    let ud := set_user_data ud "booking_time" (VStr time_slot) in
    let ud := set_state ud BOOKING_NAME in
    (true, ud)
  | None => (false, ud)
  end.

Section input_steps.
Context `{UnicodeData}.

Definition set_name (ud : user_data) (name : str)
  : (bool * str) * user_data :=
  let '(is_valid, error) := validate_name name in
  if is_valid then
    let ud := set_user_data ud "booking_name" (VStr name) in
    let ud := set_state ud BOOKING_EMAIL in
    ((true, []), ud)
  else ((false, error), ud).

Definition set_email (ud : user_data) (email : str)
  : (bool * str) * user_data :=
  let '(is_valid, error) := validate_email email in
  if is_valid then
    let ud := set_user_data ud "booking_email" (VStr email) in
    let ud := set_state ud BOOKING_PHONE in
    ((true, []), ud)
  else ((false, error), ud).

(** The words that skip the phone step. *)
Definition skip_tokens : list str :=
  [lit "пропустить"; lit "skip"; lit "-"].

(** [not phone or phone.lower() in ["пропустить", "skip", "-"]] *)
Definition is_skip (phone : str) : bool :=
  negb (truthy phone) || bool_decide (str_lower phone ∈ skip_tokens).

Definition set_phone (ud : user_data) (phone : str)
  : (bool * str) * user_data :=
  if is_skip phone then
    let ud := set_user_data ud "booking_phone" VNone in
    let ud := set_state ud BOOKING_CONFIRM in
    ((true, []), ud)
  else
    let '(is_valid, error) := validate_phone phone in
    if is_valid then
      let ud := set_user_data ud "booking_phone" (VStr phone) in
      let ud := set_state ud BOOKING_CONFIRM in
      ((true, []), ud)
    else ((false, error), ud).

(** The three steps that take typed text, with their validator and
    their setter. *)
Inductive text_step := NameStep | EmailStep | PhoneStep.

Definition validator (step : text_step) : str -> bool * str :=
  match step with
  | NameStep => validate_name
  | EmailStep => validate_email
  | PhoneStep => validate_phone
  end.

Definition setter (step : text_step)
  : user_data -> str -> (bool * str) * user_data :=
  match step with
  | NameStep => set_name
  | EmailStep => set_email
  | PhoneStep => set_phone
  end.

(** Whether the setter of a step passes the text to its validator: the
    phone step does not when the text is empty or a skip word. *)
Definition validated (step : text_step) (text : str) : bool :=
  match step with
  | PhoneStep => negb (is_skip text)
  | NameStep | EmailStep => true
  end.

End input_steps.

(** [phone] is [token] up to the case of its letters. *)
Fixpoint case_variant (token phone : str) : bool :=
  match token, phone with
  | [], [] => true
  | t :: token, c :: phone =>
    ((c =? t) || (c =? upper_basic t)) && case_variant token phone
  | _, _ => false
  end.

(** Letters of a skip word and their capitals are within the alphabets
    whose case mapping is fixed. *)
Definition caseable (t : char) : bool :=
  basic t && basic (upper_basic t)
  && (lower_basic t =? t) && (lower_basic (upper_basic t) =? t).

(** The summary dictionary, or [None] when a required field is missing. *)
Definition get_booking_summary (ud : user_data)
  : option (gmap string value) :=
  let booking_data : gmap string value :=
    <["phone"%string := get_user_data ud "booking_phone"]>
    (<["email"%string := get_user_data ud "booking_email"]>
    (<["name"%string := get_user_data ud "booking_name"]>
    (<["time"%string := get_user_data ud "booking_time"]>
    (<["course"%string := get_user_data ud "booking_course"]> ∅)))) in
  if negb (forallb value_truthy
             [get_user_data ud "booking_course";
              get_user_data ud "booking_time";
              get_user_data ud "booking_name";
              get_user_data ud "booking_email"])
  then None
  else Some booking_data.

Definition confirm_booking (ud : user_data) : bool * user_data :=
  match get_booking_summary ud with
  | Some booking_data =>
    let ud := clear_booking_data ud in
    let ud := reset_state ud in
    (true, ud)
  | None => (false, ud)
  end.

(** The instruction for the current step, empty outside the form. *)
Definition get_current_step_message (ud : user_data) : str :=
  match get_state ud with
  | BOOKING_COURSE => lit "Выберите интересующий вас курс:"
  | BOOKING_TIME => lit "Выберите удобное время для занятий:"
  | BOOKING_NAME => lit "Введите ваше имя:"
  | BOOKING_EMAIL => lit "Введите ваш email:"
  | BOOKING_PHONE =>
    lit "Введите ваш телефон (или напишите 'пропустить' если не хотите указывать):"
  | BOOKING_CONFIRM => lit "Проверьте данные и подтвердите запись:"
  | _ => []
  end.

(** The operations a caller can invoke on a session. *)
Inductive operation :=
| StartBooking
| SetCourse (course_id : str)
| SetTime (time_id : str)
| SetName (name : str)
| SetEmail (email : str)
| SetPhone (phone : str)
| ConfirmBooking
| CancelBooking.

(** The session after an operation (its return value dropped). *)
Definition run `{UnicodeData} (op : operation) (ud : user_data) : user_data :=
  match op with
  | StartBooking => start_booking ud
  | SetCourse course_id => snd (set_course ud course_id)
  | SetTime time_id => snd (set_time ud time_id)
  | SetName name => snd (set_name ud name)
  | SetEmail email => snd (set_email ud email)
  | SetPhone phone => snd (set_phone ud phone)
  | ConfirmBooking => snd (confirm_booking ud)
  | CancelBooking => cancel_booking ud
  end.

Definition run_all `{UnicodeData} (ops : list operation) (ud : user_data)
  : user_data :=
  fold_left (fun ud op => run op ud) ops ud.

(** The state in which the form asks for what a setter stores. *)
Definition collecting_state (op : operation) : option ConversationState :=
  match op with
  | SetCourse _ => Some BOOKING_COURSE
  | SetTime _ => Some BOOKING_TIME
  | SetName _ => Some BOOKING_NAME
  | SetEmail _ => Some BOOKING_EMAIL
  | SetPhone _ => Some BOOKING_PHONE
  | StartBooking | ConfirmBooking | CancelBooking => None
  end.

(** An operation is in step when a setter is invoked in its own state
    (the dispatch of [handle_booking_input]); the other operations are
    always in step. *)
Definition in_step (op : operation) (ud : user_data) : bool :=
  match collecting_state op with
  | Some s => bool_decide (get_state ud = s)
  | None => true
  end.

(** Sessions reached from a new one by any operations. *)
Inductive reachable `{UnicodeData} : user_data -> Prop :=
| reachable_new : reachable ∅
| reachable_run op ud : reachable ud -> reachable (run op ud).

(** Sessions reached from a new one by operations in step. *)
Inductive reachable_in_step `{UnicodeData} : user_data -> Prop :=
| in_step_new : reachable_in_step ∅
| in_step_run op ud :
    reachable_in_step ud -> in_step op ud = true ->
    reachable_in_step (run op ud).

(** The five booking fields, in the order of the form. *)
Inductive field := Course | Time_ | Name | Email | Phone.

Definition all_fields : list field := [Course; Time_; Name; Email; Phone].

Definition field_key (f : field) : string :=
  match f with
  | Course => "booking_course"
  | Time_ => "booking_time"
  | Name => "booking_name"
  | Email => "booking_email"
  | Phone => "booking_phone"
  end.

(** A field is populated when the session holds a value other than
    [None] for it. *)
Definition populated (ud : user_data) (f : field) : bool :=
  negb (bool_decide (get_user_data ud (field_key f) = VNone)).

(** [completed s f]: in state [s], the step collecting [f] lies behind. *)
Definition completed (s : ConversationState) (f : field) : bool :=
  match s, f with
  | BOOKING_TIME, Course => true
  | BOOKING_NAME, (Course | Time_) => true
  | BOOKING_EMAIL, (Course | Time_ | Name) => true
  | BOOKING_PHONE, (Course | Time_ | Name | Email) => true
  | BOOKING_CONFIRM, _ => true
  | _, _ => false
  end.

(** The field the current state asks for. *)
Definition current_field (s : ConversationState) : option field :=
  match s with
  | BOOKING_COURSE => Some Course
  | BOOKING_TIME => Some Time_
  | BOOKING_NAME => Some Name
  | BOOKING_EMAIL => Some Email
  | BOOKING_PHONE => Some Phone
  | _ => None
  end.

(** The invariant as the data model words it: the populated fields are
    exactly the completed ones, and the current one is not set. *)
Definition fields_exactly_completed (ud : user_data) : bool :=
  forallb (fun f => bool_decide (populated ud f = completed (get_state ud) f))
          all_fields
  && match current_field (get_state ud) with
     | Some f => negb (populated ud f)
     | None => true
     end.

(** The invariant of the sessions reached in step: the same for the four
    required fields; the optional phone is populated only once its step
    lies behind. *)
Definition fields_follow_steps (ud : user_data) : bool :=
  forallb (fun f => bool_decide (populated ud f = completed (get_state ud) f))
          [Course; Time_; Name; Email]
  && implb (populated ud Phone) (completed (get_state ud) Phone)
  && match current_field (get_state ud) with
     | Some f => negb (populated ud f)
     | None => true
     end.

(** The field stored by the step that leads into a state. *)
Definition previous_field (s : ConversationState) : option field :=
  match s with
  | BOOKING_TIME => Some Course
  | BOOKING_NAME => Some Time_
  | BOOKING_EMAIL => Some Name
  | BOOKING_PHONE => Some Email
  | _ => None
  end.

(** What holds of a session whatever the order of the operations: out
    of the form and at its first step no field is populated; further on,
    the field of the step just taken is. *)
Definition last_step_stored (ud : user_data) : bool :=
  match get_state ud with
  | IDLE | BOOKING_COURSE => forallb (fun f => negb (populated ud f)) all_fields
  | s =>
    match previous_field s with
    | Some f => populated ud f
    | None => true
    end
  end.

End BookingManager.

(** ** [services/ai_service.py] *)

Module AIService.
Import ConversationManager.

(** *** The cache dictionary

    Python dictionaries keep their keys in insertion order, and
    [_cache_response] observes that order through the stable [sorted]:
    the cache is the list of its items in insertion order. *)

(** [(response, timestamp)] *)
Definition entry : Type := str * Z.

Abbreviation cache := (list (str * entry)).

Definition timestamp (item : str * entry) : Z := snd (snd item).

(** [cache.get(key)] *)
Fixpoint dict_get (key : str) (c : cache) : option entry :=
  match c with
  | [] => None
  | (k, v) :: rest => if bool_decide (k = key) then Some v else dict_get key rest
  end.

(** [cache[key] = v]: an existing key keeps its place, a new one goes
    last. *)
Fixpoint dict_set (key : str) (v : entry) (c : cache) : cache :=
  match c with
  | [] => [(key, v)]
  | (k, v') :: rest =>
    if bool_decide (k = key) then (k, v) :: rest
    else (k, v') :: dict_set key v rest
  end.

(** [del cache[key]] *)
Fixpoint dict_del (key : str) (c : cache) : cache :=
  match c with
  | [] => []
  | (k, v) :: rest =>
    if bool_decide (k = key) then rest else (k, v) :: dict_del key rest
  end.

(** A dictionary holds each key once. *)
Definition dict_wf (c : cache) : Prop := NoDup (fst <$> c).

(** [sorted(items, key=lambda x: x[1][1])]: ascending timestamps, items
    with equal timestamps in their original order. *)
Fixpoint insert_by_timestamp (x : str * entry) (l : list (str * entry))
  : list (str * entry) :=
  match l with
  | [] => [x]
  | y :: l' =>
    if timestamp x <=? timestamp y then x :: l
    else y :: insert_by_timestamp x l'
  end.

Definition sorted_by_timestamp (items : list (str * entry))
  : list (str * entry) :=
  foldr insert_by_timestamp [] items.

(** Not newer than. *)
Definition older (x y : str * entry) : Prop := timestamp x <= timestamp y.

(** *** The world of the service

    The service reads the clock, calls the provider and sleeps.  The
    clock and the provider are given from outside: [clock i] is what the
    [i]-th call of [time.time()] returns, an exact count of clock units
    (the time to live is counted in the same unit), and
    [provider i request] is what the [i]-th provider call does.  Log
    records are left out. *)

(** A provider call returns a response, whose text may be missing, or
    raises. *)
Inductive outcome :=
| Returned (text : option str)
| Raised.

Record environment := {
  clock : nat -> Z;
  provider : nat -> list message -> outcome;
  knowledge_base : str
}.

Record world := {
  w_cache : cache;
  w_reads : nat;
  w_calls : nat;
  w_sleeps : list Z
}.

Definition new_world : world :=
  {| w_cache := []; w_reads := 0; w_calls := 0; w_sleeps := [] |}.

(** Computations on the world. *)
Definition M (A : Type) : Type := world -> A * world.

#[export] Instance M_ret : MRet M := fun A (a : A) w => (a, w).

#[export] Instance M_bind : MBind M :=
  fun A B (f : A -> M B) (m : M A) w => let '(a, w) := m w in f a w.

Definition get_cache : M cache := fun w => (w_cache w, w).

Definition put_cache (c : cache) : M unit :=
  fun w => (tt, {| w_cache := c; w_reads := w_reads w;
                   w_calls := w_calls w; w_sleeps := w_sleeps w |}).

Section service.
Variable cfg : Config.
Variable env : environment.

(** [time.time()] *)
Definition time_time : M Z :=
  fun w => (clock env (w_reads w),
            {| w_cache := w_cache w; w_reads := S (w_reads w);
               w_calls := w_calls w; w_sleeps := w_sleeps w |}).

(** [time.sleep(seconds)] *)
Definition time_sleep (seconds : Z) : M unit :=
  fun w => (tt, {| w_cache := w_cache w; w_reads := w_reads w;
                   w_calls := w_calls w;
                   w_sleeps := w_sleeps w ++ [seconds] |}).

(** [self.client.chat.completions.create(...)] *)
Definition create_completion (api_messages : list message) : M outcome :=
  fun w => (provider env (w_calls w) api_messages,
            {| w_cache := w_cache w; w_reads := w_reads w;
               w_calls := S (w_calls w); w_sleeps := w_sleeps w |}).

Definition _get_cached_response (cache_key : str) : M (option str) :=
  c ← get_cache;
  match dict_get cache_key c with
  | Some (response, timestamp) =>
    now ← time_time;
    if now - timestamp <? AI_CACHE_TTL cfg then mret (Some response)
    else
      _ ← put_cache (dict_del cache_key c);
      mret None
  | None => mret None
  end.

Definition _cache_response (cache_key response : str) : M unit :=
  c ← get_cache;
  now ← time_time;
  let c := dict_set cache_key (response, now) c in
  if len c >? 100 then
    let sorted_keys := sorted_by_timestamp c in
    put_cache (fold_left (fun c key => dict_del key c)
                         (fst <$> take 20 sorted_keys) c)
  else put_cache c.

Definition _get_fallback_response : str :=
  lit "😔 Извините, AI-помощник временно недоступен. "
  ++ lit "Пожалуйста, попробуйте через несколько минут или свяжитесь с нашей поддержкой:"
  ++ [10; 10]
  ++ lit "📧 support@speakflow-english.com" ++ [10]
  ++ lit "📱 +7 495 123 45 67" ++ [10; 10]
  ++ lit "Мы работаем Пн-Пт с 10:00 до 19:00 МСК.".

Definition _build_system_prompt (context : str) : str :=
  let base_prompt :=
    lit "Ты полезный AI-помощник онлайн-школы английского языка SpeakFlow English. "
    ++ lit "Отвечай на вопросы ТОЛЬКО на основе предоставленной базы знаний. "
    ++ lit "Если ответа нет в базе знаний, вежливо скажи, что у тебя нет этой информации, "
    ++ lit "и предложи клиенту связаться с поддержкой напрямую." ++ [10]
    ++ lit "Отвечай на том же языке, на котором пишет пользователь." ++ [10]
    ++ lit "Будь дружелюбным, профессиональным и полезным." ++ [10; 10] in
  let base_prompt :=
    if bool_decide (context = lit "booking") then
      base_prompt
      ++ lit "Ты помогаешь пользователю записаться на пробное занятие. "
      ++ lit "Будь внимательным и помогай на каждом шаге процесса бронирования."
      ++ [10; 10]
    else if bool_decide (context = lit "faq") then
      base_prompt
      ++ lit "Отвечай на частые вопросы клиентов, используя информацию из раздела FAQ."
      ++ [10; 10]
    else base_prompt in
  base_prompt
  ++ lit "=== БАЗА ЗНАНИЙ ===" ++ [10]
  ++ knowledge_base env ++ [10]
  ++ lit "=== КОНЕЦ БАЗЫ ЗНАНИЙ ===".

(** [next((m["content"] for m in reversed(messages)
          if m["role"] == "user"), None)] *)
Definition last_user_message (messages : list message) : option str :=
  content <$> List.find (fun m => bool_decide (role m = lit "user"))
                        (rev messages).

(** [response.choices[0].message.content or "..."] *)
Definition response_text_of (text : option str) : str :=
  match text with
  | Some t => if truthy t then t else lit "Извините, не смог сформировать ответ."
  | None => lit "Извините, не смог сформировать ответ."
  end.

(** The loop [for attempt in range(Config.AI_RETRY_ATTEMPTS)], on the
    attempts still to make; falling out of it returns the fallback. *)
Fixpoint retry_loop (attempts : list Z) (api_messages : list message)
    (cache_key : option str) : M str :=
  match attempts with
  | [] => mret _get_fallback_response
  | attempt :: attempts =>
    r ← create_completion api_messages;
    match r with
    | Returned text =>
      let response_text := response_text_of text in
      _ ← match cache_key with
          | Some key =>
            if truthy key then _cache_response key response_text
            else mret tt
          | None => mret tt
          end;
      _ ← time_time;
      mret response_text
    | Raised =>
      if attempt =? AI_RETRY_ATTEMPTS cfg - 1 then
        _ ← time_time;
        mret _get_fallback_response
      else
        _ ← time_sleep (2 ^ attempt);
        retry_loop attempts api_messages cache_key
    end
  end.

(** [range(n)] *)
Definition range (n : Z) : list Z := map Z.of_nat (seq 0 (Z.to_nat n)).

(** The lookup that opens [get_response]: the cache key, if one is
    derived, and the cached text, if the call is answered from the
    cache. *)
Definition cache_phase (messages : list message) (context : str)
    (use_cache : bool) : M (option str * option str) :=
  if use_cache && match messages with [] => false | _ => true end then
    match last_user_message messages with
    | Some last_message =>
      if truthy last_message then
        let cache_key := context ++ lit ":" ++ take 100 last_message in
        cached ← _get_cached_response cache_key;
        match cached with
        | Some text =>
          if truthy text then mret (Some cache_key, Some text)
          else mret (Some cache_key, None)
        | None => mret (Some cache_key, None)
        end
      else mret (None, None)
    | None => mret (None, None)
    end
  else mret (None, None).

Definition get_response (messages : list message) (user_id : Z)
    (context : str) (use_cache : bool) : M str :=
  _ ← time_time;
  '(cache_key, cached) ← cache_phase messages context use_cache;
  match cached with
  | Some text => mret text
  | None =>
    let system_prompt := _build_system_prompt context in
    let api_messages :=
      {| role := lit "system"; content := system_prompt |} :: messages in
    retry_loop (range (AI_RETRY_ATTEMPTS cfg)) api_messages cache_key
  end.

(** Whether [get_response] returns the cached text, without calling
    the provider. *)
Definition answered_from_cache (messages : list message) (context : str)
    (use_cache : bool) (w : world) : bool :=
  match snd (fst (cache_phase messages context use_cache (snd (time_time w))))
  with
  | Some _ => true
  | None => false
  end.

End service.

(** The provider calls made between two worlds. *)
Definition calls_between (w w' : world) : Z :=
  Z.of_nat (w_calls w') - Z.of_nat (w_calls w).

(** The sleeps made after those of [w], in order. *)
Definition sleeps_since (w w' : world) : list Z :=
  drop (length (w_sleeps w)) (w_sleeps w').

(** The cache operations, as a caller sees them in sequence. *)
Inductive cache_operation :=
| Lookup (cache_key : str)
| Store (cache_key response : str).

Definition run_cache_operation (cfg : Config) (env : environment)
    (op : cache_operation) (w : world) : world :=
  match op with
  | Lookup cache_key => snd (_get_cached_response cfg env cache_key w)
  | Store cache_key response => snd (_cache_response env cache_key response w)
  end.

Definition run_cache_operations (cfg : Config) (env : environment)
    (ops : list cache_operation) (w : world) : world :=
  fold_left (fun w op => run_cache_operation cfg env op w) ops w.

(** The arguments of one [get_response] call. *)
Record request := {
  req_messages : list message;
  req_user_id : Z;
  req_context : str;
  req_use_cache : bool
}.

(** Calls answered one after the other by the same service. *)
Definition answer_all (cfg : Config) (env : environment)
    (requests : list request) (w : world) : world :=
  fold_left
    (fun w r => snd (get_response cfg env (req_messages r) (req_user_id r)
                       (req_context r) (req_use_cache r) w))
    requests w.

(** The key under which [get_response] caches the answer to a
    conversation whose last user message is [last_message]. *)
Definition cache_key_of (context last_message : str) : str :=
  context ++ lit ":" ++ take 100 last_message.

End AIService.

(** ** [utils/keyboards.py] *)

Module Keyboards.

Record InlineKeyboardButton := { text : str; callback_data : str }.

(** The rows of buttons. *)
Abbreviation InlineKeyboardMarkup := (list (list InlineKeyboardButton)).

Definition get_back_to_menu_keyboard : InlineKeyboardMarkup :=
  [[ {| text := lit "⬅️ Назад в меню"; callback_data := lit "back_to_menu" |} ]].

Definition get_cancel_keyboard : InlineKeyboardMarkup :=
  [[ {| text := lit "❌ Отменить"; callback_data := lit "booking_cancel" |} ]].

End Keyboards.

(** ** [handlers/booking.py], [handlers/conversation.py] and the message
    router of [bot.py]

    A handler works on the session of the user who wrote and sends
    messages to the chat; what it sends is returned as a list, in the
    order of sending.  Sending is taken to succeed; log records are left
    out. *)

Module Handlers.
Import ConversationManager Validators BookingManager AIService.
Import Formatters Keyboards.

Inductive event :=
| send_action (action : str)
| reply_text (text : str) (reply_markup : option InlineKeyboardMarkup)
    (parse_mode : option str).

(** A summary entry passed to a formatter that prints strings. *)
Definition summary_text (booking_data : gmap string value) (key : string)
  : option str :=
  match booking_data !! key with
  | Some (VStr s) => Some s
  | _ => None
  end.

(** [booking_data.get("phone")]: [None] or a string. *)
Definition summary_phone (booking_data : gmap string value)
  : option (option str) :=
  match booking_data !! "phone"%string with
  | Some (VStr s) => Some (Some s)
  | Some VNone | None => Some None
  | Some (VList _) => None
  end.

Section handlers.
Context `{UnicodeData}.
Variable cfg : Config.
Variable env : environment.

(** The handler of text typed during the booking flow.  The result is
    [None] where the confirmation would print a history list held under
    a booking key, whose printed form is not described here; the summary
    dictionary, when there is one, has five keys and so counts as
    true. *)
Definition handle_booking_input (user_input : str) (ud : user_data)
  : option (user_data * list event) :=
  match get_state ud with
  | BOOKING_NAME =>
    let '((success, error), ud) := set_name ud user_input in
    if success then
      Some (ud,
            [reply_text
               (lit "✅ Отлично!" ++ nn
                ++ lit "Шаг 3/5: Введите ваш email для отправки подтверждения:")
               (Some get_cancel_keyboard) None])
    else
      Some (ud,
            [reply_text
               (lit "⚠️ " ++ error ++ nn
                ++ lit "Пожалуйста, введите корректное имя:")
               None None])
  | BOOKING_EMAIL =>
    let '((success, error), ud) := set_email ud user_input in
    if success then
      Some (ud,
            [reply_text
               (lit "✅ Отлично!" ++ nn
                ++ lit "Шаг 4/5: Введите ваш телефон (или напишите 'пропустить'):")
               (Some get_cancel_keyboard) None])
    else
      Some (ud,
            [reply_text
               (lit "⚠️ " ++ error ++ nn
                ++ lit "Пожалуйста, введите корректный email:")
               None None])
  | BOOKING_PHONE =>
    let '((success, error), ud) := set_phone ud user_input in
    if success then
      match get_booking_summary ud with
      | Some booking_data =>
        match summary_text booking_data "name",
              summary_text booking_data "course",
              summary_text booking_data "time",
              summary_text booking_data "email",
              summary_phone booking_data with
        | Some name, Some course, Some time, Some email, Some phone =>
          let confirmation_text :=
            format_booking_confirmation name course time email phone in
          let ud := snd (confirm_booking ud) in
          Some (ud,
                [reply_text confirmation_text
                   (Some get_back_to_menu_keyboard) (Some (lit "HTML"))])
        | _, _, _, _, _ => None
        end
      | None =>
        Some (ud,
              [reply_text
                 (lit "❌ Ошибка при обработке бронирования. Попробуйте снова /book")
                 None None])
      end
    else
      Some (ud,
            [reply_text
               (lit "⚠️ " ++ error ++ nn
                ++ lit "Пожалуйста, введите корректный телефон или 'пропустить':")
               None None])
  | _ => Some (ud, [])
  end.

Definition error_message : str :=
  lit "😔 Извините, произошла ошибка при обработке вашего сообщения. "
  ++ lit "Пожалуйста, попробуйте позже или свяжитесь с поддержкой:" ++ nn
  ++ lit "📧 support@speakflow-english.com" ++ [10]
  ++ lit "📱 +7 495 123 45 67".

(** The handler of free text.  A session call that raises ([None]) is
    caught by the handler, which then apologises; [get_response] is
    given the stored history list itself. *)
Definition handle_message (user_id : Z) (user_message : str)
    (ud : user_data) : M (user_data * list event) :=
  if negb (truthy user_message) then mret (ud, [])
  else
    let typing := send_action (lit "typing") in
    match add_message cfg ud (lit "user") user_message with
    | Some ud =>
      let '(history, ud) := get_history ud in
      match history with
      | VList messages =>
        ai_response ←
          get_response cfg env messages user_id (lit "general") true;
        match add_message cfg ud (lit "assistant") ai_response with
        | Some ud =>
          let parts := split_long_message ai_response 4096 in
          mret (ud, typing :: map (fun part => reply_text part None None) parts)
        | None => mret (ud, [typing; reply_text error_message None None])
        end
      | _ => mret (ud, [typing; reply_text error_message None None])
      end
    | None => mret (ud, [typing; reply_text error_message None None])
    end.

(** The router of the text messages that are not commands;
    [enable_ai_chat] is the configuration flag [ENABLE_AI_CHAT]. *)
Definition message_router (enable_ai_chat : bool) (user_id : Z)
    (user_input : str) (ud : user_data)
  : M (option (user_data * list event)) :=
  if is_in_booking_flow ud then mret (handle_booking_input user_input ud)
  else if enable_ai_chat then
    r ← handle_message user_id user_input ud;
    mret (Some r)
  else
    mret (Some (ud,
                [reply_text
                   (lit "Используйте команды меню для навигации. /help для списка команд.")
                   None None])).

End handlers.

End Handlers.

(** ** Sessions, providers and caches used as examples *)

Module Scenarios.
Import ConversationManager BookingManager AIService.

(** A configuration that keeps one exchanged pair. *)
Definition one_pair_config : Config :=
  {| MAX_HISTORY_MESSAGES := 1; AI_RETRY_ATTEMPTS := 3; AI_CACHE_TTL := 900 |}.

(** A user presses the course button of an earlier message again after
    having chosen a time. *)
Definition stale_course_button : list operation :=
  [StartBooking; SetCourse (lit "book_it"); SetTime (lit "time_morning");
   SetCourse (lit "book_it")].

(** Scenario B of the form, the phone skipped. *)
Definition scenario_b : list operation :=
  [StartBooking; SetCourse (lit "book_it"); SetTime (lit "time_morning");
   SetName (lit "Anna"); SetEmail (lit "anna@example.com");
   SetPhone (lit "skip")].

(** A provider that is down, under a still clock. *)
Definition provider_down : environment :=
  {| clock := fun _ => 0; provider := fun _ _ => Raised;
     knowledge_base := lit "SpeakFlow English" |}.

(** A provider that raises twice and then returns [text]. *)
Definition provider_recovers (text : option str) : environment :=
  {| clock := fun _ => 0;
     provider := fun i _ => if (i <? 2)%nat then Raised else Returned text;
     knowledge_base := lit "SpeakFlow English" |}.

Definition question : list message :=
  [{| role := lit "user"; content := lit "How much is a lesson?" |}].

(** A clock that advances by one unit at each reading. *)
Definition ticking : environment :=
  {| clock := fun i => Z.of_nat i; provider := fun _ _ => Raised;
     knowledge_base := lit "SpeakFlow English" |}.

Definition sample_key (i : nat) : str := lit "general:q" ++ [48 + Z.of_nat i].

(** Responses stored under [n] successive keys, from the [i]-th on. *)
Definition stores (i n : nat) : list cache_operation :=
  map (fun j => Store (sample_key j) (lit "answer")) (seq i n).

(** A cache at its capacity of 100 entries. *)
Definition full_world : world :=
  run_cache_operations default_config ticking (stores 0 100) new_world.

(** A provider that answers every call, under a clock that advances by
    one unit at each reading. *)
Definition answering : environment :=
  {| clock := fun i => Z.of_nat i;
     provider := fun _ _ => Returned (Some (lit "1200 rubles"));
     knowledge_base := lit "SpeakFlow English" |}.

(** The question, asked again at the end of another conversation. *)
Definition question_again : list message :=
  [{| role := lit "user"; content := lit "Hello" |};
   {| role := lit "assistant"; content := lit "Hi!" |};
   {| role := lit "user"; content := lit "How much is a lesson?" |}].

(** A cache that holds an answer to the question, stored at time [T]. *)
Definition answered_world (T : Z) : world :=
  {| w_cache := [(cache_key_of (lit "general") (lit "How much is a lesson?"),
                  (lit "1200 rubles", T))];
     w_reads := 0; w_calls := 0; w_sleeps := [] |}.

(** Two calls, the second without the cache. *)
Definition two_requests : list request :=
  [{| req_messages := question; req_user_id := 7;
      req_context := lit "general"; req_use_cache := true |};
   {| req_messages := question_again; req_user_id := 8;
      req_context := lit "general"; req_use_cache := false |}].

(** A form filled in up to the phone step. *)
Definition form_at_phone : list operation :=
  [StartBooking; SetCourse (lit "book_it"); SetTime (lit "time_morning");
   SetName (lit "Anna"); SetEmail (lit "anna@example.com")].

(** A form entered through the time button of an earlier message. *)
Definition form_without_course : list operation :=
  [SetTime (lit "time_morning"); SetName (lit "Anna");
   SetEmail (lit "anna@example.com")].

End Scenarios.

Import Scenarios.

(** * Properties *)

Section Literals.

Example lit_cyrillic :
  lit "пропустить"
  = [1087; 1088; 1086; 1087; 1091; 1089; 1090; 1080; 1090; 1100].
Proof. reflexivity. Qed.

Example lit_four_bytes : lit "😔 ok" = [128532; 32; 111; 107].
Proof. reflexivity. Qed.

Example strip_both_ends : strip (lit "  a b ") = lit "a b".
Proof. reflexivity. Qed.

End Literals.

Section Formatters_facts.
Import Formatters.

Example split_nn_three_feeds :
  split_nn (lit "a" ++ [10; 10; 10] ++ lit "b") = [lit "a"; 10 :: lit "b"].
Proof. reflexivity. Qed.

Example split_two_paragraphs :
  split_long_message (lit "ab" ++ nn ++ lit "cd") 4 = [lit "ab"; lit "cd"].
Proof. reflexivity. Qed.

(** C1 (fails on the code): a text of 4097 letters [a] has no paragraph
    boundary, and [split_long_message] returns it whole, as one chunk of
    4097 characters; no chunk is ever cut inside a paragraph. *)
Theorem split_long_message_oversized_chunk :
  split_long_message (repeat 97 4097) 4096 = [repeat 97 4097]
  /\ len (repeat 97 4097) = 4097
  /\ ~ (forall text : str,
          Forall (fun chunk => len chunk <= 4096)
                 (split_long_message text 4096)).
Proof.
  assert (E : split_long_message (repeat 97 4097) 4096 = [repeat 97 4097])
    by (vm_compute; reflexivity).
  assert (L : len (repeat 97 4097) = 4097) by (vm_compute; reflexivity).
  split; [exact E | split; [exact L |]].
  intros H. specialize (H (repeat 97 4097)). rewrite E in H.
  apply Forall_inv in H. rewrite L in H. lia.
Qed.

Lemma lstrip_length s : (length (lstrip s) <= length s)%nat.
Proof.
  induction s as [| c s IH]; cbn [lstrip length]; [lia |].
  destruct (isspace c); cbn [length]; lia.
Qed.

Lemma strip_length s : len (strip s) <= len s.
Proof.
  unfold strip, rstrip, len. rewrite length_rev.
  pose proof (lstrip_length (rev (lstrip s))) as H1.
  pose proof (lstrip_length s) as H2.
  rewrite length_rev in H1. lia.
Qed.

Lemma lstrip_app a b :
  lstrip (a ++ b) = if forallb isspace a then lstrip b else lstrip a ++ b.
Proof.
  induction a as [| c a IH]; [reflexivity |].
  cbn [app lstrip forallb]. destruct (isspace c); [exact IH | reflexivity].
Qed.

Lemma rstrip_snoc_space s c :
  isspace c = true -> rstrip (s ++ [c]) = rstrip s.
Proof.
  intros Hc. unfold rstrip. rewrite rev_app_distr. cbn [rev app lstrip].
  rewrite Hc. reflexivity.
Qed.

(** The two line feeds the loop puts after a paragraph are stripped
    again. *)
Lemma strip_paragraph p : len (strip (p ++ nn)) <= len p.
Proof.
  unfold strip. rewrite lstrip_app. destruct (forallb isspace p).
  - change (rstrip (lstrip nn)) with (@nil Z). unfold len. cbn [length]. lia.
  - unfold nn. change [10; 10] with ([10] ++ [10]).
    rewrite app_assoc, !rstrip_snoc_space by reflexivity.
    apply strip_length.
Qed.

(** X24: what the loop does achieve: when every paragraph, the pieces
    between two line feeds in a row, fits the limit, so does every
    chunk. *)
Lemma chunks_fit_when_paragraphs_fit text max_length :
  0 <= max_length ->
  Forall (fun paragraph => len paragraph <= max_length) (split_nn text) ->
  Forall (fun chunk => len chunk <= max_length)
         (split_long_message text max_length).
Proof.
  intros Hmax Hfit. unfold split_long_message.
  destruct (Z.leb_spec (len text) max_length) as [Hshort | _];
    [repeat constructor; exact Hshort |].
  assert (Hloop : forall (paragraphs : list str) (acc : list str * str),
            Forall (fun paragraph => len paragraph <= max_length) paragraphs ->
            Forall (fun chunk => len chunk <= max_length) (fst acc) ->
            len (strip (snd acc)) <= max_length ->
            let r := fold_left (split_step max_length) paragraphs acc in
            Forall (fun chunk => len chunk <= max_length) (fst r)
            /\ len (strip (snd r)) <= max_length).
  { induction paragraphs as [| p ps IH]; intros [parts cur] Hps Hparts Hcur;
      [split; assumption |].
    apply Forall_cons in Hps as [Hp Hps]. cbn [fold_left].
    apply IH; [exact Hps | |]; unfold split_step; cbn [fst snd] in *;
      destruct (Z.leb_spec (len cur + len p + 2) max_length) as [Hroom | _];
      cbn [fst snd].
    - exact Hparts.
    - destruct (truthy cur); [| exact Hparts].
      apply Forall_app. split; [exact Hparts | repeat constructor; exact Hcur].
    - etransitivity; [apply strip_length |].
      unfold len, nn in *. rewrite !length_app. cbn [length]. lia.
    - etransitivity; [apply strip_paragraph | exact Hp]. }
  destruct (Hloop (split_nn text) ([], []) Hfit) as [Hparts Hcur];
    [constructor | exact Hmax |].
  revert Hparts Hcur.
  destruct (fold_left (split_step max_length) (split_nn text) ([], []))
    as [parts cur].
  cbn [fst snd]. intros Hparts Hcur. destruct (truthy cur); [| exact Hparts].
  apply Forall_app. split; [exact Hparts | repeat constructor; exact Hcur].
Qed.

End Formatters_facts.

(** ** The history of a session *)

Section History_facts.
Import ConversationManager.
Variable cfg : Config.

Lemma most_recent_length {A} n (l : list A) :
  length (most_recent n l) = (length l `min` n)%nat.
Proof. unfold most_recent. rewrite length_drop. lia. Qed.

Lemma most_recent_app {A} n (a b : list A) :
  most_recent n (most_recent n a ++ b) = most_recent n (a ++ b).
Proof.
  unfold most_recent. rewrite !length_app, length_drop.
  destruct (decide (length a <= n)%nat) as [Hle | Hgt].
  - replace (length a - n)%nat with 0%nat by lia. simpl. f_equal. lia.
  - destruct (decide (length b <= n)%nat) as [Hb | Hb].
    + rewrite !drop_app_le by (rewrite ?length_drop; lia).
      rewrite drop_drop. do 2 f_equal. lia.
    + rewrite !drop_app_ge by (rewrite ?length_drop; lia).
      rewrite length_drop. f_equal. lia.
Qed.

(** The trimming slice keeps the most recent entries. *)
Lemma slice_from_most_recent {A} (m : Z) (l : list A) :
  0 < m -> m < len l ->
  slice_from (- m) l = most_recent (Z.to_nat m) l.
Proof.
  intros Hm Hl. unfold slice_from, most_recent, len in *.
  destruct (Z.ltb_spec (- m) 0) as [_ | ?]; [| lia].
  f_equal. lia.
Qed.

(** One call: the new entry goes last, and the list is cut back to the
    [2 * MAX_HISTORY_MESSAGES] most recent entries. *)
Lemma add_message_history (ud : user_data) role content :
  1 <= MAX_HISTORY_MESSAGES cfg -> history_typed ud ->
  exists ud',
    add_message cfg ud role content = Some ud'
    /\ ud' !! "history"%string
       = Some (VList (most_recent (Z.to_nat (2 * MAX_HISTORY_MESSAGES cfg))
                        (history_of ud
                         ++ [{| role := role; content := content |}]))).
Proof.
  intros HN Hty.
  set (m := {| role := role; content := content |}).
  assert (Hget : exists ud0, get_history ud = (VList (history_of ud), ud0)).
  { unfold get_history, history_of.
    destruct Hty as [-> | [h ->]]; eauto. }
  destruct Hget as [ud0 Hget].
  unfold add_message. rewrite Hget. fold m.
  set (h := history_of ud ++ [m]).
  replace (MAX_HISTORY_MESSAGES cfg * 2) with (2 * MAX_HISTORY_MESSAGES cfg)
    by lia.
  destruct (Z.gtb_spec (len h) (2 * MAX_HISTORY_MESSAGES cfg)) as [Hlong | Hshort].
  - eexists. split; [reflexivity |].
    rewrite lookup_insert_eq, slice_from_most_recent by lia. reflexivity.
  - eexists. split; [reflexivity |].
    rewrite lookup_insert_eq. do 2 f_equal.
    unfold most_recent, len in *.
    replace (length h - Z.to_nat (2 * MAX_HISTORY_MESSAGES cfg))%nat
      with 0%nat by lia.
    reflexivity.
Qed.

Lemma history_of_lookup (ud : user_data) h :
  ud !! "history"%string = Some (VList h) -> history_of ud = h.
Proof. unfold history_of. intros ->. reflexivity. Qed.

Lemma add_messages_history (msgs : list message) :
  1 <= MAX_HISTORY_MESSAGES cfg -> msgs <> [] ->
  forall ud : user_data, history_typed ud ->
  exists ud',
    add_messages cfg ud msgs = Some ud'
    /\ ud' !! "history"%string
       = Some (VList (most_recent (Z.to_nat (2 * MAX_HISTORY_MESSAGES cfg))
                        (history_of ud ++ msgs))).
Proof.
  intros HN. induction msgs as [| m msgs IH]; [congruence |].
  intros _ ud Hty.
  destruct (add_message_history ud (role m) (content m) HN Hty)
    as (ud1 & Hadd & Hh).
  simpl. rewrite Hadd.
  destruct m as [r c]; simpl in *.
  destruct msgs as [| m' msgs'].
  - exists ud1. split; [reflexivity | exact Hh].
  - destruct (IH ltac:(discriminate) ud1) as (ud' & Hrun & Hh').
    { right. eauto. }
    exists ud'. split; [exact Hrun |].
    rewrite Hh', (history_of_lookup _ _ Hh), most_recent_app, <- app_assoc.
    reflexivity.
Qed.

(** C4: after any non-empty sequence of [add_message] calls on a session
    (so after each call of a longer sequence), the history is the
    [2 * MAX_HISTORY_MESSAGES] most recently appended entries, in the
    order they were appended, and so has at most that many entries. *)
Theorem history_bounded_most_recent (ud : user_data) (msgs : list message) :
  1 <= MAX_HISTORY_MESSAGES cfg ->
  history_typed ud ->
  msgs <> [] ->
  exists ud',
    add_messages cfg ud msgs = Some ud'
    /\ history_of ud'
       = most_recent (Z.to_nat (2 * MAX_HISTORY_MESSAGES cfg))
                     (history_of ud ++ msgs)
    /\ len (history_of ud') <= 2 * MAX_HISTORY_MESSAGES cfg.
Proof.
  intros HN Hty Hne.
  destruct (add_messages_history msgs HN Hne ud Hty) as (ud' & Hrun & Hh).
  exists ud'. split; [exact Hrun |].
  rewrite (history_of_lookup _ _ Hh). split; [reflexivity |].
  unfold len. rewrite most_recent_length. lia.
Qed.

End History_facts.

Lemma history_bounded_most_recent_witness :
  exists ud',
    ConversationManager.add_messages one_pair_config ∅
      [ConversationManager.Build_message (lit "user") (lit "one");
       ConversationManager.Build_message (lit "assistant") (lit "two");
       ConversationManager.Build_message (lit "user") (lit "three")]
    = Some ud'
    /\ ConversationManager.history_of ud'
       = ConversationManager.most_recent
           (Z.to_nat (2 * MAX_HISTORY_MESSAGES one_pair_config))
           (ConversationManager.history_of ∅ ++
            [ConversationManager.Build_message (lit "user") (lit "one");
             ConversationManager.Build_message (lit "assistant") (lit "two");
             ConversationManager.Build_message (lit "user") (lit "three")])
    /\ len (ConversationManager.history_of ud')
       <= 2 * MAX_HISTORY_MESSAGES one_pair_config.
Proof.
  apply (history_bounded_most_recent one_pair_config ∅).
  - simpl. lia.
  - left. reflexivity.
  - discriminate.
Defined.

Example history_keeps_last_two :
  ConversationManager.history_of
    (default ∅
      (ConversationManager.add_messages one_pair_config ∅
        [ConversationManager.Build_message (lit "user") (lit "one");
         ConversationManager.Build_message (lit "assistant") (lit "two");
         ConversationManager.Build_message (lit "user") (lit "three")]))
  = [ConversationManager.Build_message (lit "assistant") (lit "two");
     ConversationManager.Build_message (lit "user") (lit "three")].
Proof. vm_compute. reflexivity. Qed.

(** ** The booking form *)

Section Booking_facts.
Import ConversationManager Validators BookingManager.
Context `{UnicodeData}.

Lemma state_of_value_state_value s :
  state_of_value (VStr (state_value s)) = Some s.
Proof. destruct s; vm_compute; reflexivity. Qed.

Lemma get_state_set_state (ud : user_data) s : get_state (set_state ud s) = s.
Proof.
  assert (E : forall (m : user_data) v,
             m !! "conversation_state"%string = Some v ->
             get_state m = default IDLE (state_of_value v)).
  { intros m v Hm. unfold get_state. rewrite Hm.
    simpl. destruct (state_of_value v); reflexivity. }
  rewrite (E _ (VStr (state_value s))) by apply lookup_insert_eq.
  rewrite state_of_value_state_value. reflexivity.
Qed.

Lemma get_state_set_user_data (ud : user_data) k v :
  k <> "conversation_state"%string ->
  get_state (set_user_data ud k v) = get_state ud.
Proof.
  intros Hk. unfold get_state, set_user_data.
  rewrite lookup_insert_ne by done. reflexivity.
Qed.

Lemma clear_booking_data_deletes (ud : user_data) :
  clear_booking_data ud
  = delete "booking_phone"%string
      (delete "booking_email"%string
        (delete "booking_name"%string
          (delete "booking_time"%string
            (delete "booking_course"%string ud)))).
Proof.
  assert (E : forall (m : user_data) (k : string),
             (if bool_decide (is_Some (m !! k)) then delete k m else m)
             = delete k m).
  { intros m k. case_bool_decide as Hk; [reflexivity |].
    symmetry. apply delete_id. destruct (m !! k); [| reflexivity].
    exfalso. apply Hk. eauto. }
  unfold clear_booking_data, booking_keys. cbn [fold_left].
  rewrite !E. reflexivity.
Qed.

Lemma get_state_clear_booking_data (ud : user_data) :
  get_state (clear_booking_data ud) = get_state ud.
Proof.
  rewrite clear_booking_data_deletes. unfold get_state.
  rewrite !lookup_delete_ne by done. reflexivity.
Qed.

Lemma populated_clear_booking_data (ud : user_data) f :
  populated (clear_booking_data ud) f = false.
Proof.
  rewrite clear_booking_data_deletes. unfold populated, get_user_data.
  destruct f; simpl;
    rewrite ?lookup_delete_eq, ?(lookup_delete_ne _ _ _) by done;
    rewrite ?lookup_delete_eq; reflexivity.
Qed.

Lemma populated_set_state (ud : user_data) s f :
  populated (set_state ud s) f = populated ud f.
Proof.
  unfold populated, get_user_data, set_state.
  rewrite lookup_insert_ne by (destruct f; done). reflexivity.
Qed.

Lemma populated_set_user_data (ud : user_data) k v f :
  populated (set_user_data ud k v) f
  = if bool_decide (k = field_key f) then negb (bool_decide (v = VNone))
    else populated ud f.
Proof.
  unfold populated, get_user_data, set_user_data.
  destruct (decide (k = field_key f)) as [-> | Hk].
  - rewrite lookup_insert_eq, (bool_decide_eq_true_2 (_ = field_key f)) by done.
    reflexivity.
  - rewrite lookup_insert_ne, (bool_decide_eq_false_2 (_ = field_key f)) by done.
    reflexivity.
Qed.

Ltac booking_rewrite :=
  rewrite ?get_state_clear_booking_data, ?get_state_set_state,
    ?populated_set_state, ?populated_set_user_data,
    ?populated_clear_booking_data.

Ltac invariant_goal :=
  unfold fields_follow_steps; cbn [forallb]; booking_rewrite;
  cbn [current_field]; booking_rewrite.

(** Decides an invariant once the state is known and the session occurs
    only under [populated]. *)
Ltac by_field_cases ud Hinv :=
  cbn [forallb current_field] in Hinv; revert Hinv;
  generalize (populated ud Course), (populated ud Time_), (populated ud Name),
    (populated ud Email), (populated ud Phone);
  intros [] [] [] [] []; vm_compute; congruence.

Ltac step_state Hstep :=
  unfold in_step in Hstep; cbn [collecting_state] in Hstep;
  apply bool_decide_eq_true_1 in Hstep.

(** The operations in step keep the form's invariant. *)
Lemma fields_follow_steps_run op (ud : user_data) :
  fields_follow_steps ud = true -> in_step op ud = true ->
  fields_follow_steps (run op ud) = true.
Proof.
  intros Hinv Hstep.
  destruct op as [| course_id | time_id | name | email | phone | |];
    unfold run.
  - unfold start_booking. invariant_goal. reflexivity.
  - step_state Hstep.
    unfold set_course. destruct (lookup_id COURSE_NAMES course_id); [| exact Hinv].
    cbn [snd]. invariant_goal. unfold fields_follow_steps in Hinv.
    rewrite Hstep in Hinv. by_field_cases ud Hinv.
  - step_state Hstep.
    unfold set_time. destruct (lookup_id TIME_SLOTS time_id); [| exact Hinv].
    cbn [snd]. invariant_goal. unfold fields_follow_steps in Hinv.
    rewrite Hstep in Hinv. by_field_cases ud Hinv.
  - step_state Hstep.
    unfold set_name. destruct (validate_name name) as [[] error]; [| exact Hinv].
    cbn [snd]. invariant_goal. unfold fields_follow_steps in Hinv.
    rewrite Hstep in Hinv. by_field_cases ud Hinv.
  - step_state Hstep.
    unfold set_email. destruct (validate_email email) as [[] error]; [| exact Hinv].
    cbn [snd]. invariant_goal. unfold fields_follow_steps in Hinv.
    rewrite Hstep in Hinv. by_field_cases ud Hinv.
  - step_state Hstep.
    unfold set_phone. destruct (is_skip phone).
    + cbn [snd]. invariant_goal. unfold fields_follow_steps in Hinv.
      rewrite Hstep in Hinv. by_field_cases ud Hinv.
    + destruct (validate_phone phone) as [[] error]; [| exact Hinv].
      cbn [snd]. invariant_goal. unfold fields_follow_steps in Hinv.
      rewrite Hstep in Hinv. by_field_cases ud Hinv.
  - unfold confirm_booking.
    destruct (get_booking_summary ud); [| exact Hinv].
    cbn [snd]. unfold reset_state. invariant_goal. reflexivity.
  - unfold cancel_booking, reset_state. invariant_goal. reflexivity.
Qed.

(** C2 (as amended): in every session reached from a new one by
    operations that are in step (each setter invoked in the state that
    asks for its field), course, time, name and email are populated
    exactly when their step lies behind, the phone is populated only
    when its step lies behind, and the field the current state asks for
    is not set. *)
Theorem booking_fields_follow_steps (ud : user_data) :
  reachable_in_step ud -> fields_follow_steps ud = true.
Proof.
  induction 1 as [| op ud Hreach IH Hstep].
  - vm_compute. reflexivity.
  - apply fields_follow_steps_run; assumption.
Qed.

(** Whatever the order of the operations, the field of the step just
    taken is stored, and a session out of the form or at its first step
    holds no field. *)
Lemma last_step_stored_run op (ud : user_data) :
  last_step_stored ud = true -> last_step_stored (run op ud) = true.
Proof.
  intros Hinv.
  destruct op as [| course_id | time_id | name | email | phone | |];
    unfold run.
  - unfold start_booking, last_step_stored. booking_rewrite.
    cbn [forallb all_fields]. booking_rewrite. reflexivity.
  - unfold set_course. destruct (lookup_id COURSE_NAMES course_id);
      [| exact Hinv].
    cbn [snd]. unfold last_step_stored. booking_rewrite.
    cbn [previous_field]. booking_rewrite. reflexivity.
  - unfold set_time. destruct (lookup_id TIME_SLOTS time_id); [| exact Hinv].
    cbn [snd]. unfold last_step_stored. booking_rewrite.
    cbn [previous_field]. booking_rewrite. reflexivity.
  - unfold set_name. destruct (validate_name name) as [[] error];
      [| exact Hinv].
    cbn [snd]. unfold last_step_stored. booking_rewrite.
    cbn [previous_field]. booking_rewrite. reflexivity.
  - unfold set_email. destruct (validate_email email) as [[] error];
      [| exact Hinv].
    cbn [snd]. unfold last_step_stored. booking_rewrite.
    cbn [previous_field]. booking_rewrite. reflexivity.
  - unfold set_phone. destruct (is_skip phone).
    + cbn [snd]. unfold last_step_stored. booking_rewrite. reflexivity.
    + destruct (validate_phone phone) as [[] error]; [| exact Hinv].
      cbn [snd]. unfold last_step_stored. booking_rewrite. reflexivity.
  - unfold confirm_booking.
    destruct (get_booking_summary ud); [| exact Hinv].
    cbn [snd]. unfold reset_state, last_step_stored. booking_rewrite.
    cbn [forallb all_fields]. booking_rewrite. reflexivity.
  - unfold cancel_booking, reset_state, last_step_stored. booking_rewrite.
    cbn [forallb all_fields]. booking_rewrite. reflexivity.
Qed.

(** X14: in every session reached from a new one by the operations of
    the booking manager, in any order and with any arguments, no booking
    field is stored out of the form and at its first step, and further
    on the field of the step that leads into the current state is. *)
Lemma reachable_last_step_stored (ud : user_data) :
  reachable ud -> last_step_stored ud = true.
Proof.
  induction 1 as [| op ud Hreach IH].
  - vm_compute. reflexivity.
  - apply last_step_stored_run, IH.
Qed.

(** [reachable] is closed under sequences of operations. *)
Lemma reachable_run_all ops (ud : user_data) :
  reachable ud -> reachable (run_all ops ud).
Proof.
  revert ud. induction ops as [| op ops IH]; intros ud Hud; [exact Hud |].
  apply IH. constructor. exact Hud.
Qed.

(** C7 (as amended): when a setter passes the text to its validator and
    the validator rejects it, the setter returns failure with the
    validator's message and leaves the session, hence the state and every
    booking field, as it was. *)
Theorem rejected_text_keeps_session step (ud : user_data) text error :
  validated step text = true ->
  validator step text = (false, error) ->
  setter step ud text = ((false, error), ud)
  /\ get_state (snd (setter step ud text)) = get_state ud
  /\ forall key, get_user_data (snd (setter step ud text)) key
                 = get_user_data ud key.
Proof.
  intros Hpass Hrej.
  assert (E : setter step ud text = ((false, error), ud)).
  { destruct step; cbn [setter validator validated] in *.
    - unfold set_name. rewrite Hrej. reflexivity.
    - unfold set_email. rewrite Hrej. reflexivity.
    - unfold set_phone. apply negb_true_iff in Hpass.
      rewrite Hpass, Hrej. reflexivity. }
  rewrite E. auto.
Qed.

Lemma case_variant_lower token : forallb caseable token = true ->
  forall phone, case_variant token phone = true ->
  forallb basic phone = true /\ map lower_basic phone = token.
Proof.
  induction token as [| t token IH]; intros Hc [| c phone] Hv;
    try discriminate; [split; reflexivity |].
  cbn [forallb case_variant] in *.
  apply andb_true_iff in Hc as [Ht Hc], Hv as [Hcase Hv].
  destruct (IH Hc phone Hv) as [Hb Hm].
  unfold caseable in Ht.
  repeat (apply andb_true_iff in Ht as [Ht ?]).
  apply orb_true_iff in Hcase as [->%Z.eqb_eq | ->%Z.eqb_eq];
    cbn [forallb map]; rewrite Hb, Hm; split;
    try (apply andb_true_iff; split; auto); f_equal; lia.
Qed.

Lemma skip_tokens_caseable token :
  token ∈ skip_tokens -> forallb caseable token = true.
Proof.
  unfold skip_tokens. rewrite !elem_of_cons, elem_of_nil.
  intros [-> | [-> | [-> | []]]]; vm_compute; reflexivity.
Qed.

(** C8: [set_phone] called with a skip word, in any letter case, or with
    a dash succeeds, moves the state to [BOOKING_CONFIRM] and leaves the
    phone unset ([None]). *)
Theorem skip_token_skips_phone (ud : user_data) token phone :
  token ∈ skip_tokens ->
  case_variant token phone = true ->
  fst (set_phone ud phone) = (true, [])
  /\ get_state (snd (set_phone ud phone)) = BOOKING_CONFIRM
  /\ get_user_data (snd (set_phone ud phone)) "booking_phone" = VNone
  /\ populated (snd (set_phone ud phone)) Phone = false.
Proof.
  intros Htok Hv.
  destruct (case_variant_lower token (skip_tokens_caseable _ Htok) phone Hv)
    as [Hb Hm].
  assert (Hskip : is_skip phone = true).
  { unfold is_skip. rewrite (str_lower_basic _ Hb), Hm.
    rewrite (bool_decide_eq_true_2 _ Htok). apply orb_true_r. }
  unfold set_phone. rewrite Hskip. cbn [fst snd].
  rewrite get_state_set_state, populated_set_state, populated_set_user_data.
  unfold get_user_data, set_state, set_user_data.
  rewrite lookup_insert_ne, lookup_insert_eq by done.
  repeat split; reflexivity.
Qed.

Lemma isspace_basic c : isspace c = true -> basic c = true.
Proof. unfold basic. intros ->. apply orb_true_r. Qed.

Lemma isspace_lower c : isspace c = true -> lower_basic c = c.
Proof.
  unfold isspace, lower_basic.
  rewrite !orb_true_iff, !andb_true_iff, !Z.leb_le, !Z.eqb_eq. intros Hc.
  repeat match goal with
         | |- context [if ?b then _ else _] =>
           let E := fresh "E" in
           destruct b eqn:E;
           [apply andb_true_iff in E as [?%Z.leb_le ?%Z.leb_le]; lia |]
         end.
  reflexivity.
Qed.

Lemma whitespace_lower (s : str) :
  forallb isspace s = true -> str_lower s = s.
Proof.
  intros Hs. rewrite str_lower_basic.
  - induction s as [| c s IH]; [reflexivity |].
    cbn [forallb map] in *. apply andb_true_iff in Hs as [Hc Hs].
    rewrite (isspace_lower _ Hc), (IH Hs). reflexivity.
  - induction s as [| c s IH]; [reflexivity |].
    cbn [forallb] in *. apply andb_true_iff in Hs as [Hc Hs].
    rewrite (isspace_basic _ Hc), (IH Hs). reflexivity.
Qed.

Lemma whitespace_strip (s : str) : forallb isspace s = true -> strip s = [].
Proof.
  intros Hs. unfold strip.
  assert (E : lstrip s = []).
  { induction s as [| c s IH]; [reflexivity |].
    cbn [forallb lstrip] in *. apply andb_true_iff in Hs as [-> Hs]. auto. }
  rewrite E. reflexivity.
Qed.

Lemma whitespace_not_skip (s : str) :
  s <> [] -> forallb isspace s = true -> is_skip s = false.
Proof.
  intros Hne Hs. unfold is_skip. rewrite (whitespace_lower _ Hs).
  destruct s as [| c s]; [congruence |]. cbn [truthy negb orb].
  apply bool_decide_eq_false_2. unfold skip_tokens.
  rewrite !elem_of_cons, elem_of_nil.
  intros [E | [E | [E | []]]]; rewrite E in Hs; vm_compute in Hs;
    discriminate.
Qed.

(** C10: a non-empty text made of whitespace only is no skip word, and
    [validate_phone] strips it to the empty string and accepts it; so
    [set_phone] succeeds, stores the whitespace text itself as the phone
    and moves the state to [BOOKING_CONFIRM]. *)
Theorem whitespace_phone_is_stored (ud : user_data) phone :
  phone <> [] ->
  forallb isspace phone = true ->
  set_phone ud phone
  = ((true, []),
     set_state (set_user_data ud "booking_phone" (VStr phone)) BOOKING_CONFIRM)
  /\ get_user_data (snd (set_phone ud phone)) "booking_phone" = VStr phone
  /\ get_state (snd (set_phone ud phone)) = BOOKING_CONFIRM.
Proof.
  intros Hne Hs.
  assert (E : set_phone ud phone
              = ((true, []),
                 set_state (set_user_data ud "booking_phone" (VStr phone))
                           BOOKING_CONFIRM)).
  { unfold set_phone, validate_phone.
    rewrite (whitespace_not_skip _ Hne Hs), (whitespace_strip _ Hs).
    reflexivity. }
  rewrite E. cbn [snd]. rewrite get_state_set_state.
  unfold get_user_data, set_state, set_user_data.
  rewrite lookup_insert_ne, lookup_insert_eq by done.
  repeat split; reflexivity.
Qed.

End Booking_facts.

(** ** The booking form on concrete sessions *)

Section Booking_examples.
Import ConversationManager Validators BookingManager.

Example scenario_b_summary :
  get_booking_summary (run_all scenario_b ∅)
  = Some (<["phone"%string := VNone]>
         (<["email"%string := VStr (lit "anna@example.com")]>
         (<["name"%string := VStr (lit "Anna")]>
         (<["time"%string := VStr (lit "Утро (08:00-09:00 МСК)")]>
         (<["course"%string := VStr (lit "IT English")]> ∅))))).
Proof. vm_compute. reflexivity. Qed.

Example scenario_c_invalid_email :
  fst (fst (set_email (set_state ∅ BOOKING_EMAIL) (lit "not-an-email")))
  = false
  /\ get_state (snd (set_email (set_state ∅ BOOKING_EMAIL)
                               (lit "not-an-email")))
     = BOOKING_EMAIL.
Proof. vm_compute. split; reflexivity. Qed.

Example validate_phone_samples :
  fst (validate_phone (lit "+7 (900) 123-45-67")) = true
  /\ fst (validate_phone (lit "8900123456")) = false
  /\ fst (validate_phone (lit "12345")) = false
  /\ fst (validate_phone (lit "+44 20 7946 0958")) = true.
Proof. vm_compute. repeat split; reflexivity. Qed.

Example validate_email_samples :
  fst (validate_email (lit " a.b+c@mail.example.com ")) = true
  /\ fst (validate_email (lit "a@b.c")) = false
  /\ fst (validate_email (lit "a@@b.com")) = false
  /\ fst (validate_email (lit "a@.com")) = false.
Proof. vm_compute. repeat split; reflexivity. Qed.

Example validate_name_samples :
  fst (validate_name (lit "Анна-Мария Ёлкина")) = true
  /\ fst (validate_name (lit "A")) = false
  /\ fst (validate_name (lit "R2D2")) = false.
Proof. vm_compute. repeat split; reflexivity. Qed.

(** C2 (fails on the code): no setter looks at the state it is called
    in.  After a booking is started and a course and a time are chosen,
    choosing a course again puts the session back into [BOOKING_TIME]
    while the time is still stored: the field the current state asks for
    is set. *)
Lemma booking_fields_exactly_completed_counterexample :
  reachable (run_all stale_course_button ∅)
  /\ get_state (run_all stale_course_button ∅) = BOOKING_TIME
  /\ populated (run_all stale_course_button ∅) Time_ = true
  /\ fields_exactly_completed (run_all stale_course_button ∅) = false
  /\ ~ (forall ud : user_data,
          reachable ud -> fields_exactly_completed ud = true).
Proof.
  assert (R : reachable (run_all stale_course_button ∅))
    by (apply reachable_run_all; constructor).
  assert (F : fields_exactly_completed (run_all stale_course_button ∅) = false)
    by (vm_compute; reflexivity).
  split; [exact R |].
  split; [vm_compute; reflexivity |].
  split; [vm_compute; reflexivity |].
  split; [exact F |].
  intros Hall. specialize (Hall _ R). rewrite F in Hall. discriminate.
Qed.

(** Even in step, a skipped phone leaves a completed step without a
    populated field. *)
Example skipped_phone_not_populated :
  reachable_in_step (run_all scenario_b ∅)
  /\ get_state (run_all scenario_b ∅) = BOOKING_CONFIRM
  /\ populated (run_all scenario_b ∅) Phone = false
  /\ fields_exactly_completed (run_all scenario_b ∅) = false.
Proof.
  split.
  - unfold scenario_b, run_all. cbn [fold_left].
    repeat (apply in_step_run; [| vm_compute; reflexivity]).
    apply in_step_new.
  - vm_compute. repeat split; reflexivity.
Qed.

Lemma booking_fields_follow_steps_witness :
  fields_follow_steps
    (run (SetCourse (lit "book_it")) (run StartBooking ∅)) = true.
Proof.
  apply (booking_fields_follow_steps
           (run (SetCourse (lit "book_it")) (run StartBooking ∅))).
  apply in_step_run; [apply in_step_run; [apply in_step_new | reflexivity] |].
  vm_compute. reflexivity.
Defined.

(** C7 (fails on the code): the word [skip] is rejected by
    [validate_phone], yet [set_phone] never validates it: the call
    succeeds and the state moves on. *)
Lemma rejected_text_counterexample :
  validate_phone (lit "skip")
  = (false, lit "Телефон может содержать только цифры, +, -, ( )")
  /\ fst (set_phone ∅ (lit "skip")) = (true, [])
  /\ get_state ∅ = IDLE
  /\ get_state (snd (set_phone ∅ (lit "skip"))) = BOOKING_CONFIRM.
Proof. vm_compute. repeat split; reflexivity. Qed.

Lemma rejected_text_keeps_session_witness :
  setter EmailStep (set_state ∅ BOOKING_EMAIL) (lit "not-an-email")
  = ((false, lit "Некорректный формат email. Пример: example@mail.com"),
     set_state ∅ BOOKING_EMAIL)
  /\ get_state (snd (setter EmailStep (set_state ∅ BOOKING_EMAIL)
                            (lit "not-an-email")))
     = get_state (set_state ∅ BOOKING_EMAIL)
  /\ forall key,
       get_user_data (snd (setter EmailStep (set_state ∅ BOOKING_EMAIL)
                                  (lit "not-an-email"))) key
       = get_user_data (set_state ∅ BOOKING_EMAIL) key.
Proof.
  apply (rejected_text_keeps_session EmailStep (set_state ∅ BOOKING_EMAIL)
           (lit "not-an-email")).
  - reflexivity.
  - vm_compute. reflexivity.
Defined.

Lemma skip_token_skips_phone_witness :
  fst (set_phone (set_state ∅ BOOKING_PHONE) (lit "ПропуСТИТЬ")) = (true, [])
  /\ get_state (snd (set_phone (set_state ∅ BOOKING_PHONE)
                               (lit "ПропуСТИТЬ"))) = BOOKING_CONFIRM
  /\ get_user_data (snd (set_phone (set_state ∅ BOOKING_PHONE)
                                   (lit "ПропуСТИТЬ"))) "booking_phone"
     = VNone
  /\ populated (snd (set_phone (set_state ∅ BOOKING_PHONE)
                               (lit "ПропуСТИТЬ"))) Phone = false.
Proof.
  apply (skip_token_skips_phone (set_state ∅ BOOKING_PHONE)
           (lit "пропустить") (lit "ПропуСТИТЬ")).
  - apply elem_of_cons. left. reflexivity.
  - vm_compute. reflexivity.
Defined.

Lemma whitespace_phone_is_stored_witness :
  set_phone (set_state ∅ BOOKING_PHONE) [32; 9; 160]
  = ((true, []),
     set_state (set_user_data (set_state ∅ BOOKING_PHONE) "booking_phone"
                              (VStr [32; 9; 160])) BOOKING_CONFIRM)
  /\ get_user_data (snd (set_phone (set_state ∅ BOOKING_PHONE) [32; 9; 160]))
                   "booking_phone" = VStr [32; 9; 160]
  /\ get_state (snd (set_phone (set_state ∅ BOOKING_PHONE) [32; 9; 160]))
     = BOOKING_CONFIRM.
Proof.
  apply (whitespace_phone_is_stored (set_state ∅ BOOKING_PHONE) [32; 9; 160]).
  - discriminate.
  - vm_compute. reflexivity.
Defined.

End Booking_examples.

(** ** The answer service: retries and fallback *)

Section Retry_facts.
Import ConversationManager AIService.
Variable cfg : Config.
Variable env : environment.

Lemma time_time_projections w :
  w_cache (snd (time_time env w)) = w_cache w
  /\ w_calls (snd (time_time env w)) = w_calls w
  /\ w_sleeps (snd (time_time env w)) = w_sleeps w.
Proof. repeat split. Qed.

Lemma _cache_response_projections key response w :
  w_calls (snd (_cache_response env key response w)) = w_calls w
  /\ w_sleeps (snd (_cache_response env key response w)) = w_sleeps w.
Proof.
  unfold _cache_response, mbind, M_bind, get_cache, time_time, put_cache.
  cbn [fst snd]. destruct (_ >? 100); split; reflexivity.
Qed.

(** One turn of the loop. *)
Lemma retry_loop_cons attempt attempts api_messages cache_key w :
  retry_loop cfg env (attempt :: attempts) api_messages cache_key w
  = let w1 := snd (create_completion env api_messages w) in
    match provider env (w_calls w) api_messages with
    | Returned text =>
      let w2 :=
        match cache_key with
        | Some key =>
          if truthy key
          then snd (_cache_response env key (response_text_of text) w1)
          else w1
        | None => w1
        end in
      (response_text_of text, snd (time_time env w2))
    | Raised =>
      if attempt =? AI_RETRY_ATTEMPTS cfg - 1
      then (_get_fallback_response, snd (time_time env w1))
      else retry_loop cfg env attempts api_messages cache_key
             (snd (time_sleep (2 ^ attempt) w1))
    end.
Proof.
  cbn [retry_loop]. unfold mbind, M_bind, create_completion. cbn [fst snd].
  destruct (provider env (w_calls w) api_messages) as [text |].
  - destruct cache_key as [key |]; [destruct (truthy key) |];
      try reflexivity.
    destruct (_cache_response env key (response_text_of text) _) as [[] w2].
    reflexivity.
  - destruct (attempt =? AI_RETRY_ATTEMPTS cfg - 1); reflexivity.
Qed.

(** The loop over the attempts [k, k + 1, ..], all of which raise. *)
Lemma retry_loop_all_raise api_messages cache_key n : forall k w,
  Z.of_nat (k + n) = AI_RETRY_ATTEMPTS cfg ->
  (forall i, (i < n)%nat ->
     provider env (w_calls w + i) api_messages = Raised) ->
  let r := retry_loop cfg env (map Z.of_nat (seq k n)) api_messages
             cache_key w in
  fst r = _get_fallback_response
  /\ w_calls (snd r) = (w_calls w + n)%nat
  /\ w_sleeps (snd r)
     = w_sleeps w ++ map (fun j => 2 ^ Z.of_nat j) (seq k (n - 1))
  /\ w_cache (snd r) = w_cache w.
Proof.
  induction n as [| n IH]; intros k w HR Hraise.
  - cbn [seq map retry_loop Nat.sub]. unfold mret, M_ret. cbn [fst snd seq map].
    rewrite Nat.add_0_r, app_nil_r. auto.
  - cbn [seq map]. cbv zeta. rewrite retry_loop_cons. cbv zeta.
    pose proof (Hraise 0%nat ltac:(lia)) as H0.
    rewrite Nat.add_0_r in H0. rewrite H0.
    destruct (Z.eqb_spec (Z.of_nat k) (AI_RETRY_ATTEMPTS cfg - 1)) as [Hlast | Hmore].
    + assert (n = 0)%nat as -> by lia.
      cbn [fst snd time_time create_completion w_calls w_sleeps w_cache
           Nat.sub seq map].
      rewrite app_nil_r. repeat split; lia.
    + destruct n as [| n]; [lia |].
      specialize (IH (S k) (snd (time_sleep (2 ^ Z.of_nat k)
                                   (snd (create_completion env api_messages w))))).
      cbv zeta in IH.
      destruct IH as (Ht & Hc & Hs & Hk).
      * lia.
      * intros i Hi. cbn [w_calls snd time_sleep create_completion].
        replace (S (w_calls w) + i)%nat with (w_calls w + S i)%nat by lia.
        apply Hraise. lia.
      * rewrite Ht, Hc, Hs, Hk. cbn [w_calls w_sleeps w_cache snd time_sleep
                                      create_completion].
        repeat split; [lia |].
        replace (S (S n) - 1)%nat with (S n) by lia.
        replace (S n - 1)%nat with n by lia.
        cbn [seq map]. rewrite <- app_assoc. reflexivity.
Qed.

Lemma range_seq n : range n = map Z.of_nat (seq 0 (Z.to_nat n)).
Proof. reflexivity. Qed.

Lemma _get_cached_response_projections key w :
  w_calls (snd (_get_cached_response cfg env key w)) = w_calls w
  /\ w_sleeps (snd (_get_cached_response cfg env key w)) = w_sleeps w.
Proof.
  unfold _get_cached_response, mbind, M_bind, get_cache. cbn [fst snd].
  destruct (dict_get key (w_cache w)) as [[response ts] |];
    [| split; reflexivity].
  unfold time_time, put_cache. cbn [fst snd].
  destruct (_ <? _); split; reflexivity.
Qed.

Lemma cache_phase_projections messages context use_cache w :
  w_calls (snd (cache_phase cfg env messages context use_cache w)) = w_calls w
  /\ w_sleeps (snd (cache_phase cfg env messages context use_cache w))
     = w_sleeps w.
Proof.
  unfold cache_phase.
  destruct (use_cache && _); [| split; reflexivity].
  destruct (last_user_message messages) as [m |]; [| split; reflexivity].
  destruct (truthy m); [| split; reflexivity].
  unfold mbind, M_bind.
  pose proof (_get_cached_response_projections
                (context ++ lit ":" ++ take 100 m) w) as Hp.
  destruct (_get_cached_response cfg env (context ++ lit ":" ++ take 100 m) w)
    as [cached w1].
  cbn [snd] in Hp.
  destruct cached as [t |]; [destruct (truthy t) |]; exact Hp.
Qed.

(** [get_response] when the cache does not answer. *)
Lemma get_response_not_cached messages user_id context use_cache w :
  answered_from_cache cfg env messages context use_cache w = false ->
  exists cache_key w1,
    w_calls w1 = w_calls w /\ w_sleeps w1 = w_sleeps w
    /\ get_response cfg env messages user_id context use_cache w
       = retry_loop cfg env (range (AI_RETRY_ATTEMPTS cfg))
           ({| role := lit "system";
               content := _build_system_prompt env context |} :: messages)
           cache_key w1.
Proof.
  unfold answered_from_cache, get_response, mbind, M_bind.
  set (w0 := snd (time_time env w)).
  assert (Hw0 : time_time env w = (fst (time_time env w), w0)) by reflexivity.
  rewrite Hw0.
  pose proof (cache_phase_projections messages context use_cache w0) as Hkeep.
  destruct (cache_phase cfg env messages context use_cache w0)
    as [[cache_key cached] w1].
  cbn [fst snd] in *. destruct cached; [discriminate |]. intros _.
  exists cache_key, w1. destruct Hkeep. auto.
Qed.

(** The loop never takes calls back, and makes one as soon as one
    attempt is planned. *)
Lemma retry_loop_calls attempts api_messages cache_key : forall w,
  (w_calls w + (if attempts is [] then 0 else 1)
   <= w_calls (snd (retry_loop cfg env attempts api_messages cache_key w)))%nat.
Proof.
  induction attempts as [| attempt attempts IH]; intros w;
    [cbn [retry_loop]; unfold mret, M_ret; cbn [snd]; lia |].
  rewrite retry_loop_cons. cbv zeta.
  destruct (provider env (w_calls w) api_messages) as [text |].
  - cbn [snd time_time w_calls].
    destruct cache_key as [key |]; [destruct (truthy key) |];
      rewrite ?(proj1 (_cache_response_projections _ _ _));
      cbn [snd create_completion w_calls]; lia.
  - destruct (attempt =? AI_RETRY_ATTEMPTS cfg - 1).
    + cbn [snd time_time create_completion w_calls]. lia.
    + specialize (IH (snd (time_sleep (2 ^ attempt)
                             (snd (create_completion env api_messages w))))).
      cbn [snd time_sleep create_completion w_calls] in IH |- *.
      destruct attempts; lia.
Qed.

(** X16: with at least one attempt configured, the calls answered from
    the cache are exactly those that make no provider call. *)
Lemma provider_called_iff_not_cached messages user_id context use_cache w :
  1 <= AI_RETRY_ATTEMPTS cfg ->
  answered_from_cache cfg env messages context use_cache w = false
  <-> 0 < calls_between w
            (snd (get_response cfg env messages user_id context use_cache w)).
Proof.
  intros HR.
  destruct (answered_from_cache cfg env messages context use_cache w) eqn:Hc.
  - split; [discriminate |]. intros Hcalls. exfalso. revert Hcalls.
    unfold answered_from_cache in Hc.
    unfold calls_between, get_response, mbind, M_bind.
    set (w0 := snd (time_time env w)) in *.
    change (time_time env w) with (fst (time_time env w), w0).
    cbv iota beta.
    pose proof (cache_phase_projections messages context use_cache w0)
      as [Hk _].
    destruct (cache_phase cfg env messages context use_cache w0)
      as [[cache_key cached] w1].
    cbn [fst snd] in *. destruct cached; [| discriminate].
    unfold mret, M_ret. cbn [snd]. rewrite Hk. subst w0.
    cbn [time_time snd w_calls]. lia.
  - split; [intros _ | reflexivity].
    destruct (get_response_not_cached messages user_id context use_cache w Hc)
      as (cache_key & w1 & Hk & _ & ->).
    pose proof (retry_loop_calls (range (AI_RETRY_ATTEMPTS cfg))
                  ({| role := lit "system";
                      content := _build_system_prompt env context |}
                     :: messages) cache_key w1) as Hcalls.
    assert (Hne : range (AI_RETRY_ATTEMPTS cfg) <> []).
    { unfold range. destruct (Z.to_nat (AI_RETRY_ATTEMPTS cfg)) eqn:E;
        [lia | discriminate]. }
    destruct (range (AI_RETRY_ATTEMPTS cfg)); [congruence |].
    unfold calls_between. lia.
Qed.


Lemma response_text_of_nonempty t :
  t <> [] -> response_text_of (Some t) = t.
Proof. destruct t; [congruence | reflexivity]. Qed.

(** C9 (as amended): with three attempts configured, a call that is not
    answered from the cache and whose provider raises twice and then
    returns makes three calls and sleeps twice, [2 ^ 0] and then [2 ^ 1]
    time units, with no sleep after the last attempt; it returns the
    text of the third call when that text is not empty, and the fixed
    apology otherwise. *)
Theorem third_attempt_answers messages user_id context use_cache w text :
  AI_RETRY_ATTEMPTS cfg = 3 ->
  answered_from_cache cfg env messages context use_cache w = false ->
  (forall request, provider env (w_calls w) request = Raised) ->
  (forall request, provider env (S (w_calls w)) request = Raised) ->
  (forall request, provider env (S (S (w_calls w))) request = Returned text) ->
  let r := get_response cfg env messages user_id context use_cache w in
  fst r = response_text_of text
  /\ (forall t, text = Some t -> t <> [] -> fst r = t)
  /\ sleeps_since w (snd r) = [2 ^ 0; 2 ^ 1]
  /\ calls_between w (snd r) = 3.
Proof.
  intros HR Hmiss H1 H2 H3.
  destruct (get_response_not_cached messages user_id context use_cache w Hmiss)
    as (cache_key & w1 & Hc & Hs & ->).
  cbv zeta. rewrite HR. change (range 3) with [0; 1; 2].
  rewrite retry_loop_cons. cbv zeta. rewrite Hc, H1, HR.
  change (0 =? 3 - 1) with false. cbv iota.
  rewrite retry_loop_cons. cbv zeta.
  cbn [w_calls w_cache w_reads w_sleeps snd time_sleep create_completion].
  rewrite ?Hc, H2, HR.
  change (1 =? 3 - 1) with false. cbv iota.
  rewrite retry_loop_cons. cbv zeta.
  cbn [w_calls w_cache w_reads w_sleeps snd time_sleep create_completion].
  rewrite ?Hc, H3.
  cbn [fst snd].
  set (w3 := {| w_cache := w_cache w1; w_reads := w_reads w1;
                w_calls := S (S (S (w_calls w)));
                w_sleeps := (w_sleeps w1 ++ [2 ^ 0]) ++ [2 ^ 1] |}).
  assert (Hw : exists w4, (match cache_key with
                | Some key =>
                  if truthy key
                  then snd (_cache_response env key (response_text_of text) w3)
                  else w3
                | None => w3
                end) = w4 /\ w_calls w4 = w_calls w3
                       /\ w_sleeps w4 = w_sleeps w3).
  { eexists. split; [reflexivity |].
    destruct cache_key as [key |]; [destruct (truthy key) |];
      try (split; reflexivity).
    apply _cache_response_projections. }
  destruct Hw as (w4 & -> & Hc4 & Hs4).
  split; [reflexivity |].
  split; [intros t -> Ht; apply response_text_of_nonempty, Ht |].
  unfold sleeps_since, calls_between.
  cbn [w_calls w_sleeps time_time snd]. rewrite Hc4, Hs4. subst w3.
  cbn [w_calls w_sleeps]. rewrite Hs, <- app_assoc, drop_app_length.
  split; [reflexivity | lia].
Qed.

End Retry_facts.

(** ** The answer service on concrete runs *)

Section Retry_examples.
Import ConversationManager AIService.


Example three_calls_when_down :
  w_calls (snd (get_response default_config provider_down question 7
                  (lit "general") true new_world)) = 3%nat
  /\ w_sleeps (snd (get_response default_config provider_down question 7
                      (lit "general") true new_world)) = [1; 2].
Proof. vm_compute. split; reflexivity. Qed.

(** C9 (fails on the code): the third call returns an empty text, and
    [get_response] returns the apology in its place. *)
Lemma third_attempt_text_counterexample :
  provider (provider_recovers (Some [])) 2 [] = Returned (Some [])
  /\ fst (get_response default_config (provider_recovers (Some [])) question
            7 (lit "general") true new_world)
     = lit "Извините, не смог сформировать ответ."
  /\ fst (get_response default_config (provider_recovers (Some [])) question
            7 (lit "general") true new_world) <> [].
Proof. vm_compute. repeat split; try reflexivity. discriminate. Qed.

Lemma third_attempt_answers_witness :
  let r := get_response default_config
             (provider_recovers (Some (lit "From 900 RUB."))) question 7
             (lit "general") true new_world in
  fst r = response_text_of (Some (lit "From 900 RUB."))
  /\ (forall t, Some (lit "From 900 RUB.") = Some t -> t <> [] -> fst r = t)
  /\ sleeps_since new_world (snd r) = [2 ^ 0; 2 ^ 1]
  /\ calls_between new_world (snd r) = 3.
Proof.
  apply (third_attempt_answers default_config
           (provider_recovers (Some (lit "From 900 RUB."))) question 7
           (lit "general") true new_world (Some (lit "From 900 RUB."))).
  - reflexivity.
  - vm_compute. reflexivity.
  - reflexivity.
  - reflexivity.
  - reflexivity.
Defined.

End Retry_examples.

(** ** The answer service: the response cache *)

Section Cache_facts.
Import ConversationManager AIService.

(** Items with equal timestamps keep their order. *)
Example sorted_by_timestamp_stable :
  sorted_by_timestamp
    [(lit "a", (lit "x", 2)); (lit "b", (lit "x", 1));
     (lit "c", (lit "x", 2)); (lit "d", (lit "x", 1))]
  = [(lit "b", (lit "x", 1)); (lit "d", (lit "x", 1));
     (lit "a", (lit "x", 2)); (lit "c", (lit "x", 2))].
Proof. reflexivity. Qed.

Lemma insert_by_timestamp_perm x l : insert_by_timestamp x l ≡ₚ x :: l.
Proof.
  induction l as [| y l IH]; [reflexivity |]. cbn [insert_by_timestamp].
  destruct (timestamp x <=? timestamp y); [reflexivity |].
  rewrite IH. apply perm_swap.
Qed.

Lemma sorted_by_timestamp_perm l : sorted_by_timestamp l ≡ₚ l.
Proof.
  induction l as [| x l IH]; [reflexivity |].
  cbn [sorted_by_timestamp foldr]. fold (sorted_by_timestamp l).
  rewrite insert_by_timestamp_perm, IH. reflexivity.
Qed.

Lemma insert_by_timestamp_sorted x l :
  StronglySorted older l -> StronglySorted older (insert_by_timestamp x l).
Proof.
  induction 1 as [| y l Hl IH Hy]; cbn [insert_by_timestamp].
  - repeat constructor.
  - destruct (Z.leb_spec (timestamp x) (timestamp y)) as [Hxy | Hyx].
    + constructor; [constructor; assumption |].
      constructor; [exact Hxy |].
      eapply Forall_impl; [exact Hy |]. unfold older. intros z Hz. lia.
    + constructor; [exact IH |].
      rewrite insert_by_timestamp_perm. constructor; [| exact Hy].
      unfold older. lia.
Qed.

Lemma sorted_by_timestamp_sorted l :
  StronglySorted older (sorted_by_timestamp l).
Proof.
  induction l as [| x l IH]; [constructor |].
  apply insert_by_timestamp_sorted, IH.
Qed.

Lemma insert_by_timestamp_snoc x y l :
  timestamp y <= timestamp x ->
  insert_by_timestamp y (l ++ [x]) = insert_by_timestamp y l ++ [x].
Proof.
  intros Hyx. induction l as [| z l IH]; cbn [insert_by_timestamp app].
  - destruct (Z.leb_spec (timestamp y) (timestamp x)); [reflexivity | lia].
  - destruct (timestamp y <=? timestamp z); [reflexivity |].
    rewrite IH. reflexivity.
Qed.

(** An item not older than the others, inserted last, is sorted last. *)
Lemma sorted_by_timestamp_snoc x l :
  Forall (fun y => timestamp y <= timestamp x) l ->
  sorted_by_timestamp (l ++ [x]) = sorted_by_timestamp l ++ [x].
Proof.
  induction 1 as [| y l Hy Hl IH]; [reflexivity |].
  cbn [sorted_by_timestamp foldr app].
  fold (sorted_by_timestamp (l ++ [x])). fold (sorted_by_timestamp l).
  rewrite IH. apply insert_by_timestamp_snoc, Hy.
Qed.

Lemma dict_get_set key v c : dict_get key (dict_set key v c) = Some v.
Proof.
  induction c as [| [k v'] c IH]; cbn [dict_set dict_get].
  - rewrite bool_decide_eq_true_2; reflexivity.
  - case_bool_decide as Hk; cbn [dict_get].
    + rewrite bool_decide_eq_true_2; [reflexivity | exact Hk].
    + rewrite bool_decide_eq_false_2; [exact IH | exact Hk].
Qed.

Lemma dict_set_fresh key v c :
  key ∉ fst <$> c -> dict_set key v c = c ++ [(key, v)].
Proof.
  induction c as [| [k v'] c IH]; [reflexivity |].
  rewrite fmap_cons, not_elem_of_cons. cbn [fst]. intros [Hne Hc].
  cbn [dict_set app]. rewrite bool_decide_eq_false_2 by congruence.
  rewrite IH; [reflexivity | exact Hc].
Qed.

Lemma dict_set_present key v c :
  key ∈ fst <$> c -> fst <$> dict_set key v c = fst <$> c.
Proof.
  induction c as [| [k v'] c IH]; [intros []%elem_of_nil |].
  rewrite fmap_cons. cbn [fst dict_set]. intros Hin.
  case_bool_decide as Hk; [subst; reflexivity |].
  rewrite !fmap_cons. cbn [fst]. f_equal. apply IH.
  apply elem_of_cons in Hin as [-> | Hin]; [congruence | exact Hin].
Qed.

Lemma dict_set_keys key v c :
  fst <$> dict_set key v c
  = if bool_decide (key ∈ fst <$> c) then fst <$> c else (fst <$> c) ++ [key].
Proof.
  case_bool_decide as Hk.
  - apply dict_set_present, Hk.
  - rewrite dict_set_fresh, fmap_app by exact Hk. reflexivity.
Qed.

Lemma dict_set_wf key v c : dict_wf c -> dict_wf (dict_set key v c).
Proof.
  unfold dict_wf. intros Hc. rewrite dict_set_keys. case_bool_decide as Hk.
  - exact Hc.
  - apply NoDup_app. split; [exact Hc |].
    split; [| apply NoDup_singleton].
    intros k Hin ->%list_elem_of_singleton. exact (Hk Hin).
Qed.

Lemma dict_set_length key v c :
  (length c <= length (dict_set key v c) <= S (length c))%nat.
Proof.
  rewrite <- !(length_fmap fst), dict_set_keys. case_bool_decide.
  - lia.
  - rewrite length_app. cbn [length]. lia.
Qed.

(** In a dictionary, deleting a key removes the items that carry it. *)
Lemma dict_del_filter key c :
  dict_wf c -> dict_del key c = filter (fun x => x.1 <> key) c.
Proof.
  unfold dict_wf. induction c as [| [k v] c IH]; [reflexivity |].
  rewrite fmap_cons, NoDup_cons. cbn [fst dict_del]. intros [Hk Hc].
  case_bool_decide as Hkey.
  - subst k. rewrite filter_cons_False by (cbn [fst]; tauto).
    symmetry. clear IH Hc.
    induction c as [| [k' v'] c IH]; [reflexivity |].
    rewrite fmap_cons, not_elem_of_cons in Hk. cbn [fst] in Hk.
    destruct Hk as [Hne Hk].
    rewrite filter_cons_True by (cbn [fst]; congruence).
    f_equal. apply IH, Hk.
  - rewrite filter_cons_True by (cbn [fst]; exact Hkey).
    f_equal. apply IH, Hc.
Qed.

Lemma filter_key_cons (P : str -> Prop) `{forall k, Decision (P k)}
    k v (c : cache) :
  filter (fun x => P x.1) ((k, v) :: c)
  = if decide (P k) then (k, v) :: filter (fun x => P x.1) c
    else filter (fun x => P x.1) c.
Proof. rewrite filter_cons. reflexivity. Qed.

Lemma filter_wf (P : str -> Prop) `{forall k, Decision (P k)} (c : cache) :
  dict_wf c -> dict_wf (filter (fun x => P x.1) c).
Proof.
  unfold dict_wf. induction c as [| [k v] c IH]; [intros; constructor |].
  rewrite fmap_cons, NoDup_cons. cbn [fst]. intros [Hk Hc].
  rewrite filter_key_cons. destruct (decide (P k)) as [HP | HP].
  - rewrite fmap_cons, NoDup_cons. split; [| apply IH, Hc].
    cbn [fst]. intros Hin. apply Hk.
    apply list_elem_of_fmap in Hin as (x & -> & Hx).
    apply list_elem_of_filter in Hx as [_ Hx].
    apply list_elem_of_fmap. eauto.
  - apply IH, Hc.
Qed.

Lemma filter_keep_all {A} (P : A -> Prop) `{forall x, Decision (P x)} l :
  Forall P l -> filter P l = l.
Proof.
  induction 1 as [| x l Hx Hl IH]; [reflexivity |].
  rewrite filter_cons. destruct (decide (P x)); [| tauto].
  rewrite IH. reflexivity.
Qed.

Lemma filter_keep_none {A} (P : A -> Prop) `{forall x, Decision (P x)} l :
  Forall (fun x => ~ P x) l -> filter P l = [].
Proof.
  induction 1 as [| x l Hx Hl IH]; [reflexivity |].
  rewrite filter_cons. destruct (decide (P x)); [tauto | exact IH].
Qed.

Lemma fold_dict_del_filter keys : forall c : cache,
  dict_wf c ->
  fold_left (fun c key => dict_del key c) keys c
  = filter (fun x => x.1 ∉ keys) c.
Proof.
  induction keys as [| k keys IH]; intros c Hc; cbn [fold_left].
  - symmetry. apply filter_keep_all, Forall_forall.
    intros x _. apply not_elem_of_nil.
  - rewrite (dict_del_filter _ _ Hc).
    rewrite IH by exact (filter_wf (fun key => key <> k) c Hc).
    rewrite list_filter_filter. apply list_filter_iff.
    intros x. rewrite not_elem_of_cons. tauto.
Qed.

Lemma dict_get_filter (P : str -> Prop) `{forall k, Decision (P k)}
    key (c : cache) :
  P key -> dict_get key (filter (fun x => P x.1) c) = dict_get key c.
Proof.
  intros HP. induction c as [| [k v] c IH]; [reflexivity |].
  rewrite filter_key_cons. cbn [dict_get].
  destruct (decide (P k)) as [Hk | Hk].
  - cbn [dict_get]. rewrite IH. reflexivity.
  - rewrite bool_decide_eq_false_2 by congruence. exact IH.
Qed.

Section with_environment.
Variable cfg : Config.
Variable env : environment.

(** The cache after [_cache_response]. *)
Lemma _cache_response_cache key response w :
  dict_wf (w_cache w) ->
  w_cache (snd (_cache_response env key response w))
  = let c := dict_set key (response, clock env (w_reads w)) (w_cache w) in
    if len c >? 100
    then filter (fun x => x.1 ∉ fst <$> take 20 (sorted_by_timestamp c)) c
    else c.
Proof.
  intros Hwf.
  unfold _cache_response, mbind, M_bind, get_cache, time_time, put_cache.
  cbn [fst snd]. cbv zeta.
  destruct (_ >? 100) eqn:E; cbn [snd w_cache]; [| reflexivity].
  apply fold_dict_del_filter, dict_set_wf, Hwf.
Qed.

(** What a batch removal leaves: all but the first [n] items in
    timestamp order. *)
Lemma eviction_leaves_newest n (c : cache) :
  dict_wf c ->
  filter (fun x => x.1 ∉ fst <$> take n (sorted_by_timestamp c)) c
  ≡ₚ drop n (sorted_by_timestamp c).
Proof.
  intros Hc. set (s := sorted_by_timestamp c).
  assert (Hs : s ≡ₚ c) by apply sorted_by_timestamp_perm.
  assert (Hnd : NoDup (fst <$> s)) by (rewrite Hs; exact Hc).
  rewrite <- (take_drop n s), fmap_app in Hnd.
  apply NoDup_app in Hnd as (_ & Hdisj & _).
  transitivity (filter (fun x : str * entry => x.1 ∉ fst <$> take n s)
                       (take n s ++ drop n s)).
  { rewrite take_drop, Hs. reflexivity. }
  rewrite filter_app.
  rewrite filter_keep_none, filter_keep_all; [reflexivity | |].
  - apply Forall_forall. intros x Hx Hin. apply (Hdisj x.1 Hin).
    apply list_elem_of_fmap. eauto.
  - apply Forall_forall. intros x Hx Hnot. apply Hnot.
    apply list_elem_of_fmap. eauto.
Qed.

(** The size after a batch removal. *)
Lemma overflow_leaves_81 key response w :
  dict_wf (w_cache w) ->
  len (w_cache w) <= 100 ->
  len (dict_set key (response, clock env (w_reads w)) (w_cache w)) > 100 ->
  len (w_cache (snd (_cache_response env key response w))) = 81.
Proof.
  intros Hwf Hlen Hover.
  rewrite _cache_response_cache by exact Hwf. cbv zeta.
  set (c := dict_set key (response, clock env (w_reads w)) (w_cache w)) in *.
  pose proof (dict_set_length key (response, clock env (w_reads w))
                (w_cache w)) as Hn.
  fold c in Hn.
  destruct (Z.gtb_spec (len c) 100) as [_ | ?]; [| lia].
  unfold len in *.
  rewrite (eviction_leaves_newest 20 c) by apply dict_set_wf, Hwf.
  rewrite length_drop, sorted_by_timestamp_perm. lia.
Qed.

(** C6: when storing a response makes the cache hold more than 100
    entries, twenty entries are removed in one batch, none of them newer
    than any entry that stays, and 81 entries, within the capacity, are
    left. *)
Theorem overflow_evicts_oldest_batch key response w :
  dict_wf (w_cache w) ->
  len (w_cache w) <= 100 ->
  len (dict_set key (response, clock env (w_reads w)) (w_cache w)) > 100 ->
  exists evicted,
    length evicted = 20%nat
    /\ dict_set key (response, clock env (w_reads w)) (w_cache w)
       ≡ₚ evicted ++ w_cache (snd (_cache_response env key response w))
    /\ (forall x y,
          x ∈ evicted ->
          y ∈ w_cache (snd (_cache_response env key response w)) ->
          timestamp x <= timestamp y)
    /\ len (w_cache (snd (_cache_response env key response w))) = 81
    /\ len (w_cache (snd (_cache_response env key response w))) <= 100.
Proof.
  intros Hwf Hlen Hover.
  rewrite _cache_response_cache by exact Hwf. cbv zeta.
  set (c := dict_set key (response, clock env (w_reads w)) (w_cache w)) in *.
  assert (Hc : dict_wf c) by apply dict_set_wf, Hwf.
  assert (Hn : length c = 101%nat).
  { pose proof (dict_set_length key (response, clock env (w_reads w))
                  (w_cache w)).
    fold c in H. unfold len in *. lia. }
  destruct (Z.gtb_spec (len c) 100) as [_ | ?]; [| lia].
  pose proof (eviction_leaves_newest 20 c Hc) as Hleft.
  pose proof (sorted_by_timestamp_perm c) as Hs.
  assert (Hsn : length (sorted_by_timestamp c) = 101%nat) by (rewrite Hs; exact Hn).
  assert (Hl : length (filter (fun x => x.1 ∉ fst <$> take 20 (sorted_by_timestamp c)) c)
               = 81%nat).
  { rewrite Hleft, length_drop. lia. }
  exists (take 20 (sorted_by_timestamp c)).
  split; [rewrite length_take; lia |].
  split; [rewrite Hleft, take_drop; symmetry; exact Hs |].
  split.
  - intros x y Hx Hy. rewrite Hleft in Hy.
    eapply (StronglySorted_app_1_elem_of older); [| exact Hx | exact Hy].
    rewrite take_drop. apply sorted_by_timestamp_sorted.
  - unfold len. rewrite Hl. lia.
Qed.

(** Below the capacity nothing is removed. *)
Lemma no_overflow_keeps_all key response w :
  dict_wf (w_cache w) ->
  len (dict_set key (response, clock env (w_reads w)) (w_cache w)) <= 100 ->
  w_cache (snd (_cache_response env key response w))
  = dict_set key (response, clock env (w_reads w)) (w_cache w).
Proof.
  intros Hwf Hlen. rewrite _cache_response_cache by exact Hwf. cbv zeta.
  destruct (Z.gtb_spec (len (dict_set key (response, clock env (w_reads w))
                               (w_cache w))) 100); [lia | reflexivity].
Qed.

(** A response just stored is in the cache, provided no stored
    timestamp lies after the clock reading of the insertion. *)
Lemma stored_response_present key response w :
  dict_wf (w_cache w) ->
  len (w_cache w) <= 100 ->
  Forall (fun item => timestamp item <= clock env (w_reads w)) (w_cache w) ->
  dict_get key (w_cache (snd (_cache_response env key response w)))
  = Some (response, clock env (w_reads w)).
Proof.
  intros Hwf Hlen Hold.
  rewrite _cache_response_cache by exact Hwf. cbv zeta.
  set (v := (response, clock env (w_reads w))).
  destruct (Z.gtb_spec (len (dict_set key v (w_cache w))) 100) as [Hover | _];
    [| apply dict_get_set].
  transitivity (dict_get key (dict_set key v (w_cache w)));
    [| apply dict_get_set].
  assert (Hkept : key ∉ fst <$> take 20 (sorted_by_timestamp
                                          (dict_set key v (w_cache w)))).
  { assert (Hfresh : key ∉ fst <$> w_cache w).
    { intros Hin. unfold len in *.
      rewrite <- (length_fmap fst), dict_set_present, length_fmap in Hover
        by exact Hin. lia. }
    rewrite (dict_set_fresh _ _ _ Hfresh).
    rewrite sorted_by_timestamp_snoc by exact Hold.
    assert (Hs : length (sorted_by_timestamp (w_cache w)) = length (w_cache w))
      by (rewrite sorted_by_timestamp_perm; reflexivity).
    assert (Hfull : length (w_cache w) = 100%nat).
    { rewrite dict_set_fresh in Hover by exact Hfresh. unfold len in *.
      rewrite length_app in Hover. cbn [length] in Hover. lia. }
    rewrite take_app_le by lia.
    intros Hin. apply Hfresh.
    apply list_elem_of_fmap in Hin as (x & -> & Hx).
    apply list_elem_of_fmap. exists x. split; [reflexivity |].
    apply elem_of_take in Hx as (i & Hi & _).
    rewrite <- (sorted_by_timestamp_perm (w_cache w)).
    eapply list_elem_of_lookup_2, Hi. }
  exact (dict_get_filter
           (fun k => k ∉ fst <$> take 20 (sorted_by_timestamp
                                           (dict_set key v (w_cache w))))
           key (dict_set key v (w_cache w)) Hkept).
Qed.

(** A lookup of a stored entry: served before its time to live has
    passed, dropped from then on. *)
Lemma _get_cached_response_stored key response T w :
  dict_get key (w_cache w) = Some (response, T) ->
  (clock env (w_reads w) - T < AI_CACHE_TTL cfg ->
   _get_cached_response cfg env key w
   = (Some response, snd (time_time env w)))
  /\ (AI_CACHE_TTL cfg <= clock env (w_reads w) - T ->
      fst (_get_cached_response cfg env key w) = None
      /\ w_cache (snd (_get_cached_response cfg env key w))
         = dict_del key (w_cache w)).
Proof.
  intros Hget.
  unfold _get_cached_response, mbind, M_bind, get_cache. cbn [fst snd].
  rewrite Hget.
  change (time_time env w)
    with (clock env (w_reads w), snd (time_time env w)).
  cbv iota beta.
  destruct (Z.ltb_spec (clock env (w_reads w) - T) (AI_CACHE_TTL cfg));
    split; intros; try lia; try reflexivity.
  split; reflexivity.
Qed.

Lemma _get_cached_response_absent key w :
  dict_get key (w_cache w) = None ->
  _get_cached_response cfg env key w = (None, w).
Proof.
  intros Hget.
  unfold _get_cached_response, mbind, M_bind, get_cache. cbn [fst snd].
  rewrite Hget. reflexivity.
Qed.

(** C5 (as amended): a response stored at clock reading [T], no stored
    timestamp lying after [T], is in the cache under its key; as long as
    it is still stored there (neither removed by a batch eviction nor
    replaced by a later insertion), a lookup whose clock reading is less
    than [T + AI_CACHE_TTL] returns it unchanged; a lookup at
    [T + AI_CACHE_TTL] or later returns nothing, whether the entry is
    still stored or gone. *)
Theorem cached_response_lookup key response w :
  dict_wf (w_cache w) ->
  len (w_cache w) <= 100 ->
  Forall (fun item => timestamp item <= clock env (w_reads w)) (w_cache w) ->
  dict_get key (w_cache (snd (_cache_response env key response w)))
  = Some (response, clock env (w_reads w))
  /\ forall w',
       (dict_get key (w_cache w') = Some (response, clock env (w_reads w))
        -> clock env (w_reads w') - clock env (w_reads w) < AI_CACHE_TTL cfg
        -> fst (_get_cached_response cfg env key w') = Some response)
       /\ (dict_get key (w_cache w') = Some (response, clock env (w_reads w))
           \/ dict_get key (w_cache w') = None
           -> AI_CACHE_TTL cfg <= clock env (w_reads w') - clock env (w_reads w)
           -> fst (_get_cached_response cfg env key w') = None).
Proof.
  intros Hwf Hlen Hold.
  split; [apply stored_response_present; assumption |].
  intros w'. split.
  - intros Hget Hlive.
    destruct (_get_cached_response_stored key response _ w' Hget) as [Hhit _].
    rewrite (Hhit Hlive). reflexivity.
  - intros [Hget | Hget] Hdead.
    + destruct (_get_cached_response_stored key response _ w' Hget)
        as [_ Hexp].
      apply Hexp, Hdead.
    + rewrite (_get_cached_response_absent key w' Hget). reflexivity.
Qed.

(** Every cache the two operations build from the empty one is a
    dictionary of at most 100 entries: the premises of the two theorems
    above hold of the caches that occur. *)
Lemma cache_operation_bounded op w :
  dict_wf (w_cache w) /\ len (w_cache w) <= 100 ->
  dict_wf (w_cache (run_cache_operation cfg env op w))
  /\ len (w_cache (run_cache_operation cfg env op w)) <= 100.
Proof.
  intros [Hwf Hlen]. destruct op as [key | key response];
    cbn [run_cache_operation].
  - unfold _get_cached_response, mbind, M_bind, get_cache. cbn [fst snd].
    destruct (dict_get key (w_cache w)) as [[response T] |]; [| auto].
    change (time_time env w)
      with (clock env (w_reads w), snd (time_time env w)).
    cbv iota beta. destruct (_ <? _); [auto |].
    unfold mret, M_ret. cbn [snd w_cache put_cache time_time].
    rewrite (dict_del_filter _ _ Hwf). split.
    + exact (filter_wf (fun k => k <> key) (w_cache w) Hwf).
    + pose proof (length_filter (fun x : str * entry => x.1 <> key) (w_cache w)).
      unfold len in *. lia.
  - destruct (Z.le_gt_cases
                (len (dict_set key (response, clock env (w_reads w)) (w_cache w)))
                100) as [Hfit | Hover].
    + rewrite no_overflow_keeps_all by assumption.
      split; [apply dict_set_wf, Hwf | exact Hfit].
    + split; [| rewrite overflow_leaves_81 by (assumption || lia); lia].
      rewrite _cache_response_cache by exact Hwf. cbv zeta.
      destruct (_ >? 100); [| apply dict_set_wf, Hwf].
      exact (filter_wf
               (fun k => k ∉ fst <$> take 20
                          (sorted_by_timestamp
                             (dict_set key (response, clock env (w_reads w))
                                       (w_cache w))))
               _ (dict_set_wf _ _ _ Hwf)).
Qed.

Lemma cache_operations_bounded ops : forall w,
  dict_wf (w_cache w) /\ len (w_cache w) <= 100 ->
  dict_wf (w_cache (run_cache_operations cfg env ops w))
  /\ len (w_cache (run_cache_operations cfg env ops w)) <= 100.
Proof.
  induction ops as [| op ops IH]; intros w Hw; [exact Hw |].
  apply IH, cache_operation_bounded, Hw.
Qed.

End with_environment.

End Cache_facts.

(** ** The response cache on concrete runs *)

Section Cache_examples.
Import ConversationManager AIService.

(** C5 (fails on the code): a response is stored at time 0; a hundred
    other responses follow, the last of which overflows the cache and
    has the twenty oldest entries removed, the first one among them; the
    lookup at time 101, long before the 900 units of the time to live
    have passed, finds nothing. *)
Lemma cached_response_evicted_counterexample :
  let w1 := run_cache_operations default_config ticking (stores 0 1)
              new_world in
  let w2 := run_cache_operations default_config ticking (stores 1 100) w1 in
  dict_get (sample_key 0) (w_cache w1) = Some (lit "answer", 0)
  /\ clock ticking (w_reads w2) = 101
  /\ 101 - 0 < AI_CACHE_TTL default_config
  /\ len (w_cache w2) = 81
  /\ fst (_get_cached_response default_config ticking (sample_key 0) w2)
     = None.
Proof. vm_compute. repeat split; reflexivity. Qed.

Lemma cached_response_lookup_witness :
  dict_get (sample_key 0)
    (w_cache (snd (_cache_response ticking (sample_key 0) (lit "answer")
                     new_world)))
  = Some (lit "answer", clock ticking (w_reads new_world))
  /\ forall w',
       (dict_get (sample_key 0) (w_cache w')
        = Some (lit "answer", clock ticking (w_reads new_world))
        -> clock ticking (w_reads w') - clock ticking (w_reads new_world)
           < AI_CACHE_TTL default_config
        -> fst (_get_cached_response default_config ticking (sample_key 0) w')
           = Some (lit "answer"))
       /\ (dict_get (sample_key 0) (w_cache w')
           = Some (lit "answer", clock ticking (w_reads new_world))
           \/ dict_get (sample_key 0) (w_cache w') = None
           -> AI_CACHE_TTL default_config
              <= clock ticking (w_reads w') - clock ticking (w_reads new_world)
           -> fst (_get_cached_response default_config ticking (sample_key 0)
                     w') = None).
Proof.
  apply (cached_response_lookup default_config ticking (sample_key 0)
           (lit "answer") new_world).
  - apply NoDup_nil_2.
  - vm_compute. discriminate.
  - apply Forall_nil_2.
Defined.

(** A clock set back makes a new entry the oldest one: stored into a
    full cache whose timestamps all lie after it, it is removed at
    once. *)
Example clock_set_back_evicts_new_entry :
  let set_back := {| clock := fun _ => -1; provider := fun _ _ => Raised;
                     knowledge_base := [] |} in
  dict_get (sample_key 100)
    (w_cache (snd (_cache_response set_back (sample_key 100) (lit "answer")
                     full_world)))
  = None.
Proof. vm_compute. reflexivity. Qed.

Example lookup_within_and_after_ttl :
  let w1 := snd (_cache_response ticking (sample_key 0) (lit "answer")
                   new_world) in
  let late := {| w_cache := w_cache w1; w_reads := 900; w_calls := 0;
                 w_sleeps := [] |} in
  let early := {| w_cache := w_cache w1; w_reads := 899; w_calls := 0;
                  w_sleeps := [] |} in
  fst (_get_cached_response default_config ticking (sample_key 0) early)
  = Some (lit "answer")
  /\ fst (_get_cached_response default_config ticking (sample_key 0) late)
     = None
  /\ w_cache (snd (_get_cached_response default_config ticking (sample_key 0)
                     late)) = [].
Proof. vm_compute. repeat split; reflexivity. Qed.

Lemma overflow_evicts_oldest_batch_witness :
  exists evicted,
    length evicted = 20%nat
    /\ dict_set (sample_key 100)
         (lit "answer", clock ticking (w_reads full_world))
         (w_cache full_world)
       ≡ₚ evicted
          ++ w_cache (snd (_cache_response ticking (sample_key 100)
                             (lit "answer") full_world))
    /\ (forall x y,
          x ∈ evicted ->
          y ∈ w_cache (snd (_cache_response ticking (sample_key 100)
                              (lit "answer") full_world)) ->
          timestamp x <= timestamp y)
    /\ len (w_cache (snd (_cache_response ticking (sample_key 100)
                            (lit "answer") full_world))) = 81
    /\ len (w_cache (snd (_cache_response ticking (sample_key 100)
                            (lit "answer") full_world))) <= 100.
Proof.
  apply (overflow_evicts_oldest_batch ticking (sample_key 100) (lit "answer")
           full_world).
  - apply (bool_decide_unpack _). vm_compute. exact I.
  - vm_compute. discriminate.
  - vm_compute. reflexivity.
Defined.

Example overflow_removes_first_twenty :
  fst <$> w_cache (snd (_cache_response ticking (sample_key 100)
                          (lit "answer") full_world))
  = map sample_key (seq 20 81).
Proof. vm_compute. reflexivity. Qed.

End Cache_examples.

(** * Further properties of the modelled code *)

(** ** Stripping and the validators *)

Section Validator_facts.
Import Formatters ConversationManager Validators BookingManager.
Context `{UnicodeData}.

Lemma lstrip_all_space s : forallb isspace s = true -> lstrip s = [].
Proof.
  induction s as [| c s IH]; [reflexivity |].
  cbn [forallb lstrip]. intros [-> Hs]%andb_true_iff. auto.
Qed.

Lemma forallb_rev {A} (p : A -> bool) l : forallb p (rev l) = forallb p l.
Proof.
  induction l as [| x l IH]; [reflexivity |].
  cbn [rev forallb]. rewrite forallb_app, IH. cbn [forallb].
  rewrite andb_true_r. apply andb_comm.
Qed.

(** [rstrip], read from the left. *)
Lemma rstrip_cons c s :
  rstrip (c :: s)
  = if forallb isspace s then (if isspace c then [] else [c])
    else c :: rstrip s.
Proof.
  unfold rstrip. cbn [rev]. rewrite lstrip_app, forallb_rev.
  destruct (forallb isspace s).
  - cbn [lstrip]. destruct (isspace c); reflexivity.
  - rewrite rev_app_distr. reflexivity.
Qed.

Lemma rstrip_all_space s : forallb isspace s = true -> rstrip s = [].
Proof.
  intros Hs. unfold rstrip. rewrite lstrip_all_space; [reflexivity |].
  rewrite forallb_rev. exact Hs.
Qed.

Lemma rstrip_app_space s after :
  forallb isspace after = true -> rstrip (s ++ after) = rstrip s.
Proof.
  intros Ha. unfold rstrip. rewrite rev_app_distr, lstrip_app, forallb_rev, Ha.
  reflexivity.
Qed.

Lemma strip_padding before text after :
  forallb isspace before = true -> forallb isspace after = true ->
  strip (before ++ text ++ after) = strip text.
Proof.
  intros Hb Ha. unfold strip. rewrite lstrip_app, Hb, lstrip_app.
  destruct (forallb isspace text) eqn:Ht.
  - rewrite (lstrip_all_space _ Ha), (lstrip_all_space _ Ht). reflexivity.
  - apply rstrip_app_space, Ha.
Qed.

Lemma lstrip_left_clean s : left_clean (lstrip s) = true.
Proof.
  induction s as [| c s IH]; [reflexivity |].
  cbn [lstrip]. destruct (isspace c) eqn:E; [exact IH |].
  cbn [left_clean]. rewrite E. reflexivity.
Qed.

Lemma lstrip_clean s : left_clean s = true -> lstrip s = s.
Proof.
  destruct s as [| c s]; [reflexivity |]. cbn [left_clean lstrip].
  intros ->%negb_true_iff. reflexivity.
Qed.

Lemma rstrip_left_clean s : left_clean s = true -> left_clean (rstrip s) = true.
Proof.
  destruct s as [| c s]; [reflexivity |]. cbn [left_clean].
  intros Hc%negb_true_iff. rewrite rstrip_cons, Hc.
  destruct (forallb isspace s); cbn [left_clean]; rewrite Hc; reflexivity.
Qed.

Lemma rstrip_idempotent s : rstrip (rstrip s) = rstrip s.
Proof.
  induction s as [| c s IH]; [reflexivity |].
  rewrite rstrip_cons. destruct (forallb isspace s) eqn:Hs.
  - destruct (isspace c) eqn:Hc; [reflexivity |].
    rewrite rstrip_cons. cbn [forallb]. rewrite Hc. reflexivity.
  - rewrite rstrip_cons, IH.
    assert (Hr : forallb isspace (rstrip s) = false).
    { clear IH. induction s as [| d s IHs]; [discriminate |].
      rewrite rstrip_cons. cbn [forallb] in Hs.
      destruct (forallb isspace s) eqn:Hs'.
      - rewrite andb_true_r in Hs. rewrite Hs. cbn [forallb].
        rewrite Hs. reflexivity.
      - cbn [forallb]. rewrite (IHs eq_refl). apply andb_false_r. }
    rewrite Hr. reflexivity.
Qed.

Lemma strip_idempotent s : strip (strip s) = strip s.
Proof.
  unfold strip.
  rewrite (lstrip_clean (rstrip (lstrip s)))
    by apply rstrip_left_clean, lstrip_left_clean.
  apply rstrip_idempotent.
Qed.

Ltac literal_nonempty :=
  let E := fresh in intros E; vm_compute in E; discriminate E.

(** X1: each validator returns an empty message exactly when it accepts
    the text. *)
Theorem validators_message_empty_iff_valid step text :
  fst (validator step text) = true <-> snd (validator step text) = [].
Proof.
  destruct step; cbn [validator].
  - unfold validate_name.
    repeat match goal with
           | |- context [if ?b then _ else _] => destruct b
           end; cbn [fst snd]; split;
      solve [reflexivity | discriminate | literal_nonempty].
  - unfold validate_email.
    repeat match goal with
           | |- context [if ?b then _ else _] => destruct b
           end; cbn [fst snd]; split;
      solve [reflexivity | discriminate | literal_nonempty].
  - unfold validate_phone.
    repeat match goal with
           | |- context [if ?b then _ else _] => destruct b
           end; cbn [fst snd]; split;
      solve [reflexivity | discriminate | literal_nonempty].
Qed.

Lemma validator_strip step text :
  validator step (strip text) = validator step text.
Proof.
  destruct step; cbn [validator];
    unfold validate_name, validate_email, validate_phone;
    rewrite strip_idempotent; reflexivity.
Qed.

(** X2: whitespace before and after a text does not change the verdict
    of a validator, nor its message. *)
Theorem validators_ignore_outer_whitespace step before text after :
  forallb isspace before = true ->
  forallb isspace after = true ->
  validator step (before ++ text ++ after) = validator step text.
Proof.
  intros Hb Ha.
  rewrite <- (validator_strip step (before ++ text ++ after)).
  rewrite strip_padding by assumption. apply validator_strip.
Qed.

Lemma span_spec p s a b :
  span p s = (a, b) ->
  s = a ++ b /\ forallb p a = true
  /\ match b with [] => True | c :: _ => p c = false end.
Proof.
  revert a b. induction s as [| c s IH]; intros a b; cbn [span].
  - intros [= <- <-]. auto.
  - destruct (p c) eqn:Hc.
    + destruct (span p s) as [a' b'] eqn:Hs. intros [= <- <-].
      destruct (IH a' b' eq_refl) as (-> & Ha & Hb).
      cbn [forallb app]. rewrite Hc, Ha. auto.
    + intros [= <- <-]. cbn [app forallb]. auto.
Qed.

Lemma span_app p a b :
  forallb p a = true ->
  match b with [] => True | c :: _ => p c = false end ->
  span p (a ++ b) = (a, b).
Proof.
  intros Ha Hb. induction a as [| c a IH]; cbn [app].
  - destruct b as [| c b]; cbn [span]; [reflexivity |]. rewrite Hb. reflexivity.
  - cbn [forallb span] in *. apply andb_true_iff in Ha as [-> Ha].
    rewrite (IH Ha). reflexivity.
Qed.

Lemma truthy_nonempty (s : str) : truthy s = true <-> s <> [].
Proof. destruct s; cbn; split; congruence. Qed.

Lemma letter_not_dot c : is_ascii_letter c = true -> negb (c =? 46) = true.
Proof.
  unfold is_ascii_letter.
  rewrite orb_true_iff, !andb_true_iff, !Z.leb_le, negb_true_iff, Z.eqb_neq.
  lia.
Qed.

(** Cases on a code point that a [match] compares with a constant. *)
Ltac code_point_cases x :=
  destruct x as [| x | x]; try (cbv iota beta; discriminate);
  do 8 (try (destruct x as [x | x |]; try (cbv iota beta; discriminate))).

(** The strings [email_pattern] matches are those of the regular
    expression: a local part, an at sign, a domain, a dot and at least
    two letters. *)
Lemma email_pattern_iff email :
  email_pattern email = true <->
  exists local_part domain tld,
    email = local_part ++ [64] ++ domain ++ [46] ++ tld
    /\ local_part <> [] /\ forallb email_local_char local_part = true
    /\ domain <> [] /\ forallb email_domain_char domain = true
    /\ 2 <= len tld /\ forallb is_ascii_letter tld = true.
Proof.
  unfold email_pattern. split.
  - destruct (span email_local_char email) as [local_part rest] eqn:Hspan.
    apply span_spec in Hspan as (-> & Hlocal & _).
    destruct local_part as [| c local_part]; [discriminate |].
    destruct rest as [| at_sign host]; [discriminate |].
    code_point_cases at_sign.
    destruct (span (fun c => negb (c =? 46)) (rev host)) as [rev_tld rev_domain]
      eqn:Hhost.
    apply span_spec in Hhost as (Hrev & Htld & _).
    destruct rev_domain as [| dot domain]; [discriminate |].
    code_point_cases dot.
    rewrite !andb_true_iff, Z.leb_le.
    intros [[[Hd%truthy_nonempty Hdom] Hlet] Hlen].
    exists (c :: local_part), (rev domain), (rev rev_tld).
    assert (Hh : host = rev domain ++ [46] ++ rev rev_tld).
    { rewrite <- (rev_involutive host), Hrev, rev_app_distr. cbn [rev].
      rewrite <- app_assoc. reflexivity. }
    rewrite Hh, !forallb_rev. unfold len in *. rewrite length_rev.
    repeat split; try assumption; try discriminate.
    intros E. apply Hd. rewrite <- (rev_involutive domain), E. reflexivity.
  - intros (local_part & domain & tld & -> & Hl & Hlocal & Hd & Hdom
            & Hlen & Hlet).
    rewrite (span_app email_local_char local_part)
      by (assumption || reflexivity).
    destruct local_part as [| c local_part]; [congruence |].
    cbn [app]. rewrite rev_app_distr. cbn [rev]. rewrite <- app_assoc.
    cbn [app].
    rewrite (span_app _ (rev tld) (46 :: rev domain)).
    + rewrite !forallb_rev, Hdom, Hlet. unfold len in *.
      rewrite length_rev.
      assert (Hr : truthy (rev domain) = true).
      { apply truthy_nonempty. intros E. apply Hd.
        rewrite <- (rev_involutive domain), E. reflexivity. }
      rewrite Hr. cbn [andb]. apply Z.leb_le, Hlen.
    + rewrite forallb_rev. clear -Hlet.
      induction tld as [| c tld IH]; [reflexivity |].
      cbn [forallb] in *. apply andb_true_iff in Hlet as [Hc Hlet].
      rewrite (letter_not_dot _ Hc), (IH Hlet). reflexivity.
    + reflexivity.
Qed.

(** X3: [validate_email] accepts exactly the texts that, stripped, have
    at most 254 characters and the form [local@domain.tld]: a non-empty
    local part of letters, digits and [._%+-], a non-empty domain of
    letters, digits, dots and hyphens, and after its last dot at least
    two letters. *)
Theorem validate_email_accepts_iff email :
  fst (validate_email email) = true <->
  len (strip email) <= 254
  /\ exists local_part domain tld,
       strip email = local_part ++ [64] ++ domain ++ [46] ++ tld
       /\ local_part <> [] /\ forallb email_local_char local_part = true
       /\ domain <> [] /\ forallb email_domain_char domain = true
       /\ 2 <= len tld /\ forallb is_ascii_letter tld = true.
Proof.
  rewrite <- email_pattern_iff. unfold validate_email.
  destruct (truthy (strip email)) eqn:Ht; cbn [negb].
  - destruct (Z.gtb_spec (len (strip email)) 254) as [Hlong | Hfit];
      cbn [fst].
    + split; [discriminate | lia].
    + destruct (email_pattern (strip email)); cbn [negb fst].
      * split; [intros _; split; [exact Hfit | reflexivity] | reflexivity].
      * split; [discriminate | intros [_ E]; discriminate E].
  - cbn [fst]. split; [discriminate |]. intros [_ Hp]. exfalso.
    destruct (strip email); [| discriminate]. discriminate Hp.
Qed.

Lemma phone_pattern_digits cleaned :
  phone_pattern cleaned = true ->
  forallb (fun c => is_decimal c || (c =? 43)) cleaned = true
  /\ len cleaned - 1 <= len (List.filter is_decimal cleaned).
Proof.
  assert (Hall : forall digits : str,
            forallb is_decimal digits = true ->
            forallb (fun c => is_decimal c || (c =? 43)) digits = true
            /\ List.filter is_decimal digits = digits).
  { induction digits as [| c digits IH]; [auto |]. cbn [forallb List.filter].
    intros [Hc Hd]%andb_true_iff. destruct (IH Hd) as [H1 H2].
    rewrite Hc, H1, H2. auto. }
  unfold phone_pattern. intros [_ Hd]%andb_true_iff. revert Hd.
  destruct cleaned as [| c cleaned];
    [intros _; split; [reflexivity |]; unfold len; cbn [length List.filter]; lia |].
  assert (Hplus : c = 43 -> forallb is_decimal cleaned = true ->
            forallb (fun c => is_decimal c || (c =? 43)) (c :: cleaned) = true
            /\ len (c :: cleaned) - 1
               <= len (List.filter is_decimal (c :: cleaned))).
  { intros -> Hd. destruct (Hall _ Hd) as [H1 H2].
    cbn [forallb List.filter]. rewrite H1, orb_true_r.
    split; [reflexivity |].
    destruct (is_decimal 43); cbv iota; unfold len, char in *; cbn [length];
      rewrite H2; lia. }
  assert (Hplain : forallb is_decimal (c :: cleaned) = true ->
            forallb (fun c => is_decimal c || (c =? 43)) (c :: cleaned) = true
            /\ len (c :: cleaned) - 1
               <= len (List.filter is_decimal (c :: cleaned))).
  { intros Hd. destruct (Hall _ Hd) as [H1 H2]. rewrite H1, H2.
    split; [reflexivity | unfold len, char in *; lia]. }
  destruct (Z.eq_dec c 43) as [-> | Hne]; [exact (Hplus eq_refl) |].
  code_point_cases c; try exact Hplain. congruence.
Qed.

(** X4: a text that [validate_phone] accepts is blank or has, once
    whitespace, hyphens and parentheses are removed, between 10 and 15
    characters, each a decimal digit or a plus sign, at least nine of
    them digits: the length bounds count a leading plus. *)
Theorem accepted_phone_shape phone :
  fst (validate_phone phone) = true ->
  strip phone <> [] ->
  10 <= len (remove_separators (strip phone)) <= 15
  /\ 9 <= len (List.filter is_decimal (remove_separators (strip phone)))
  /\ forallb (fun c => is_decimal c || (c =? 43))
             (remove_separators (strip phone)) = true.
Proof.
  unfold validate_phone. intros Hok Hne.
  apply truthy_nonempty in Hne. rewrite Hne in Hok. cbn [negb] in Hok.
  destruct (phone_pattern (remove_separators (strip phone))) eqn:Hp;
    [| discriminate Hok].
  cbn [negb] in Hok.
  destruct (Z.ltb_spec (len (remove_separators (strip phone))) 10);
    [discriminate Hok |].
  destruct (Z.gtb_spec (len (remove_separators (strip phone))) 15);
    [discriminate Hok |].
  destruct (phone_pattern_digits _ Hp) as [Hall Hcount].
  repeat split; try assumption; lia.
Qed.










Lemma forallb_weaken {A} (p q : A -> bool) l :
  (forall x, p x = true -> q x = true) ->
  forallb p l = true -> forallb q l = true.
Proof.
  intros Hpq. induction l as [| x l IH]; [reflexivity |].
  cbn [forallb]. intros [Hx Hl]%andb_true_iff.
  rewrite (Hpq x Hx), (IH Hl). reflexivity.
Qed.

Lemma forallb_from_lstrip (p : char -> bool) s :
  (forall c, isspace c = true -> p c = true) ->
  forallb p (lstrip s) = true -> forallb p s = true.
Proof.
  intros Hspace. induction s as [| c s IH]; [reflexivity |].
  cbn [lstrip]. destruct (isspace c) eqn:Hc; [| trivial].
  intros Hs. cbn [forallb]. rewrite (Hspace c Hc), (IH Hs). reflexivity.
Qed.

Lemma forallb_from_strip (p : char -> bool) s :
  (forall c, isspace c = true -> p c = true) ->
  forallb p (strip s) = true -> forallb p s = true.
Proof.
  intros Hspace Hs. unfold strip, rstrip in Hs. rewrite forallb_rev in Hs.
  apply (forallb_from_lstrip p _ Hspace) in Hs. rewrite forallb_rev in Hs.
  apply (forallb_from_lstrip p _ Hspace), Hs.
Qed.

Lemma forallb_from_filter {A} (keep p : A -> bool) l :
  (forall x, keep x = false -> p x = true) ->
  forallb p (List.filter keep l) = true -> forallb p l = true.
Proof.
  intros Hdrop. induction l as [| x l IH]; [reflexivity |].
  cbn [List.filter forallb]. destruct (keep x) eqn:Hx.
  - cbn [forallb]. intros [-> Hl]%andb_true_iff. exact (IH Hl).
  - intros Hl. rewrite (Hdrop x Hx), (IH Hl). reflexivity.
Qed.

(** A class of characters that holds none of the three special ones. *)
Lemma class_not_special (p : char -> bool) c :
  p 60 = false -> p 62 = false -> p 38 = false ->
  p c = true -> negb (html_special c) = true.
Proof.
  intros H60 H62 H38 Hc. unfold html_special.
  destruct (Z.eqb_spec c 60) as [-> | _]; [congruence |].
  destruct (Z.eqb_spec c 62) as [-> | _]; [congruence |].
  destruct (Z.eqb_spec c 38) as [-> | _]; [congruence |].
  reflexivity.
Qed.

Lemma digit_or_plus_not_special c :
  is_decimal c || (c =? 43) = true -> negb (html_special c) = true.
Proof.
  apply (class_not_special (fun c => is_decimal c || (c =? 43)));
    cbv beta; rewrite is_decimal_ascii by lia; reflexivity.
Qed.

(** X6: a text that a validator accepts holds none of the characters
    [<], [>] and [&], which the HTML parse mode of the confirmation
    message would read as markup. *)
Theorem accepted_text_html_safe step text :
  fst (validator step text) = true ->
  forallb (fun c => negb (html_special c)) text = true.
Proof.
  intros Hok.
  apply forallb_from_strip;
    [intros c; apply (class_not_special isspace); reflexivity |].
  destruct step; cbn [validator] in Hok.
  - unfold validate_name in Hok.
    destruct (negb (truthy (strip text))); [discriminate Hok |].
    destruct (len (strip text) <? 2); [discriminate Hok |].
    destruct (len (strip text) >? 100); [discriminate Hok |].
    destruct (forallb name_char (strip text)) eqn:Hname;
      [| discriminate Hok].
    revert Hname. apply forallb_weaken. intros c.
    apply (class_not_special name_char); reflexivity.
  - unfold validate_email in Hok.
    destruct (negb (truthy (strip text))); [discriminate Hok |].
    destruct (len (strip text) >? 254); [discriminate Hok |].
    destruct (email_pattern (strip text)) eqn:Hpattern; [| discriminate Hok].
    apply email_pattern_iff in Hpattern
      as (local_part & domain & tld & -> & _ & Hlocal & _ & Hdomain & _ & Htld).
    repeat (rewrite forallb_app; apply andb_true_intro; split);
      try reflexivity.
    + revert Hlocal. apply forallb_weaken. intros c.
      apply (class_not_special email_local_char); reflexivity.
    + revert Hdomain. apply forallb_weaken. intros c.
      apply (class_not_special email_domain_char); reflexivity.
    + revert Htld. apply forallb_weaken. intros c.
      apply (class_not_special is_ascii_letter); reflexivity.
  - unfold validate_phone in Hok.
    destruct (truthy (strip text)) eqn:Hne; cbn [negb] in Hok;
      [| destruct (strip text); [reflexivity | discriminate Hne]].
    destruct (phone_pattern (remove_separators (strip text))) eqn:Hpattern;
      [| discriminate Hok].
    apply phone_pattern_digits in Hpattern as [Hdigits _].
    apply (forallb_from_filter (fun c => negb (phone_separator c))).
    + intros c Hc. apply negb_false_iff in Hc. revert Hc.
      apply (class_not_special phone_separator); reflexivity.
    + revert Hdigits. apply forallb_weaken.
      exact digit_or_plus_not_special.
Qed.

End Validator_facts.

(** ** The session store and the booking operations *)

Section Session_facts.
Import ConversationManager Validators BookingManager.
Context `{UnicodeData}.

Lemma state_of_value_inv v s :
  state_of_value v = Some s -> v = VStr (state_value s).
Proof.
  destruct v as [| t |]; try discriminate. unfold state_of_value.
  intros [_ Hs%bool_decide_eq_true_1]%find_some. congruence.
Qed.

(** X7: the state is read back as it was set, and a session that holds
    no state, or a value that is not the value of any state, is read as
    [IDLE]. *)
Theorem get_state_decodes (ud : user_data) :
  (forall s, get_state (set_state ud s) = s)
  /\ (ud !! "conversation_state"%string = None -> get_state ud = IDLE)
  /\ (forall v, (forall s, v <> VStr (state_value s)) ->
        get_state (<["conversation_state"%string := v]> ud) = IDLE).
Proof.
  split; [apply get_state_set_state |]. split.
  - intros Hnone. unfold get_state. rewrite Hnone. reflexivity.
  - intros v Hv. unfold get_state. rewrite lookup_insert_eq.
    change (default (VStr (state_value IDLE)) (Some v)) with v.
    destruct (state_of_value v) as [s |] eqn:Hs; [| reflexivity].
    apply state_of_value_inv in Hs. destruct (Hv s Hs).
Qed.

Lemma clear_booking_data_lookup (ud : user_data) key :
  clear_booking_data ud !! key
  = if bool_decide (key ∈ booking_keys) then None else ud !! key.
Proof.
  rewrite clear_booking_data_deletes. unfold booking_keys.
  case_bool_decide as Hk.
  - rewrite !elem_of_cons, elem_of_nil in Hk.
    destruct Hk as [-> | [-> | [-> | [-> | [-> | []]]]]];
      rewrite ?lookup_delete_eq, ?(lookup_delete_ne _ _ _) by done;
      rewrite ?lookup_delete_eq; reflexivity.
  - rewrite !not_elem_of_cons in Hk.
    destruct Hk as (? & ? & ? & ? & ? & _).
    rewrite !lookup_delete_ne by congruence. reflexivity.
Qed.

(** X8: [clear_booking_data] removes the five booking keys and nothing
    else, whether they were stored or not, so that clearing twice is
    clearing once. *)
Theorem clear_booking_data_exact (ud : user_data) :
  (forall key,
     clear_booking_data ud !! key
     = if bool_decide (key ∈ booking_keys) then None else ud !! key)
  /\ clear_booking_data (clear_booking_data ud) = clear_booking_data ud.
Proof.
  split; [apply clear_booking_data_lookup |].
  apply map_eq. intros key. rewrite !clear_booking_data_lookup.
  case_bool_decide; reflexivity.
Qed.

(** X9: [add_message] leaves every key but the history as it was. *)
Theorem add_message_only_history cfg (ud ud' : user_data) role content key :
  add_message cfg ud role content = Some ud' ->
  key <> "history"%string ->
  ud' !! key = ud !! key.
Proof.
  unfold add_message, get_history. intros Hadd Hkey.
  destruct (ud !! "history"%string) as [[| s | h] |]; try discriminate;
    injection Hadd as <-;
    destruct (_ >? _); rewrite !lookup_insert_ne by congruence; reflexivity.
Qed.

(** The form has an instruction for the current step exactly in the
    six states that [is_in_booking_flow] counts as the booking flow. *)
Theorem step_message_iff_in_booking_flow (ud : user_data) :
  truthy (get_current_step_message ud) = is_in_booking_flow ud.
Proof.
  unfold get_current_step_message, is_in_booking_flow.
  destruct (get_state ud); vm_compute; reflexivity.
Qed.

Lemma start_booking_lookup (ud : user_data) key :
  start_booking ud !! key
  = if bool_decide (key ∈ booking_keys) then None
    else if bool_decide (key = "conversation_state"%string)
         then Some (VStr (state_value BOOKING_COURSE))
         else ud !! key.
Proof.
  unfold start_booking. rewrite clear_booking_data_lookup.
  case_bool_decide; [reflexivity |]. unfold set_state.
  case_bool_decide as Hk.
  - subst key. apply lookup_insert_eq.
  - apply lookup_insert_ne. congruence.
Qed.

(** X10: [start_booking] puts any session at the first step with no
    booking field stored, keeps every other key, and doing it twice is
    doing it once. *)
Theorem start_booking_restarts (ud : user_data) :
  get_state (start_booking ud) = BOOKING_COURSE
  /\ (forall f, get_user_data (start_booking ud) (field_key f) = VNone)
  /\ (forall key, key ∉ booking_keys -> key <> "conversation_state"%string ->
        start_booking ud !! key = ud !! key)
  /\ start_booking (start_booking ud) = start_booking ud.
Proof.
  split; [| split; [| split]].
  - unfold start_booking.
    rewrite get_state_clear_booking_data. apply get_state_set_state.
  - intros f. unfold get_user_data. rewrite start_booking_lookup.
    rewrite bool_decide_eq_true_2; [reflexivity |].
    destruct f; unfold booking_keys; cbn [field_key];
      rewrite !elem_of_cons; tauto.
  - intros key Hk Hs. rewrite start_booking_lookup.
    rewrite bool_decide_eq_false_2 by exact Hk.
    rewrite bool_decide_eq_false_2 by exact Hs. reflexivity.
  - apply map_eq. intros key. rewrite !start_booking_lookup.
    repeat case_bool_decide; reflexivity.
Qed.

(** X11: [cancel_booking] brings any session to [IDLE] with no booking
    field stored and no summary, and keeps every other key. *)
Theorem cancel_booking_resets (ud : user_data) :
  get_state (cancel_booking ud) = IDLE
  /\ (forall f, get_user_data (cancel_booking ud) (field_key f) = VNone)
  /\ get_booking_summary (cancel_booking ud) = None
  /\ (forall key, key ∉ booking_keys -> key <> "conversation_state"%string ->
        cancel_booking ud !! key = ud !! key).
Proof.
  assert (Hf : forall f, get_user_data (cancel_booking ud) (field_key f) = VNone).
  { intros f. unfold cancel_booking, reset_state, set_state, get_user_data.
    rewrite lookup_insert_ne by (destruct f; done).
    rewrite clear_booking_data_lookup.
    rewrite bool_decide_eq_true_2; [reflexivity |].
    destruct f; unfold booking_keys; cbn [field_key];
      rewrite !elem_of_cons; tauto. }
  split; [apply get_state_set_state |]. split; [exact Hf |]. split.
  - pose proof (Hf Course) as Hcourse. cbn [field_key] in Hcourse.
    unfold get_booking_summary. cbn [forallb].
    rewrite Hcourse. reflexivity.
  - intros key Hk Hs. unfold cancel_booking, reset_state, set_state.
    rewrite lookup_insert_ne by congruence.
    rewrite clear_booking_data_lookup.
    rewrite bool_decide_eq_false_2 by exact Hk. reflexivity.
Qed.

(** X12: [confirm_booking] succeeds exactly when course, time, name and
    email hold non-empty values, whatever the phone; it then clears the
    fields and returns to [IDLE]; otherwise it leaves the session as it
    was. *)
Theorem confirm_booking_iff_complete (ud : user_data) :
  fst (confirm_booking ud)
  = forallb (fun f => value_truthy (get_user_data ud (field_key f)))
            [Course; Time_; Name; Email]
  /\ (fst (confirm_booking ud) = true ->
      get_state (snd (confirm_booking ud)) = IDLE
      /\ forall f, populated (snd (confirm_booking ud)) f = false)
  /\ (fst (confirm_booking ud) = false -> snd (confirm_booking ud) = ud).
Proof.
  unfold confirm_booking, get_booking_summary. cbn [field_key].
  destruct (forallb value_truthy _) eqn:Hc; cbn [negb fst snd].
  - split; [exact (eq_sym Hc) |]. split; [intros _ | discriminate].
    unfold reset_state. split; [apply get_state_set_state |].
    intros f. rewrite populated_set_state.
    apply populated_clear_booking_data.
  - split; [exact (eq_sym Hc) |]. split; [discriminate | reflexivity].
Qed.

Lemma table_label_truthy table id label :
  forallb (fun entry => truthy (snd entry)) table = true ->
  lookup_id table id = Some label -> truthy label = true.
Proof.
  induction table as [| [k v] table IH]; [discriminate |].
  cbn [forallb lookup_id snd]. intros [Hv Ht]%andb_true_iff.
  case_bool_decide; [intros [= <-]; exact Hv | apply IH, Ht].
Qed.

Lemma accepted_text_truthy step text :
  validated step text = true ->
  fst (validator step text) = true -> step <> PhoneStep ->
  truthy text = true.
Proof.
  intros _ Hok Hstep. destruct text as [| c text]; [| reflexivity].
  exfalso. destruct step; [| | congruence]; vm_compute in Hok; discriminate.
Qed.

(** X13: a form filled in order with a known course, a known time slot,
    an accepted name and email and a phone that is accepted or skipped
    ends in [BOOKING_CONFIRM] with a complete summary: the labels of the
    course and of the slot, the name and the email as typed, and the
    phone as typed or [None]; [confirm_booking] then succeeds. *)
Theorem filled_form_is_complete
    (ud : user_data) course_id course time_id slot name email phone :
  lookup_id COURSE_NAMES course_id = Some course ->
  lookup_id TIME_SLOTS time_id = Some slot ->
  fst (validate_name name) = true ->
  fst (validate_email email) = true ->
  is_skip phone = true \/ fst (validate_phone phone) = true ->
  let ud' :=
    run_all [StartBooking; SetCourse course_id; SetTime time_id;
             SetName name; SetEmail email; SetPhone phone] ud in
  get_state ud' = BOOKING_CONFIRM
  /\ get_booking_summary ud'
     = Some (<["phone"%string :=
                if is_skip phone then VNone else VStr phone]>
            (<["email"%string := VStr email]>
            (<["name"%string := VStr name]>
            (<["time"%string := VStr slot]>
            (<["course"%string := VStr course]> ∅)))))
  /\ fst (confirm_booking ud') = true.
Proof.
  intros Hcourse Hslot Hname Hemail Hphone.
  pose proof (table_label_truthy COURSE_NAMES _ _ eq_refl Hcourse) as Tc.
  pose proof (table_label_truthy TIME_SLOTS _ _ eq_refl Hslot) as Ts.
  pose proof (accepted_text_truthy NameStep name eq_refl Hname
                ltac:(discriminate)) as Tn.
  pose proof (accepted_text_truthy EmailStep email eq_refl Hemail
                ltac:(discriminate)) as Te.
  set (ud4 := set_state
                (set_user_data
                   (set_state
                      (set_user_data
                         (set_state
                            (set_user_data
                               (set_state
                                  (set_user_data (start_booking ud)
                                     "booking_course" (VStr course))
                                  BOOKING_TIME)
                               "booking_time" (VStr slot))
                            BOOKING_NAME)
                         "booking_name" (VStr name))
                      BOOKING_EMAIL)
                   "booking_email" (VStr email))
                BOOKING_PHONE).
  set (p := if is_skip phone then VNone else VStr phone).
  assert (Hrun : run_all [StartBooking; SetCourse course_id; SetTime time_id;
                          SetName name; SetEmail email; SetPhone phone] ud
                 = set_state (set_user_data ud4 "booking_phone" p)
                             BOOKING_CONFIRM).
  { unfold run_all. cbn [fold_left run].
    unfold set_course at 1. rewrite Hcourse.
    unfold set_time at 1. rewrite Hslot.
    unfold set_name at 1.
    destruct (validate_name name) as [ok_name error_name]. cbn [fst] in Hname.
    subst ok_name.
    unfold set_email at 1.
    destruct (validate_email email) as [ok_email error_email].
    cbn [fst] in Hemail. subst ok_email. cbn [snd]. fold ud4.
    unfold set_phone. subst p. destruct (is_skip phone); [reflexivity |].
    destruct Hphone as [Hp | Hp]; [discriminate Hp |].
    destruct (validate_phone phone) as [ok error]. cbn [fst] in Hp.
    subst ok. reflexivity. }
  cbv zeta. rewrite Hrun. clear Hrun.
  assert (Hget : get_user_data (set_state (set_user_data ud4 "booking_phone" p)
                                          BOOKING_CONFIRM) "booking_course"
                 = VStr course
              /\ get_user_data (set_state (set_user_data ud4 "booking_phone" p)
                                          BOOKING_CONFIRM) "booking_time"
                 = VStr slot
              /\ get_user_data (set_state (set_user_data ud4 "booking_phone" p)
                                          BOOKING_CONFIRM) "booking_name"
                 = VStr name
              /\ get_user_data (set_state (set_user_data ud4 "booking_phone" p)
                                          BOOKING_CONFIRM) "booking_email"
                 = VStr email
              /\ get_user_data (set_state (set_user_data ud4 "booking_phone" p)
                                          BOOKING_CONFIRM) "booking_phone"
                 = p).
  { subst ud4. unfold get_user_data, set_state, set_user_data.
    repeat split;
      repeat (rewrite lookup_insert_eq || rewrite lookup_insert_ne by done);
      reflexivity. }
  destruct Hget as (Gc & Gt & Gn & Ge & Gp).
  assert (Hsum : get_booking_summary
                   (set_state (set_user_data ud4 "booking_phone" p)
                              BOOKING_CONFIRM)
                 = Some (<["phone"%string := p]>
                        (<["email"%string := VStr email]>
                        (<["name"%string := VStr name]>
                        (<["time"%string := VStr slot]>
                        (<["course"%string := VStr course]> ∅)))))).
  { unfold get_booking_summary. rewrite Gc, Gt, Gn, Ge, Gp.
    cbn [forallb value_truthy]. rewrite Tc, Ts, Tn, Te. reflexivity. }
  split; [apply get_state_set_state |]. split; [exact Hsum |].
  unfold confirm_booking. rewrite Hsum. reflexivity.
Qed.

End Session_facts.

(** ** The answer service: cache hits, backoff and what a call leaves *)

Section Service_facts.
Import ConversationManager AIService.
Variable cfg : Config.
Variable env : environment.

Lemma response_text_of_truthy text : truthy (response_text_of text) = true.
Proof. destruct text as [[| c t] |]; reflexivity. Qed.

Lemma fallback_truthy : truthy _get_fallback_response = true.
Proof. vm_compute. reflexivity. Qed.

Lemma retry_loop_truthy attempts api_messages cache_key : forall w,
  truthy (fst (retry_loop cfg env attempts api_messages cache_key w)) = true.
Proof.
  induction attempts as [| attempt attempts IH]; intros w.
  - cbn [retry_loop]. unfold mret, M_ret. cbn [fst]. apply fallback_truthy.
  - rewrite retry_loop_cons. cbv zeta.
    destruct (provider env (w_calls w) api_messages) as [text |].
    + cbn [fst]. apply response_text_of_truthy.
    + destruct (attempt =? AI_RETRY_ATTEMPTS cfg - 1);
        [cbn [fst]; apply fallback_truthy | apply IH].
Qed.

(** The opening lookup, case by case. *)
Lemma cache_phase_cases messages context use_cache w :
  let r := cache_phase cfg env messages context use_cache w in
  (fst r = (None, None) /\ snd r = w)
  \/ exists last_message,
       use_cache = true
       /\ last_user_message messages = Some last_message
       /\ last_message <> []
       /\ fst (fst r) = Some (cache_key_of context last_message)
       /\ let looked := _get_cached_response cfg env
                          (cache_key_of context last_message) w in
          snd r = snd looked
          /\ snd (fst r)
             = match fst looked with
               | Some text => if truthy text then Some text else None
               | None => None
               end.
Proof.
  cbv zeta. unfold cache_phase.
  destruct use_cache; cbn [andb]; [| left; split; reflexivity].
  destruct messages as [| m messages]; [left; split; reflexivity |].
  destruct (last_user_message (m :: messages)) as [last_message |];
    [| left; split; reflexivity].
  destruct (truthy last_message) eqn:Ht; [| left; split; reflexivity].
  right. exists last_message.
  apply truthy_nonempty in Ht.
  repeat (split; [reflexivity || exact Ht |]).
  unfold mbind, M_bind. fold (cache_key_of context last_message).
  destruct (_get_cached_response cfg env (cache_key_of context last_message) w)
    as [[text |] w1]; cbn [fst snd];
    [destruct (truthy text) |]; repeat split; reflexivity.
Qed.

(** X15: [get_response] never returns an empty text: a cached text is
    served only when it is not empty, an empty provider answer is
    replaced by the apology, and the fallback is not empty. *)
Theorem get_response_never_empty messages user_id context use_cache w :
  fst (get_response cfg env messages user_id context use_cache w) <> [].
Proof.
  apply truthy_nonempty.
  unfold get_response, mbind, M_bind.
  change (time_time env w) with (fst (time_time env w), snd (time_time env w)).
  cbv iota beta.
  pose proof (cache_phase_cases messages context use_cache
                (snd (time_time env w))) as Hphase.
  cbv zeta in Hphase.
  destruct (cache_phase cfg env messages context use_cache
              (snd (time_time env w))) as [[cache_key cached] w1].
  cbn [fst snd] in Hphase.
  destruct cached as [text |]; [| apply retry_loop_truthy].
  unfold mret, M_ret. cbn [fst].
  destruct Hphase as [[[=] _] | (last_message & _ & _ & _ & _ & _ & Hc)].
  destruct (fst (_get_cached_response cfg env _ _)) as [t |];
    [| discriminate].
  destruct (truthy t) eqn:Ht; [| discriminate]. congruence.
Qed.

Lemma last_user_message_nonempty messages last_message :
  last_user_message messages = Some last_message -> messages <> [].
Proof. intros Hl ->. discriminate Hl. Qed.

Lemma cache_key_of_truthy context last_message :
  truthy (cache_key_of context last_message) = true.
Proof. unfold cache_key_of. destruct context; reflexivity. Qed.

(** The opening lookup when a key can be derived. *)
Lemma cache_phase_keyed messages context w last_message :
  last_user_message messages = Some last_message ->
  last_message <> [] ->
  cache_phase cfg env messages context true w
  = let looked := _get_cached_response cfg env
                    (cache_key_of context last_message) w in
    ((Some (cache_key_of context last_message),
      match fst looked with
      | Some text => if truthy text then Some text else None
      | None => None
      end), snd looked).
Proof.
  intros Hlast Hne. cbv zeta. unfold cache_phase.
  destruct messages as [| m messages]; [discriminate Hlast |].
  cbn [andb]. rewrite Hlast.
  apply truthy_nonempty in Hne. rewrite Hne.
  unfold mbind, M_bind. fold (cache_key_of context last_message).
  destruct (_get_cached_response cfg env (cache_key_of context last_message) w)
    as [[text |] w1]; cbn [fst snd]; [destruct (truthy text) |]; reflexivity.
Qed.

(** The call when the key has a live, non-empty entry. *)
Lemma get_response_hit messages user_id context w last_message response T :
  last_user_message messages = Some last_message ->
  last_message <> [] ->
  dict_get (cache_key_of context last_message) (w_cache w)
  = Some (response, T) ->
  response <> [] ->
  clock env (S (w_reads w)) - T < AI_CACHE_TTL cfg ->
  get_response cfg env messages user_id context true w
  = (response,
     {| w_cache := w_cache w; w_reads := S (S (w_reads w));
        w_calls := w_calls w; w_sleeps := w_sleeps w |}).
Proof.
  intros Hlast Hne Hget Hresp Hlive.
  unfold get_response, mbind, M_bind.
  change (time_time env w) with (fst (time_time env w), snd (time_time env w)).
  cbv iota beta.
  rewrite (cache_phase_keyed _ _ _ _ Hlast Hne). cbv zeta.
  destruct (_get_cached_response_stored cfg env
              (cache_key_of context last_message) response T
              (snd (time_time env w)) Hget) as [Hhit _].
  rewrite (Hhit Hlive). cbn [fst snd].
  apply truthy_nonempty in Hresp. rewrite Hresp. reflexivity.
Qed.

(** X17: a call whose cache key (the context and the first 100 characters
    of the last user message) has a live, non-empty entry returns the
    cached text without calling the provider, sleeping or changing the
    cache. *)
Theorem live_cache_entry_answers
    messages user_id context w last_message response T :
  last_user_message messages = Some last_message ->
  last_message <> [] ->
  dict_get (cache_key_of context last_message) (w_cache w)
  = Some (response, T) ->
  response <> [] ->
  clock env (S (w_reads w)) - T < AI_CACHE_TTL cfg ->
  let r := get_response cfg env messages user_id context true w in
  fst r = response
  /\ calls_between w (snd r) = 0
  /\ sleeps_since w (snd r) = []
  /\ w_cache (snd r) = w_cache w.
Proof.
  intros Hlast Hne Hget Hresp Hlive. cbv zeta.
  rewrite (get_response_hit messages user_id context w last_message
             response T Hlast Hne Hget Hresp Hlive).
  unfold calls_between, sleeps_since. cbn [fst snd w_calls w_sleeps w_cache].
  rewrite drop_all. repeat split. lia.
Qed.

Lemma retry_loop_no_key attempts api_messages : forall w,
  w_cache (snd (retry_loop cfg env attempts api_messages None w)) = w_cache w.
Proof.
  induction attempts as [| attempt attempts IH]; intros w; [reflexivity |].
  rewrite retry_loop_cons. cbv zeta.
  destruct (provider env (w_calls w) api_messages) as [text |];
    [reflexivity |].
  destruct (attempt =? AI_RETRY_ATTEMPTS cfg - 1); [reflexivity |].
  rewrite IH. reflexivity.
Qed.

(** X18: a call made with [use_cache] off neither reads nor changes the
    cache, whatever the provider does. *)
Theorem uncached_call_keeps_cache messages user_id context w :
  w_cache (snd (get_response cfg env messages user_id context false w))
  = w_cache w.
Proof.
  unfold get_response, mbind, M_bind, cache_phase. cbn [andb].
  change (time_time env w) with (fst (time_time env w), snd (time_time env w)).
  cbv iota beta. unfold mret at 1, M_ret at 1. cbv iota beta.
  rewrite retry_loop_no_key. reflexivity.
Qed.

(** The loop when [k] attempts raise and the next one returns. *)
Lemma retry_loop_recovers api_messages cache_key text k : forall j rest w,
  Z.of_nat (j + k) < AI_RETRY_ATTEMPTS cfg - 1
  \/ (Z.of_nat (j + k) = AI_RETRY_ATTEMPTS cfg - 1) ->
  (forall i, (i < k)%nat ->
     provider env (w_calls w + i) api_messages = Raised) ->
  provider env (w_calls w + k) api_messages = Returned text ->
  let r := retry_loop cfg env (map Z.of_nat (seq j (S k)) ++ rest)
             api_messages cache_key w in
  fst r = response_text_of text
  /\ w_calls (snd r) = (w_calls w + S k)%nat
  /\ w_sleeps (snd r) = w_sleeps w ++ map (fun i => 2 ^ Z.of_nat i) (seq j k).
Proof.
  induction k as [| k IH]; intros j rest w HR Hraise Hret.
  - cbn [seq map app]. cbv zeta. rewrite retry_loop_cons. cbv zeta.
    rewrite Nat.add_0_r in Hret. rewrite Hret. cbn [fst snd time_time].
    split; [reflexivity |].
    assert (Hkeep : forall w0 : world,
              w_calls (match cache_key with
                       | Some key =>
                         if truthy key
                         then snd (_cache_response env key
                                     (response_text_of text) w0)
                         else w0
                       | None => w0
                       end) = w_calls w0
              /\ w_sleeps (match cache_key with
                           | Some key =>
                             if truthy key
                             then snd (_cache_response env key
                                         (response_text_of text) w0)
                             else w0
                           | None => w0
                           end) = w_sleeps w0).
    { intros w0. destruct cache_key as [key |]; [destruct (truthy key) |];
        try (split; reflexivity). apply _cache_response_projections. }
    cbn [w_calls w_sleeps].
    destruct (Hkeep (snd (create_completion env api_messages w))) as [-> ->].
    cbn [snd create_completion w_calls w_sleeps]. rewrite app_nil_r.
    split; [lia | reflexivity].
  - cbn [seq map app]. cbv zeta. rewrite retry_loop_cons. cbv zeta.
    pose proof (Hraise 0%nat ltac:(lia)) as H0.
    rewrite Nat.add_0_r in H0. rewrite H0.
    destruct (Z.eqb_spec (Z.of_nat j) (AI_RETRY_ATTEMPTS cfg - 1)); [lia |].
    specialize (IH (S j) rest
                  (snd (time_sleep (2 ^ Z.of_nat j)
                          (snd (create_completion env api_messages w))))).
    cbv zeta in IH. cbn [seq map app] in IH.
    destruct IH as (Ht & Hc & Hs).
    + lia.
    + intros i Hi. cbn [w_calls snd time_sleep create_completion].
      replace (S (w_calls w) + i)%nat with (w_calls w + S i)%nat by lia.
      apply Hraise. lia.
    + cbn [w_calls snd time_sleep create_completion].
      replace (S (w_calls w) + k)%nat with (w_calls w + S k)%nat by lia.
      exact Hret.
    + rewrite Ht, Hc, Hs.
      cbn [w_calls w_sleeps snd time_sleep create_completion seq map].
      rewrite <- app_assoc. repeat split. lia.
Qed.

(** X19: when the first [k] attempts raise and the next one, still within
    the configured attempts, returns, [get_response] returns that answer
    after [k + 1] provider calls and [k] sleeps of [1, 2, 4, ...] time
    units, with no sleep after the answer. *)
Theorem recovery_after_failures
    messages user_id context use_cache w text (k : nat) :
  Z.of_nat k < AI_RETRY_ATTEMPTS cfg ->
  answered_from_cache cfg env messages context use_cache w = false ->
  (forall i request, (i < k)%nat ->
     provider env (w_calls w + i) request = Raised) ->
  (forall request, provider env (w_calls w + k) request = Returned text) ->
  let r := get_response cfg env messages user_id context use_cache w in
  fst r = response_text_of text
  /\ calls_between w (snd r) = Z.of_nat k + 1
  /\ sleeps_since w (snd r) = map (fun i => 2 ^ Z.of_nat i) (seq 0 k).
Proof.
  intros HR Hmiss Hraise Hret.
  destruct (get_response_not_cached cfg env messages user_id context
              use_cache w Hmiss) as (cache_key & w1 & Hc & Hs & ->).
  cbv zeta. rewrite range_seq.
  replace (Z.to_nat (AI_RETRY_ATTEMPTS cfg))
    with (S k + (Z.to_nat (AI_RETRY_ATTEMPTS cfg) - S k))%nat by lia.
  rewrite seq_app, map_app.
  edestruct (retry_loop_recovers
               ({| role := lit "system";
                   content := _build_system_prompt env context |} :: messages)
               cache_key text k 0%nat) as (Ht & Hcalls & Hsleeps).
  - cbn [Nat.add]. lia.
  - intros i Hi. rewrite Hc. apply Hraise, Hi.
  - rewrite Hc. apply Hret.
  - rewrite Ht. split; [reflexivity |].
    unfold calls_between, sleeps_since. rewrite Hcalls, Hsleeps, Hc, Hs.
    rewrite drop_app_length. split; [lia | reflexivity].
Qed.

(** X20: when every attempt raises, [get_response] sleeps once after each
    attempt but the last: [1, 2, 4, ...] time units, one sleep fewer
    than attempts. *)
Theorem exhausted_retries_backoff messages user_id context use_cache w :
  1 <= AI_RETRY_ATTEMPTS cfg ->
  answered_from_cache cfg env messages context use_cache w = false ->
  (forall i request,
     (w_calls w <= i < w_calls w + Z.to_nat (AI_RETRY_ATTEMPTS cfg))%nat ->
     provider env i request = Raised) ->
  sleeps_since w
    (snd (get_response cfg env messages user_id context use_cache w))
  = map (fun i => 2 ^ Z.of_nat i)
        (seq 0 (Z.to_nat (AI_RETRY_ATTEMPTS cfg) - 1)).
Proof.
  intros HR Hmiss Hraise.
  destruct (get_response_not_cached cfg env messages user_id context
              use_cache w Hmiss) as (cache_key & w1 & Hc & Hs & ->).
  rewrite range_seq.
  edestruct (retry_loop_all_raise cfg env
               ({| role := lit "system";
                   content := _build_system_prompt env context |} :: messages)
               cache_key (Z.to_nat (AI_RETRY_ATTEMPTS cfg)) 0%nat w1)
    as (_ & _ & Hsleeps & _).
  - lia.
  - intros i Hi. apply Hraise. lia.
  - unfold sleeps_since. rewrite Hsleeps, Hs. apply drop_app_length.
Qed.

Lemma dict_get_missing key (c : cache) :
  key ∉ fst <$> c -> dict_get key c = None.
Proof.
  induction c as [| [k v] c IH]; [reflexivity |].
  rewrite fmap_cons, not_elem_of_cons. cbn [fst dict_get]. intros [Hne Hc].
  rewrite bool_decide_eq_false_2 by congruence. apply IH, Hc.
Qed.

Lemma dict_get_del_same key (c : cache) :
  dict_wf c -> dict_get key (dict_del key c) = None.
Proof.
  unfold dict_wf. induction c as [| [k v] c IH]; [reflexivity |].
  rewrite fmap_cons, NoDup_cons. cbn [fst dict_del]. intros [Hk Hc].
  destruct (decide (k = key)) as [-> | Hne].
  - rewrite bool_decide_eq_true_2 by reflexivity.
    apply dict_get_missing, Hk.
  - rewrite bool_decide_eq_false_2 by exact Hne. cbn [dict_get].
    rewrite bool_decide_eq_false_2 by exact Hne. apply IH, Hc.
Qed.

Lemma dict_get_del_other key other (c : cache) :
  other <> key -> dict_get other (dict_del key c) = dict_get other c.
Proof.
  intros Hother. induction c as [| [k v] c IH]; [reflexivity |].
  cbn [dict_del dict_get].
  destruct (decide (k = key)) as [-> | Hne].
  - rewrite bool_decide_eq_true_2 by reflexivity.
    rewrite bool_decide_eq_false_2 by congruence. reflexivity.
  - rewrite bool_decide_eq_false_2 by exact Hne. cbn [dict_get].
    rewrite IH. reflexivity.
Qed.

Lemma dict_del_length key v (c : cache) :
  dict_get key c = Some v -> len (dict_del key c) = len c - 1.
Proof.
  unfold len. induction c as [| [k v'] c IH]; [discriminate |].
  cbn [dict_get dict_del].
  destruct (decide (k = key)) as [-> | Hne].
  - rewrite !bool_decide_eq_true_2 by reflexivity. intros _.
    cbn [length]. lia.
  - rewrite !bool_decide_eq_false_2 by exact Hne. intros Hget.
    specialize (IH Hget). cbn [length].
    destruct c; [discriminate Hget |]. cbn [length] in *. lia.
Qed.

Lemma dict_del_Forall (P : str * entry -> Prop) key (c : cache) :
  Forall P c -> Forall P (dict_del key c).
Proof.
  induction 1 as [| [k v] c Hx Hc IH]; [constructor |].
  cbn [dict_del]. destruct (bool_decide (k = key)); [exact Hc |].
  constructor; assumption.
Qed.

(** X21: looking up a key whose entry has outlived the time to live
    returns nothing and deletes that entry and no other. *)
Theorem expired_entry_is_dropped key response T w :
  dict_wf (w_cache w) ->
  dict_get key (w_cache w) = Some (response, T) ->
  AI_CACHE_TTL cfg <= clock env (w_reads w) - T ->
  let r := _get_cached_response cfg env key w in
  fst r = None
  /\ dict_get key (w_cache (snd r)) = None
  /\ (forall other, other <> key ->
        dict_get other (w_cache (snd r)) = dict_get other (w_cache w))
  /\ len (w_cache (snd r)) = len (w_cache w) - 1.
Proof.
  intros Hwf Hget Hold. cbv zeta.
  destruct (_get_cached_response_stored cfg env key response T w Hget)
    as [_ Hexp].
  destruct (Hexp Hold) as [-> ->].
  split; [reflexivity |]. split; [apply dict_get_del_same, Hwf |].
  split; [intros other Hother; apply dict_get_del_other, Hother |].
  apply (dict_del_length key (response, T)), Hget.
Qed.

Lemma retry_loop_bounded attempts api_messages cache_key : forall w,
  dict_wf (w_cache w) /\ len (w_cache w) <= 100 ->
  dict_wf (w_cache (snd (retry_loop cfg env attempts api_messages
                           cache_key w)))
  /\ len (w_cache (snd (retry_loop cfg env attempts api_messages
                          cache_key w))) <= 100.
Proof.
  induction attempts as [| attempt attempts IH]; intros w Hw; [exact Hw |].
  rewrite retry_loop_cons. cbv zeta.
  destruct (provider env (w_calls w) api_messages) as [text |].
  - cbn [snd time_time w_cache].
    destruct cache_key as [key |]; [destruct (truthy key) |]; try exact Hw.
    exact (cache_operation_bounded cfg env
             (Store key (response_text_of text))
             (snd (create_completion env api_messages w)) Hw).
  - destruct (attempt =? AI_RETRY_ATTEMPTS cfg - 1); [exact Hw |].
    apply IH. exact Hw.
Qed.

Lemma get_response_bounded messages user_id context use_cache w :
  dict_wf (w_cache w) /\ len (w_cache w) <= 100 ->
  dict_wf (w_cache (snd (get_response cfg env messages user_id context
                           use_cache w)))
  /\ len (w_cache (snd (get_response cfg env messages user_id context
                          use_cache w))) <= 100.
Proof.
  intros Hw. unfold get_response, mbind, M_bind.
  change (time_time env w) with (fst (time_time env w), snd (time_time env w)).
  cbv iota beta.
  assert (Hw1 : dict_wf (w_cache (snd (cache_phase cfg env messages context
                                         use_cache (snd (time_time env w)))))
                /\ len (w_cache (snd (cache_phase cfg env messages context
                                        use_cache (snd (time_time env w)))))
                   <= 100).
  { destruct (cache_phase_cases messages context use_cache
                (snd (time_time env w)))
      as [[_ ->] | (last_message & _ & _ & _ & _ & -> & _)]; [exact Hw |].
    exact (cache_operation_bounded cfg env
             (Lookup (cache_key_of context last_message))
             (snd (time_time env w)) Hw). }
  destruct (cache_phase cfg env messages context use_cache
              (snd (time_time env w))) as [[cache_key [text |]] w1];
    cbn [snd] in Hw1; [exact Hw1 |].
  apply retry_loop_bounded, Hw1.
Qed.

(** X22: however many calls the service answers, and whatever the clock
    and the provider do, its cache stays a dictionary of at most 100
    entries. *)
Theorem answer_all_cache_bounded requests w :
  dict_wf (w_cache w) ->
  len (w_cache w) <= 100 ->
  dict_wf (w_cache (answer_all cfg env requests w))
  /\ len (w_cache (answer_all cfg env requests w)) <= 100.
Proof.
  revert w. induction requests as [| r requests IH]; intros w Hwf Hlen;
    [split; assumption |].
  cbn [answer_all fold_left].
  destruct (get_response_bounded (req_messages r) (req_user_id r)
              (req_context r) (req_use_cache r) w (conj Hwf Hlen))
    as [Hwf' Hlen'].
  apply IH; assumption.
Qed.

Lemma _cache_response_reads key response w :
  w_reads (snd (_cache_response env key response w)) = S (w_reads w).
Proof.
  unfold _cache_response, mbind, M_bind, get_cache, time_time, put_cache.
  cbn [fst snd]. destruct (_ >? 100); reflexivity.
Qed.

(** What a lookup that finds nothing usable leaves behind. *)
Lemma _get_cached_response_after key w :
  let w1 := snd (_get_cached_response cfg env key w) in
  (w_reads w <= w_reads w1 <= S (w_reads w))%nat
  /\ (w_cache w1 = w_cache w \/ w_cache w1 = dict_del key (w_cache w)).
Proof.
  cbv zeta. unfold _get_cached_response, mbind, M_bind, get_cache, mret, M_ret.
  cbn [fst snd].
  destruct (dict_get key (w_cache w)) as [[response T] |];
    [| cbn [snd]; split; [lia | left; reflexivity]].
  change (time_time env w)
    with (clock env (w_reads w), snd (time_time env w)).
  cbv iota beta. destruct (_ <? _);
    cbn [snd w_cache w_reads put_cache time_time];
    (split; [lia | auto]).
Qed.

(** X23: an answer the provider gives at the first attempt is stored
    under the context and the last user message, and a next call with
    that context and last user message, whatever its history and user,
    gets the same answer from the cache without a provider call,
    provided the clock never runs backwards and the clock readings of
    the two calls, six at most, lie within the time to live. *)
Theorem answer_is_cached_for_repeat
    messages user_id messages' user_id' context w last_message text :
  last_user_message messages = Some last_message ->
  last_user_message messages' = Some last_message ->
  last_message <> [] ->
  1 <= AI_RETRY_ATTEMPTS cfg ->
  dict_wf (w_cache w) ->
  len (w_cache w) <= 100 ->
  (forall i j, (i <= j)%nat -> clock env i <= clock env j) ->
  Forall (fun item => timestamp item <= clock env (w_reads w)) (w_cache w) ->
  clock env (w_reads w + 5) - clock env (w_reads w) < AI_CACHE_TTL cfg ->
  answered_from_cache cfg env messages context true w = false ->
  (forall request, provider env (w_calls w) request = Returned text) ->
  let first := get_response cfg env messages user_id context true w in
  let second :=
    get_response cfg env messages' user_id' context true (snd first) in
  fst first = response_text_of text
  /\ fst second = fst first
  /\ calls_between (snd first) (snd second) = 0
  /\ w_cache (snd second) = w_cache (snd first).
Proof.
  intros Hlast Hlast' Hne HR Hwf Hlen Hmono Hold Hfresh Hmiss Hret.
  set (key := cache_key_of context last_message).
  set (w0 := snd (time_time env w)).
  set (w1 := snd (_get_cached_response cfg env key w0)).
  set (w2 := snd (_cache_response env key (response_text_of text)
                    (snd (create_completion env
                            ({| role := lit "system";
                                content := _build_system_prompt env context |}
                             :: messages) w1)))).
  assert (Hfirst : get_response cfg env messages user_id context true w
                   = (response_text_of text, snd (time_time env w2))).
  { unfold answered_from_cache in Hmiss.
    rewrite (cache_phase_keyed _ _ _ _ Hlast Hne) in Hmiss.
    unfold get_response, mbind, M_bind.
    change (time_time env w) with (fst (time_time env w), w0).
    cbv iota beta. rewrite (cache_phase_keyed _ _ _ _ Hlast Hne).
    cbv zeta in Hmiss |- *. cbn [fst snd] in Hmiss |- *.
    fold key w0 in Hmiss |- *.
    destruct (match fst (_get_cached_response cfg env key w0) with
              | Some t => if truthy t then Some t else None
              | None => None
              end); [discriminate Hmiss |].
    cbv iota beta. fold w1. rewrite range_seq.
    destruct (Z.to_nat (AI_RETRY_ATTEMPTS cfg)) as [| n] eqn:Hn; [lia |].
    cbn [seq map]. rewrite retry_loop_cons. cbv zeta.
    assert (Hcalls : w_calls w1 = w_calls w)
      by exact (proj1 (_get_cached_response_projections cfg env key w0)).
    rewrite Hcalls, Hret. subst key. rewrite cache_key_of_truthy.
    reflexivity. }
  destruct (_get_cached_response_after key w0) as [Hreads Hcache].
  fold w1 in Hreads, Hcache.
  change (w_reads w0) with (S (w_reads w)) in Hreads.
  change (w_cache w0) with (w_cache w) in Hcache.
  destruct (cache_operation_bounded cfg env (Lookup key) w0 (conj Hwf Hlen))
    as [Hwf1 Hlen1].
  cbn [run_cache_operation] in Hwf1, Hlen1. fold w1 in Hwf1, Hlen1.
  assert (Hold1 : Forall (fun item => timestamp item <= clock env (w_reads w1))
                         (w_cache w1)).
  { assert (Hall : Forall (fun item => timestamp item
                                       <= clock env (w_reads w1)) (w_cache w)).
    { eapply Forall_impl; [exact Hold |]. intros item Hitem. cbv beta in *.
      pose proof (Hmono (w_reads w) (w_reads w1) ltac:(lia)). lia. }
    destruct Hcache as [-> | ->]; [exact Hall |].
    apply dict_del_Forall, Hall. }
  assert (Hstored : dict_get key (w_cache w2)
                    = Some (response_text_of text, clock env (w_reads w1))).
  { unfold w2.
    apply (stored_response_present env key (response_text_of text)
             (snd (create_completion env _ w1))); assumption. }
  assert (Hreads2 : w_reads w2 = S (w_reads w1))
    by (unfold w2; rewrite _cache_response_reads; reflexivity).
  cbv zeta. rewrite Hfirst. cbn [fst snd].
  split; [reflexivity |].
  rewrite (get_response_hit messages' user_id' context
             (snd (time_time env w2)) last_message (response_text_of text)
             (clock env (w_reads w1)) Hlast' Hne Hstored).
  - cbn [fst snd]. unfold calls_between. cbn [w_calls w_cache time_time snd].
    repeat split. lia.
  - apply truthy_nonempty, response_text_of_truthy.
  - cbn [w_reads time_time snd]. rewrite Hreads2.
    pose proof (Hmono (S (S (S (w_reads w1)))) (w_reads w + 5)%nat
                  ltac:(lia)).
    pose proof (Hmono (w_reads w) (w_reads w1) ltac:(lia)). lia.
Qed.

End Service_facts.

(** ** Splitting long messages *)

Section Splitting_facts.
Import Formatters.

Lemma visible_app a b : visible (a ++ b) = visible a ++ visible b.
Proof. apply List.filter_app. Qed.

Lemma visible_cons c s :
  visible (c :: s) = if isspace c then visible s else c :: visible s.
Proof. unfold visible. cbn [List.filter]. destruct (isspace c); reflexivity. Qed.

Lemma visible_rev s : visible (rev s) = rev (visible s).
Proof.
  induction s as [| c s IH]; [reflexivity |].
  cbn [rev]. rewrite visible_app, IH, !visible_cons.
  destruct (isspace c); cbn [rev]; [apply app_nil_r | reflexivity].
Qed.

Lemma visible_lstrip s : visible (lstrip s) = visible s.
Proof.
  induction s as [| c s IH]; [reflexivity |].
  cbn [lstrip]. rewrite (visible_cons c s).
  destruct (isspace c) eqn:Hc; [exact IH |].
  rewrite visible_cons, Hc. reflexivity.
Qed.

Lemma visible_strip s : visible (strip s) = visible s.
Proof.
  unfold strip, rstrip.
  rewrite visible_rev, visible_lstrip, visible_rev, rev_involutive.
  apply visible_lstrip.
Qed.

Lemma visible_nn : visible nn = [].
Proof. reflexivity. Qed.

Lemma split_nn_cons c d r :
  split_nn (c :: d :: r)
  = if (c =? 10) && (d =? 10) then [] :: split_nn r
    else match split_nn (d :: r) with
         | [] => [[c]]
         | p :: ps => (c :: p) :: ps
         end.
Proof. reflexivity. Qed.

(** Cutting at the paragraph boundaries removes line feeds only. *)
Lemma visible_split_nn s : visible (concat (split_nn s)) = visible s.
Proof.
  assert (Hall : forall n s, (length s <= n)%nat ->
                   visible (concat (split_nn s)) = visible s).
  { clear s. induction n as [| n IH]; intros s Hn.
    - destruct s; [reflexivity | cbn [length] in Hn; lia].
    - destruct s as [| c [| d r]]; [reflexivity | reflexivity |].
      rewrite split_nn_cons.
      destruct (Z.eqb_spec c 10) as [-> | Hc];
        [destruct (Z.eqb_spec d 10) as [-> | Hd] |]; cbn [andb].
      + cbn [concat app]. rewrite IH by (cbn [length] in Hn; lia).
        reflexivity.
      + specialize (IH (d :: r) ltac:(cbn [length] in Hn |- *; lia)).
        destruct (split_nn (d :: r)) as [| p ps].
        * change (visible (10 :: d :: r)) with (visible (d :: r)).
          rewrite <- IH. reflexivity.
        * change (visible (10 :: d :: r)) with (visible (d :: r)).
          rewrite <- IH. reflexivity.
      + specialize (IH (d :: r) ltac:(cbn [length] in Hn |- *; lia)).
        change (visible (c :: d :: r)) with (visible ([c] ++ d :: r)).
        rewrite visible_app, <- IH.
        destruct (split_nn (d :: r)) as [| p ps].
        * cbn [concat app]. rewrite app_nil_r. reflexivity.
        * cbn [concat]. change ((c :: p) ++ concat ps)
            with ([c] ++ (p ++ concat ps)).
          apply visible_app. }
  apply (Hall (length s)). lia.
Qed.

(** What the paragraph loop hands over when it ends. *)
Lemma split_loop_visible max_length paragraphs : forall parts current_part,
  visible (concat
             (let '(parts', current_part') :=
                fold_left (split_step max_length) paragraphs
                          (parts, current_part) in
              if truthy current_part'
              then parts' ++ [strip current_part'] else parts'))
  = visible (concat parts ++ current_part ++ concat paragraphs).
Proof.
  induction paragraphs as [| paragraph paragraphs IH];
    intros parts current_part.
  - cbn [fold_left concat]. rewrite app_nil_r.
    destruct current_part as [| c current_part];
      [cbn [truthy]; rewrite app_nil_r; reflexivity |].
    change (truthy (c :: current_part)) with true. cbv iota.
    rewrite concat_app, !visible_app. cbn [concat].
    rewrite app_nil_r, visible_strip. reflexivity.
  - cbn [fold_left split_step concat].
    destruct (len current_part + len paragraph + 2 <=? max_length).
    + rewrite IH. rewrite !visible_app, visible_nn, app_nil_r.
      rewrite <- !app_assoc. reflexivity.
    + rewrite IH.
      destruct current_part as [| c current_part].
      * cbn [truthy app]. rewrite !visible_app, visible_nn, app_nil_r.
        rewrite <- ?app_assoc. reflexivity.
      * change (truthy (c :: current_part)) with true. cbv iota.
        rewrite concat_app, !visible_app. cbn [concat].
        rewrite app_nil_r, visible_strip, ?visible_app, visible_nn, app_nil_r.
        rewrite <- ?app_assoc. reflexivity.
Qed.

(** X25: splitting loses and reorders no visible character: the chunks,
    put end to end, hold the characters of the text that are not
    whitespace, in their order. *)
Theorem split_long_message_keeps_visible text max_length :
  visible (concat (split_long_message text max_length)) = visible text.
Proof.
  unfold split_long_message.
  destruct (len text <=? max_length);
    [cbn [concat]; rewrite app_nil_r; reflexivity |].
  cbv zeta. rewrite split_loop_visible. cbn [concat app].
  apply visible_split_nn.
Qed.

Lemma split_nn_nonempty s : split_nn s <> [].
Proof.
  destruct s as [| c [| d r]]; [discriminate | discriminate |].
  rewrite split_nn_cons. destruct ((c =? 10) && (d =? 10)); [discriminate |].
  destruct (split_nn (d :: r)); discriminate.
Qed.

Lemma split_step_truthy max_length acc paragraph :
  truthy (snd (split_step max_length acc paragraph)) = true.
Proof.
  destruct acc as [parts current_part]. cbn [split_step].
  destruct (_ <=? _); cbn [snd].
  - destruct current_part; [destruct paragraph |]; reflexivity.
  - destruct paragraph; reflexivity.
Qed.

Lemma split_loop_truthy max_length paragraphs : forall acc,
  truthy (snd acc) = true ->
  truthy (snd (fold_left (split_step max_length) paragraphs acc)) = true.
Proof.
  induction paragraphs as [| paragraph paragraphs IH]; intros acc Hacc;
    [exact Hacc |].
  cbn [fold_left]. apply IH, split_step_truthy.
Qed.

Lemma split_long_message_not_nil text max_length :
  split_long_message text max_length <> [].
Proof.
  unfold split_long_message.
  destruct (len text <=? max_length); [discriminate |]. cbv zeta.
  destruct (split_nn text) as [| paragraph paragraphs] eqn:Hsplit;
    [exact (False_ind _ (split_nn_nonempty text Hsplit)) |].
  cbn [fold_left].
  pose proof (split_loop_truthy max_length paragraphs
                (split_step max_length ([], []) paragraph)
                (split_step_truthy _ _ _)) as Hlast.
  destruct (fold_left (split_step max_length) paragraphs
              (split_step max_length ([], []) paragraph))
    as [parts current_part].
  cbn [snd] in Hlast. rewrite Hlast.
  intros Hnil. apply app_eq_nil in Hnil as [_ Hnil]. discriminate Hnil.
Qed.

(** X26: [split_long_message] always returns at least one chunk, and for a
    text that fits the limit, the empty one included, that text as the
    only chunk. *)
Theorem split_long_message_some_chunk text max_length :
  split_long_message text max_length <> []
  /\ (len text <= max_length ->
      split_long_message text max_length = [text]).
Proof.
  split; [apply split_long_message_not_nil |].
  intros Hfit. unfold split_long_message.
  destruct (Z.leb_spec (len text) max_length); [reflexivity | lia].
Qed.

End Splitting_facts.

(** ** The handlers of typed text *)

Section Handler_facts.
Import ConversationManager Validators BookingManager AIService.
Import Formatters Keyboards Handlers.
Context `{UnicodeData}.
Variable cfg : Config.
Variable env : environment.

(** X27: text typed while the form waits for a button (the course, the
    time slot) or has ended at the confirmation step is dropped: the
    router sends nothing, asks the answer service nothing and leaves the
    session as it was. *)
Theorem text_ignored_at_button_steps
    enable_ai_chat user_id user_input (ud : user_data) w :
  get_state ud ∈ [BOOKING_COURSE; BOOKING_TIME; BOOKING_CONFIRM] ->
  message_router cfg env enable_ai_chat user_id user_input ud w
  = (Some (ud, []), w).
Proof.
  intros Hstate. unfold message_router, is_in_booking_flow.
  unfold handle_booking_input.
  repeat (apply elem_of_cons in Hstate as [Hstate | Hstate]);
    [rewrite Hstate; reflexivity .. |].
  apply elem_of_nil in Hstate. contradiction.
Qed.

(** What an accepted or skipped phone leaves in the session. *)
Lemma set_phone_accepted user_input (ud : user_data) :
  is_skip user_input = true \/ fst (validate_phone user_input) = true ->
  set_phone ud user_input
  = ((true, []),
     set_state
       (set_user_data ud "booking_phone"
          (if is_skip user_input then VNone else VStr user_input))
       BOOKING_CONFIRM).
Proof.
  intros Hphone. unfold set_phone.
  destruct (is_skip user_input); [reflexivity |].
  destruct Hphone as [Hp | Hp]; [discriminate Hp |].
  destruct (validate_phone user_input) as [ok error]. cbn [fst] in Hp.
  subst ok. reflexivity.
Qed.

Lemma get_user_data_after_phone (ud : user_data) p f :
  f <> Phone ->
  get_user_data (set_state (set_user_data ud "booking_phone" p)
                           BOOKING_CONFIRM) (field_key f)
  = get_user_data ud (field_key f).
Proof.
  intros Hf. unfold get_user_data, set_state, set_user_data.
  destruct f; try congruence; cbn [field_key];
    rewrite !lookup_insert_ne by done; reflexivity.
Qed.

Lemma get_phone_after_phone (ud : user_data) p :
  get_user_data (set_state (set_user_data ud "booking_phone" p)
                           BOOKING_CONFIRM) "booking_phone" = p.
Proof.
  unfold get_user_data, set_state, set_user_data.
  rewrite lookup_insert_ne by done. rewrite lookup_insert_eq. reflexivity.
Qed.

(** X28: at the phone step, when the session holds a non-empty course,
    time slot, name and email, an accepted or skipped phone makes the
    handler send the confirmation of exactly these data, and leaves the
    session out of the form with no booking field stored. *)
Theorem phone_step_confirms
    user_input (ud : user_data) course time name email :
  get_state ud = BOOKING_PHONE ->
  is_skip user_input = true \/ fst (validate_phone user_input) = true ->
  get_user_data ud "booking_course" = VStr course -> course <> [] ->
  get_user_data ud "booking_time" = VStr time -> time <> [] ->
  get_user_data ud "booking_name" = VStr name -> name <> [] ->
  get_user_data ud "booking_email" = VStr email -> email <> [] ->
  exists ud' : user_data,
    handle_booking_input user_input ud
    = Some (ud',
            [reply_text
               (format_booking_confirmation name course time email
                  (if is_skip user_input then None else Some user_input))
               (Some get_back_to_menu_keyboard) (Some (lit "HTML"))])
    /\ get_state ud' = IDLE
    /\ forall f, populated ud' f = false.
Proof.
  intros Hstate Hphone Gc Tc Gt Tt Gn Tn Ge Te.
  apply truthy_nonempty in Tc, Tt, Tn, Te.
  unfold handle_booking_input. rewrite Hstate.
  rewrite (set_phone_accepted user_input ud Hphone). cbv iota beta.
  set (p := if is_skip user_input then VNone else VStr user_input).
  set (ud1 := set_state (set_user_data ud "booking_phone" p) BOOKING_CONFIRM).
  assert (Hsum : get_booking_summary ud1
                 = Some (<["phone"%string := p]>
                        (<["email"%string := VStr email]>
                        (<["name"%string := VStr name]>
                        (<["time"%string := VStr time]>
                        (<["course"%string := VStr course]> ∅)))))).
  { unfold get_booking_summary, ud1.
    pose proof (get_user_data_after_phone ud p Course ltac:(discriminate))
      as Kc.
    pose proof (get_user_data_after_phone ud p Time_ ltac:(discriminate))
      as Kt.
    pose proof (get_user_data_after_phone ud p Name ltac:(discriminate))
      as Kn.
    pose proof (get_user_data_after_phone ud p Email ltac:(discriminate))
      as Ke.
    cbn [field_key] in Kc, Kt, Kn, Ke. rewrite Kc, Kt, Kn, Ke.
    rewrite get_phone_after_phone. cbn [field_key].
    rewrite Gc, Gt, Gn, Ge. cbn [forallb value_truthy].
    rewrite Tc, Tt, Tn, Te. reflexivity. }
  rewrite Hsum. unfold summary_text, summary_phone.
  repeat (rewrite lookup_insert_eq || rewrite lookup_insert_ne by done).
  assert (Hp : match p with
               | VStr s => Some (Some s)
               | VNone => Some None
               | VList _ => None
               end
               = Some (if is_skip user_input then None else Some user_input))
    by (subst p; destruct (is_skip user_input); reflexivity).
  rewrite Hp. cbv zeta.
  eexists. split; [reflexivity |].
  unfold confirm_booking. rewrite Hsum. cbn [snd]. unfold reset_state.
  split; [apply get_state_set_state |].
  intros f. rewrite populated_set_state. apply populated_clear_booking_data.
Qed.

(** X29: at the phone step, when a required field is missing or empty (a
    form entered through the button of an earlier message), an accepted
    or skipped phone is stored but answered by the error message; the
    session stays at the confirmation step with its fields, where
    whatever is typed next is dropped. *)
Theorem phone_step_incomplete user_input (ud : user_data) :
  get_state ud = BOOKING_PHONE ->
  is_skip user_input = true \/ fst (validate_phone user_input) = true ->
  forallb (fun f => value_truthy (get_user_data ud (field_key f)))
          [Course; Time_; Name; Email] = false ->
  exists ud' : user_data,
    handle_booking_input user_input ud
    = Some (ud',
            [reply_text
               (lit "❌ Ошибка при обработке бронирования. Попробуйте снова /book")
               None None])
    /\ get_state ud' = BOOKING_CONFIRM
    /\ (forall f, f <> Phone ->
          get_user_data ud' (field_key f) = get_user_data ud (field_key f))
    /\ forall next_input, handle_booking_input next_input ud' = Some (ud', []).
Proof.
  intros Hstate Hphone Hmissing.
  unfold handle_booking_input at 1. rewrite Hstate.
  rewrite (set_phone_accepted user_input ud Hphone). cbv iota beta.
  set (p := if is_skip user_input then VNone else VStr user_input).
  set (ud1 := set_state (set_user_data ud "booking_phone" p) BOOKING_CONFIRM).
  assert (Hsum : get_booking_summary ud1 = None).
  { unfold get_booking_summary, ud1.
    pose proof (get_user_data_after_phone ud p Course ltac:(discriminate))
      as Kc.
    pose proof (get_user_data_after_phone ud p Time_ ltac:(discriminate))
      as Kt.
    pose proof (get_user_data_after_phone ud p Name ltac:(discriminate))
      as Kn.
    pose proof (get_user_data_after_phone ud p Email ltac:(discriminate))
      as Ke.
    cbn [field_key] in Kc, Kt, Kn, Ke. rewrite Kc, Kt, Kn, Ke.
    cbn [forallb field_key] in Hmissing |- *. rewrite Hmissing. reflexivity. }
  rewrite Hsum. exists ud1. split; [reflexivity |].
  assert (Hconfirm : get_state ud1 = BOOKING_CONFIRM)
    by apply get_state_set_state.
  split; [exact Hconfirm |].
  split; [intros f Hf; apply get_user_data_after_phone, Hf |].
  intros next_input. unfold handle_booking_input. rewrite Hconfirm.
  reflexivity.
Qed.

Lemma most_recent_snoc {A} n (l : list A) x :
  (1 <= n)%nat -> most_recent n (l ++ [x]) = most_recent (n - 1) l ++ [x].
Proof.
  intros Hn. unfold most_recent. rewrite length_app. cbn [length].
  rewrite drop_app_le by lia. do 2 f_equal. lia.
Qed.

Lemma last_user_message_snoc messages user_message :
  last_user_message
    (messages ++ [{| role := lit "user"; content := user_message |}])
  = Some user_message.
Proof.
  unfold last_user_message. rewrite rev_unit. cbn [List.find role].
  rewrite bool_decide_eq_true_2 by reflexivity. reflexivity.
Qed.

(** X30: for a non-empty text in a session whose history is a list or not
    yet there, [handle_message] asks the answer service with the history
    cut to its bound and ending in that text, so that the text is the
    one the cache key is taken from; it shows the typing action and then
    sends the chunks of the answer, at least one; and it leaves the
    history extended by the text and the answer, cut to its bound. *)
Theorem handle_message_answers user_id user_message (ud : user_data) w :
  1 <= MAX_HISTORY_MESSAGES cfg ->
  history_typed ud ->
  user_message <> [] ->
  let asked :=
    most_recent (Z.to_nat (2 * MAX_HISTORY_MESSAGES cfg))
      (history_of ud ++ [{| role := lit "user"; content := user_message |}]) in
  let answer := get_response cfg env asked user_id (lit "general") true w in
  let r := handle_message cfg env user_id user_message ud w in
  last_user_message asked = Some user_message
  /\ snd (fst r)
     = send_action (lit "typing")
       :: map (fun part => reply_text part None None)
              (split_long_message (fst answer) 4096)
  /\ 2 <= len (snd (fst r))
  /\ history_of (fst (fst r))
     = most_recent (Z.to_nat (2 * MAX_HISTORY_MESSAGES cfg))
         (history_of ud
          ++ [{| role := lit "user"; content := user_message |};
              {| role := lit "assistant"; content := fst answer |}])
  /\ snd r = snd answer.
Proof.
  intros HN Hty Hne. cbv zeta.
  set (asked := most_recent (Z.to_nat (2 * MAX_HISTORY_MESSAGES cfg))
                  (history_of ud
                   ++ [{| role := lit "user"; content := user_message |}])).
  split.
  { unfold asked. rewrite most_recent_snoc by lia.
    apply last_user_message_snoc. }
  destruct (add_message_history cfg ud (lit "user") user_message HN Hty)
    as (ud1 & Hadd & Hh1).
  fold asked in Hh1.
  unfold handle_message.
  apply truthy_nonempty in Hne. rewrite Hne. cbn [negb]. cbv zeta.
  rewrite Hadd. unfold get_history. rewrite Hh1.
  unfold mbind, M_bind.
  destruct (get_response cfg env asked user_id (lit "general") true w)
    as [ai_response w'].
  destruct (add_message_history cfg ud1 (lit "assistant") ai_response HN)
    as (ud2 & Hadd2 & Hh2); [right; eauto |].
  rewrite Hadd2. unfold mret, M_ret. cbn [fst snd].
  split; [reflexivity |]. split.
  { unfold len. cbn [length]. rewrite length_map.
    pose proof (split_long_message_not_nil ai_response 4096) as Hsome.
    destruct (split_long_message ai_response 4096); [congruence |].
    cbn [length]. lia. }
  split; [| reflexivity].
  rewrite (history_of_lookup _ _ Hh2), (history_of_lookup _ _ Hh1).
  unfold asked. rewrite most_recent_app, <- app_assoc. reflexivity.
Qed.

End Handler_facts.

(** ** The further properties on concrete inputs *)

Section Further_examples.
Import ConversationManager Validators BookingManager AIService.
Import Formatters Keyboards Handlers.

Lemma validators_ignore_outer_whitespace_witness :
  validator EmailStep ([32; 9] ++ lit "anna@example.com" ++ [10])
  = validator EmailStep (lit "anna@example.com").
Proof.
  apply (validators_ignore_outer_whitespace EmailStep [32; 9]
           (lit "anna@example.com") [10]).
  - reflexivity.
  - reflexivity.
Defined.

Lemma accepted_phone_shape_witness :
  10 <= len (remove_separators (strip (lit " +7 (495) 123-45-67 "))) <= 15
  /\ 9 <= len (List.filter is_decimal
                 (remove_separators (strip (lit " +7 (495) 123-45-67 "))))
  /\ forallb (fun c => is_decimal c || (c =? 43))
             (remove_separators (strip (lit " +7 (495) 123-45-67 "))) = true.
Proof.
  apply (accepted_phone_shape (lit " +7 (495) 123-45-67 ")).
  - vm_compute. reflexivity.
  - vm_compute. discriminate.
Defined.


Lemma accepted_text_html_safe_witness :
  forallb (fun c => negb (Formatters.html_special c))
          (lit " +7 (495) 123-45-67 ") = true.
Proof.
  apply (accepted_text_html_safe PhoneStep (lit " +7 (495) 123-45-67 ")).
  vm_compute. reflexivity.
Defined.

Lemma add_message_only_history_witness :
  default ∅ (add_message default_config (set_state ∅ BOOKING_NAME)
               (lit "user") (lit "Hello"))
    !! "conversation_state"%string
  = set_state ∅ BOOKING_NAME !! "conversation_state"%string.
Proof.
  apply (add_message_only_history default_config (set_state ∅ BOOKING_NAME)
           _ (lit "user") (lit "Hello") "conversation_state"%string).
  - vm_compute. reflexivity.
  - discriminate.
Defined.

Lemma filled_form_is_complete_witness :
  let ud' :=
    run_all [StartBooking; SetCourse (lit "book_it");
             SetTime (lit "time_morning"); SetName (lit "Anna");
             SetEmail (lit "anna@example.com"); SetPhone (lit "skip")] ∅ in
  get_state ud' = BOOKING_CONFIRM
  /\ get_booking_summary ud'
     = Some (<["phone"%string :=
                if is_skip (lit "skip") then VNone else VStr (lit "skip")]>
            (<["email"%string := VStr (lit "anna@example.com")]>
            (<["name"%string := VStr (lit "Anna")]>
            (<["time"%string := VStr (lit "Утро (08:00-09:00 МСК)")]>
            (<["course"%string := VStr (lit "IT English")]> ∅)))))
  /\ fst (confirm_booking ud') = true.
Proof.
  apply (filled_form_is_complete ∅ (lit "book_it") (lit "IT English")
           (lit "time_morning") (lit "Утро (08:00-09:00 МСК)")
           (lit "Anna") (lit "anna@example.com") (lit "skip")).
  - vm_compute. reflexivity.
  - vm_compute. reflexivity.
  - vm_compute. reflexivity.
  - vm_compute. reflexivity.
  - left. vm_compute. reflexivity.
Defined.

Lemma chunks_fit_when_paragraphs_fit_witness :
  Forall (fun chunk => len chunk <= 7)
         (Formatters.split_long_message
            (lit "ab cd" ++ Formatters.nn ++ lit "ef gh") 7).
Proof.
  apply (chunks_fit_when_paragraphs_fit
           (lit "ab cd" ++ Formatters.nn ++ lit "ef gh") 7).
  - lia.
  - vm_compute. repeat constructor; discriminate.
Defined.

Lemma reachable_last_step_stored_witness :
  last_step_stored (run_all stale_course_button ∅) = true.
Proof.
  apply (reachable_last_step_stored (run_all stale_course_button ∅)).
  apply reachable_run_all. constructor.
Defined.

Lemma provider_called_iff_not_cached_witness :
  answered_from_cache default_config provider_down question (lit "general")
    true new_world = false
  <-> 0 < calls_between new_world
            (snd (get_response default_config provider_down question 7
                    (lit "general") true new_world)).
Proof.
  apply (provider_called_iff_not_cached default_config provider_down question
           7 (lit "general") true new_world).
  simpl. lia.
Defined.

Lemma live_cache_entry_answers_witness :
  let r := get_response default_config provider_down question_again 8
             (lit "general") true (answered_world 0) in
  fst r = lit "1200 rubles"
  /\ calls_between (answered_world 0) (snd r) = 0
  /\ sleeps_since (answered_world 0) (snd r) = []
  /\ w_cache (snd r) = w_cache (answered_world 0).
Proof.
  apply (live_cache_entry_answers default_config provider_down question_again
           8 (lit "general") (answered_world 0)
           (lit "How much is a lesson?") (lit "1200 rubles") 0).
  - vm_compute. reflexivity.
  - vm_compute. discriminate.
  - vm_compute. reflexivity.
  - vm_compute. discriminate.
  - vm_compute. reflexivity.
Defined.

Lemma recovery_after_failures_witness :
  let r := get_response default_config
             (provider_recovers (Some (lit "1200 rubles"))) question 7
             (lit "general") true new_world in
  fst r = response_text_of (Some (lit "1200 rubles"))
  /\ calls_between new_world (snd r) = Z.of_nat 2 + 1
  /\ sleeps_since new_world (snd r)
     = map (fun i => 2 ^ Z.of_nat i) (seq 0 2).
Proof.
  apply (recovery_after_failures default_config
           (provider_recovers (Some (lit "1200 rubles"))) question 7
           (lit "general") true new_world (Some (lit "1200 rubles")) 2).
  - simpl. lia.
  - vm_compute. reflexivity.
  - intros i request Hi. simpl.
    destruct (Nat.ltb_spec i 2); [reflexivity | lia].
  - intros request. reflexivity.
Defined.

Lemma exhausted_retries_backoff_witness :
  sleeps_since new_world
    (snd (get_response default_config provider_down question 7
            (lit "general") true new_world))
  = map (fun i => 2 ^ Z.of_nat i)
        (seq 0 (Z.to_nat (AI_RETRY_ATTEMPTS default_config) - 1)).
Proof.
  apply (exhausted_retries_backoff default_config provider_down question 7
           (lit "general") true new_world).
  - simpl. lia.
  - vm_compute. reflexivity.
  - reflexivity.
Defined.

Lemma expired_entry_is_dropped_witness :
  let r := _get_cached_response default_config provider_down
             (cache_key_of (lit "general") (lit "How much is a lesson?"))
             (answered_world (-900)) in
  fst r = None
  /\ dict_get (cache_key_of (lit "general") (lit "How much is a lesson?"))
       (w_cache (snd r)) = None
  /\ (forall other,
        other <> cache_key_of (lit "general") (lit "How much is a lesson?") ->
        dict_get other (w_cache (snd r))
        = dict_get other (w_cache (answered_world (-900))))
  /\ len (w_cache (snd r)) = len (w_cache (answered_world (-900))) - 1.
Proof.
  apply (expired_entry_is_dropped default_config provider_down
           (cache_key_of (lit "general") (lit "How much is a lesson?"))
           (lit "1200 rubles") (-900) (answered_world (-900))).
  - apply (bool_decide_unpack _). vm_compute. exact I.
  - vm_compute. reflexivity.
  - vm_compute. discriminate.
Defined.

Lemma answer_all_cache_bounded_witness :
  dict_wf (w_cache (answer_all default_config answering two_requests
                      new_world))
  /\ len (w_cache (answer_all default_config answering two_requests
                     new_world)) <= 100.
Proof.
  apply (answer_all_cache_bounded default_config answering two_requests
           new_world).
  - apply (bool_decide_unpack _). vm_compute. exact I.
  - vm_compute. discriminate.
Defined.

Lemma answer_is_cached_for_repeat_witness :
  let first := get_response default_config answering question 7
                 (lit "general") true new_world in
  let second := get_response default_config answering question_again 8
                  (lit "general") true (snd first) in
  fst first = response_text_of (Some (lit "1200 rubles"))
  /\ fst second = fst first
  /\ calls_between (snd first) (snd second) = 0
  /\ w_cache (snd second) = w_cache (snd first).
Proof.
  apply (answer_is_cached_for_repeat default_config answering question 7
           question_again 8 (lit "general") new_world
           (lit "How much is a lesson?") (Some (lit "1200 rubles"))).
  - vm_compute. reflexivity.
  - vm_compute. reflexivity.
  - vm_compute. discriminate.
  - simpl. lia.
  - apply (bool_decide_unpack _). vm_compute. exact I.
  - vm_compute. discriminate.
  - intros i j Hij. simpl. lia.
  - constructor.
  - vm_compute. reflexivity.
  - vm_compute. reflexivity.
  - intros request. reflexivity.
Defined.

Lemma text_ignored_at_button_steps_witness :
  message_router default_config provider_down true 7 (lit "IT English")
    (start_booking ∅) new_world
  = (Some (start_booking ∅, []), new_world).
Proof.
  apply (text_ignored_at_button_steps default_config provider_down true 7
           (lit "IT English") (start_booking ∅) new_world).
  apply (bool_decide_unpack _). vm_compute. exact I.
Defined.

Lemma phone_step_confirms_witness :
  exists ud' : user_data,
    handle_booking_input (lit "+7 (495) 123-45-67") (run_all form_at_phone ∅)
    = Some (ud',
            [reply_text
               (format_booking_confirmation (lit "Anna") (lit "IT English")
                  (lit "Утро (08:00-09:00 МСК)") (lit "anna@example.com")
                  (if is_skip (lit "+7 (495) 123-45-67") then None
                   else Some (lit "+7 (495) 123-45-67")))
               (Some get_back_to_menu_keyboard) (Some (lit "HTML"))])
    /\ get_state ud' = IDLE
    /\ forall f, populated ud' f = false.
Proof.
  apply (phone_step_confirms (lit "+7 (495) 123-45-67")
           (run_all form_at_phone ∅) (lit "IT English")
           (lit "Утро (08:00-09:00 МСК)") (lit "Anna")
           (lit "anna@example.com")).
  - vm_compute. reflexivity.
  - right. vm_compute. reflexivity.
  - vm_compute. reflexivity.
  - vm_compute. discriminate.
  - vm_compute. reflexivity.
  - vm_compute. discriminate.
  - vm_compute. reflexivity.
  - vm_compute. discriminate.
  - vm_compute. reflexivity.
  - vm_compute. discriminate.
Defined.

Lemma phone_step_incomplete_witness :
  exists ud' : user_data,
    handle_booking_input (lit "skip") (run_all form_without_course ∅)
    = Some (ud',
            [reply_text
               (lit "❌ Ошибка при обработке бронирования. Попробуйте снова /book")
               None None])
    /\ get_state ud' = BOOKING_CONFIRM
    /\ (forall f, f <> Phone ->
          get_user_data ud' (field_key f)
          = get_user_data (run_all form_without_course ∅) (field_key f))
    /\ forall next_input, handle_booking_input next_input ud' = Some (ud', []).
Proof.
  apply (phone_step_incomplete (lit "skip") (run_all form_without_course ∅)).
  - vm_compute. reflexivity.
  - left. vm_compute. reflexivity.
  - vm_compute. reflexivity.
Defined.

Lemma handle_message_answers_witness :
  let asked :=
    most_recent (Z.to_nat (2 * MAX_HISTORY_MESSAGES default_config))
      (history_of ∅
       ++ [{| role := lit "user"; content := lit "How much is a lesson?" |}]) in
  let answer := get_response default_config answering asked 7 (lit "general")
                  true new_world in
  let r := handle_message default_config answering 7
             (lit "How much is a lesson?") ∅ new_world in
  last_user_message asked = Some (lit "How much is a lesson?")
  /\ snd (fst r)
     = send_action (lit "typing")
       :: map (fun part => reply_text part None None)
              (split_long_message (fst answer) 4096)
  /\ 2 <= len (snd (fst r))
  /\ history_of (fst (fst r))
     = most_recent (Z.to_nat (2 * MAX_HISTORY_MESSAGES default_config))
         (history_of ∅
          ++ [{| role := lit "user"; content := lit "How much is a lesson?" |};
              {| role := lit "assistant"; content := fst answer |}])
  /\ snd r = snd answer.
Proof.
  apply (handle_message_answers default_config answering 7
           (lit "How much is a lesson?") ∅ new_world).
  - simpl. lia.
  - left. reflexivity.
  - vm_compute. discriminate.
Defined.

End Further_examples.
